(** * Provisioning and teardown scripts: a shallow embedding

    The two entry points of the repository, [deploy_script.py] (apply) and
    [teardown.py] (destroy), are sequential Python programs whose only
    effects are calls on boto3 clients, reads of the local file system and
    clock, prints, and reads and writes of a [shelve] database.  They are
    embedded here as terms of a small free monad [prog]: one node per
    effect, in program order, with Python's exceptions and [try]/[except].
    [interp] runs a term against an arbitrary remote provider and local
    environment and returns the outcome, the final shelve content and the
    chronological trace of effects. *)

From Stdlib Require Import Ascii.
From stdpp Require Import gmap strings list.

Open Scope string_scope.

(** ** Python values and built-ins used by the scripts *)

Module Py.

(** The values the scripts keep in the shelve and pass around: strings and
    [None]. *)
Inductive pyval :=
| VNone
| VStr (s : string).

(** [bool(v)]: [None] and the empty string are falsy. *)
Definition truthy (v : pyval) : bool :=
  match v with
  | VNone => false
  | VStr s => negb (String.eqb s "")
  end.

(** [str(v)] as an f-string renders it. *)
Definition str (v : pyval) : string :=
  match v with
  | VNone => "None"
  | VStr s => s
  end.

(** [s.split(sep)] for a non-empty separator: [skip] counts the characters
    of a separator occurrence still to be dropped, [cur] is the piece read
    so far. *)
Fixpoint split_from (sep : string) (skip : nat) (cur s : string) : list string :=
  match s with
  | EmptyString => [cur]
  | String c rest =>
      match skip with
      | S n => split_from sep n cur rest
      | O =>
          if String.prefix sep s
          then cur :: split_from sep (String.length sep - 1) "" rest
          else split_from sep 0 (cur +:+ String c "") rest
      end
  end.

Definition split (s sep : string) : list string := split_from sep 0 "" s.

(** [s.replace(old, new)], which for a non-empty [old] is
    [new.join(s.split(old))]. *)
Definition replace (s old new : string) : string :=
  String.concat new (split s old).

Definition lower_ascii (c : ascii) : ascii :=
  let n := nat_of_ascii c in
  if Nat.leb 65 n && Nat.leb n 90 then ascii_of_nat (n + 32) else c.

Fixpoint lower (s : string) : string :=
  match s with
  | EmptyString => EmptyString
  | String c rest => String (lower_ascii c) (lower rest)
  end.

Definition endswith (s suffix : string) : bool :=
  String.prefix (String.rev suffix) (String.rev s).

(** [range(start, stop, step)] for a positive step. *)
Definition range (start stop step : nat) : list nat :=
  (λ k, start + k * step) <$> seq 0 ((stop - start + (step - 1)) / step).

(** [l[i:j]] for [0 <= i <= j]. *)
Definition slice {A} (l : list A) (i j : nat) : list A :=
  take (j - i) (drop i l).

(** The newline of ["\n..."] in the printed banners. *)
Definition nl : string := String (ascii_of_nat 10) "".

End Py.

Import Py.

(** ** The boto3 clients: operations, replies and exceptions *)

Module Boto.

Inductive service := S3 | DynamoDB | Lambda | STS | ApiGatewayV2 | SNS.

(** Python exceptions the scripts can meet.  A [ClientError] carries the
    client it was raised by and [e.response['Error']['Code']]; the modelled
    exception classes of a client ([lambda_client.exceptions.
    ResourceConflictException] and the like) are the [ClientError]s of that
    client with that code.  A waiter never raises a [ClientError]: it
    raises [WaiterError]. *)
Inductive exn :=
| ClientError (svc : service) (code : string)
| WaiterError (waiter : string)
| IndexError
| KeyError (key : string)
| FileNotFoundError (msg : string)
| OSError.

Record identity := { Account : string; Arn : string }.
Record api_item := { ApiId : string; Name : string }.
Record table_description :=
  { TableArn : string; LatestStreamArn : option string }.
Record object_version := { Key : string; VersionId : string }.
Record versions_page :=
  { Versions : list object_version; DeleteMarkers : list object_version }.
Record objects_page := { Contents : list string }.
Record event_source_mapping := { UUID : string }.

(** An entry of [Delete={"Objects": [...]}]: [{"Key": k}] or
    [{"Key": k, "VersionId": v}]. *)
Inductive object_ref :=
| KeyRef (key : string)
| VersionRef (key version : string).

(** What iterating a paginator yields: the pages in order, then, when
    [fault] is a code, a [ClientError] with that code. *)
Record paged (X : Type) := Paged { pages : list X; fault : option string }.
Arguments Paged {X} _ _.
Arguments pages {X} _.
Arguments fault {X} _.

Record policy_statement :=
  { Sid : string; Effect : string; Principal : string;
    Action : list string; Resource : string }.
Record policy := { Version : string; Statement : list policy_statement }.
Record cors_configuration :=
  { AllowOrigins : list string; AllowMethods : list string;
    AllowHeaders : list string }.
Record stream_specification :=
  { StreamEnabled : bool; StreamViewType : string }.
Record lambda_function_configuration :=
  { LambdaFunctionArn : string; Events : list string;
    FilterRules : list (string * string) }.

(** A deployment package: the members [z.writestr] put in the archive. *)
Definition zip_bytes := list (string * string).

(** The client methods the two scripts call, with the keyword arguments
    they pass.  The three [_wait_] operations are the waiters'
    [wait] methods. *)
Inductive aws_op :=
(* s3 *)
| s3_head_bucket (Bucket : string)
| s3_create_bucket (Bucket : string) (LocationConstraint : option string)
| s3_put_public_access_block (Bucket : string)
    (BlockPublicAcls IgnorePublicAcls BlockPublicPolicy
       RestrictPublicBuckets : bool)
| s3_put_bucket_policy (Bucket : string) (Policy : policy)
| s3_put_bucket_notification_configuration (Bucket : string)
    (LambdaFunctionConfigurations : list lambda_function_configuration)
| s3_put_object (Bucket Key Body ContentType : string)
| s3_put_bucket_website (Bucket IndexDocumentSuffix : string)
| s3_upload_file (Filename Bucket Key : string)
| s3_get_bucket_location (Bucket : string)
| s3_list_object_versions (region Bucket : string)
| s3_list_objects_v2 (region Bucket : string)
| s3_delete_objects (region Bucket : string) (Objects : list object_ref)
    (Quiet : bool)
| s3_delete_bucket (region Bucket : string)
(* dynamodb *)
| ddb_create_table (TableName : string)
    (KeySchema AttributeDefinitions : list (string * string))
    (BillingMode : string) (StreamSpecification : stream_specification)
| ddb_wait_table_exists (TableName : string)
| ddb_describe_table (TableName : string)
| ddb_delete_table (TableName : string)
| ddb_wait_table_not_exists (TableName : string)
(* lambda *)
| lambda_create_function (FunctionName Runtime Role Handler : string)
    (ZipFile : zip_bytes) (Timeout MemorySize : nat)
    (Variables : list (string * string)) (Publish : bool)
| lambda_update_function_code (FunctionName : string) (ZipFile : zip_bytes)
    (Publish : bool)
| lambda_wait_function_updated (FunctionName : string)
| lambda_update_function_configuration (FunctionName Role : string)
    (Variables : list (string * string))
| lambda_add_permission
    (FunctionName StatementId Action Principal SourceArn : string)
| lambda_create_event_source_mapping
    (EventSourceArn FunctionName StartingPosition : string)
    (BatchSize : nat) (Enabled : bool)
| lambda_list_event_source_mappings (FunctionName : string)
| lambda_delete_event_source_mapping (UUID : string)
| lambda_delete_function (FunctionName : string)
(* sts *)
| sts_get_caller_identity
(* apigatewayv2 *)
| apigw_get_apis
| apigw_create_api (Name ProtocolType : string)
    (CorsConfiguration : cors_configuration)
| apigw_create_integration
    (ApiId IntegrationType IntegrationUri PayloadFormatVersion : string)
| apigw_create_route (ApiId RouteKey Target : string)
| apigw_create_stage (ApiId StageName : string) (AutoDeploy : bool)
| apigw_delete_api (ApiId : string)
(* sns *)
| sns_create_topic (Name : string)
| sns_subscribe (TopicArn Protocol Endpoint : string)
| sns_delete_topic (TopicArn : string).

(** The part of a successful response the scripts read. *)
Definition aws_ret (o : aws_op) : Set :=
  match o with
  | s3_get_bucket_location _ => option string
  | s3_list_object_versions _ _ => paged versions_page
  | s3_list_objects_v2 _ _ => paged objects_page
  | ddb_describe_table _ => table_description
  | lambda_list_event_source_mappings _ => list event_source_mapping
  | sts_get_caller_identity => identity
  | apigw_get_apis => list api_item
  | apigw_create_api _ _ _ => string
  | apigw_create_integration _ _ _ _ => string
  | sns_create_topic _ => string
  | _ => unit
  end.

Definition service_of (o : aws_op) : service :=
  match o with
  | s3_head_bucket _ | s3_create_bucket _ _
  | s3_put_public_access_block _ _ _ _ _ | s3_put_bucket_policy _ _
  | s3_put_bucket_notification_configuration _ _ | s3_put_object _ _ _ _
  | s3_put_bucket_website _ _ | s3_upload_file _ _ _
  | s3_get_bucket_location _ | s3_list_object_versions _ _
  | s3_list_objects_v2 _ _ | s3_delete_objects _ _ _ _
  | s3_delete_bucket _ _ => S3
  | ddb_create_table _ _ _ _ _ | ddb_wait_table_exists _
  | ddb_describe_table _ | ddb_delete_table _
  | ddb_wait_table_not_exists _ => DynamoDB
  | lambda_create_function _ _ _ _ _ _ _ _ _
  | lambda_update_function_code _ _ _ | lambda_wait_function_updated _
  | lambda_update_function_configuration _ _ _
  | lambda_add_permission _ _ _ _ _
  | lambda_create_event_source_mapping _ _ _ _ _
  | lambda_list_event_source_mappings _
  | lambda_delete_event_source_mapping _ | lambda_delete_function _ => Lambda
  | sts_get_caller_identity => STS
  | apigw_get_apis | apigw_create_api _ _ _
  | apigw_create_integration _ _ _ _ | apigw_create_route _ _ _
  | apigw_create_stage _ _ _ | apigw_delete_api _ => ApiGatewayV2
  | sns_create_topic _ | sns_subscribe _ _ _ | sns_delete_topic _ => SNS
  end.

(** How the remote answers a call: the response, or an error code. *)
Inductive reply (X : Type) :=
| Success (x : X)
| Failure (code : string).
Arguments Success {X} _.
Arguments Failure {X} _.

Definition code_of {X} (r : reply X) : option string :=
  match r with
  | Success _ => None
  | Failure c => Some c
  end.

(** The exception a failed call raises, the failure being the answer of the
    provider: [ClientError] with the error code of the answer, or
    [WaiterError] from a waiter.  The errors the client raises without an
    answer of the provider (parameter validation, credentials, connection)
    are outside the model; [except ClientError] does not catch them, so a
    run they occur in ends there.  Where a statement says that a run returns
    or goes on after a failed call, the failure is one the provider
    answered. *)
Definition exn_of (o : aws_op) (code : string) : exn :=
  match o with
  | ddb_wait_table_exists _ => WaiterError "table_exists"
  | ddb_wait_table_not_exists _ => WaiterError "table_not_exists"
  | lambda_wait_function_updated _ => WaiterError "function_updated"
  | _ => ClientError (service_of o) code
  end.

(** [str(e)] inside a printed message. *)
Definition exn_str (e : exn) : string :=
  match e with
  | ClientError _ code => "An error occurred (" +:+ code +:+ ")"
  | WaiterError w => "Waiter " +:+ w +:+ " failed"
  | IndexError => "list index out of range"
  | KeyError k => k
  | FileNotFoundError msg => msg
  | OSError => "OSError"
  end.

#[global] Instance service_eq_dec : EqDecision service.
Proof. solve_decision. Defined.

(** [isinstance(e, client.exceptions.<code>)] for the client of [svc]: what
    an [except client.exceptions.<code>] clause catches. *)
Definition is_error (svc : service) (code : string) (e : exn) : bool :=
  match e with
  | ClientError s c => bool_decide (s = svc) && String.eqb c code
  | _ => false
  end.

(** The local machine: file system, clock and random source. *)
Inductive local_op :=
| os_path_isfile (path : string)
| os_path_exists (path : string)
| os_listdir (path : string)
| file_read (path : string)
| time_strftime (format : string)
| uuid4_hex
| time_sleep (secs : nat).

(** [os_listdir] and [file_read] answer [None] when the operating system
    refuses ([OSError]). *)
Definition local_ret (l : local_op) : Set :=
  match l with
  | os_path_isfile _ | os_path_exists _ => bool
  | os_listdir _ => option (list string)
  | file_read _ => option string
  | time_strftime _ | uuid4_hex => string
  | time_sleep _ => unit
  end.

End Boto.

Import Boto.

(** ** Programs and their runs *)

(** The shelve database: keys to pickled values.  A write through
    [db[key] = value] reaches the underlying dbm file at once (with
    [writeback=True] as well), so the content modelled here is what a later
    process finds. *)
Abbreviation shelf := (gmap string pyval).

Inductive prog (A : Type) : Type :=
| Ret (a : A)
| Raise (e : exn)
| Aws (o : aws_op) (k : reply (aws_ret o) → prog A)
| Env (l : local_op) (k : local_ret l → prog A)
| Print (msg : string) (k : prog A)
| DbLookup (key : string) (k : option pyval → prog A)
| DbSetItem (key : string) (v : pyval) (k : prog A)
| DbClear (k : prog A).
Arguments Ret {A} _.
Arguments Raise {A} _.
Arguments Aws {A} _ _.
Arguments Env {A} _ _.
Arguments Print {A} _ _.
Arguments DbLookup {A} _ _.
Arguments DbSetItem {A} _ _ _.
Arguments DbClear {A} _.

Fixpoint bind {A B} (p : prog A) (f : A → prog B) : prog B :=
  match p with
  | Ret a => f a
  | Raise e => Raise e
  | Aws o k => Aws o (λ r, bind (k r) f)
  | Env l k => Env l (λ r, bind (k r) f)
  | Print msg k => Print msg (bind k f)
  | DbLookup key k => DbLookup key (λ v, bind (k v) f)
  | DbSetItem key v k => DbSetItem key v (bind k f)
  | DbClear k => DbClear (bind k f)
  end.

(** [try: p except ...: h e]; the handler re-raises what its [except]
    clauses do not match. *)
Fixpoint try_except {A} (p : prog A) (h : exn → prog A) : prog A :=
  match p with
  | Ret a => Ret a
  | Raise e => h e
  | Aws o k => Aws o (λ r, try_except (k r) h)
  | Env l k => Env l (λ r, try_except (k r) h)
  | Print msg k => Print msg (try_except k h)
  | DbLookup key k => DbLookup key (λ v, try_except (k v) h)
  | DbSetItem key v k => DbSetItem key v (try_except k h)
  | DbClear k => DbClear (try_except k h)
  end.

Declare Scope prog_scope.
Delimit Scope prog_scope with prog.
Bind Scope prog_scope with prog.
Notation "x <- p ;; q" := (bind p (λ x, q))
  (at level 100, p at next level, right associativity) : prog_scope.
Notation "p ;; q" := (bind p (λ _, q))
  (at level 100, right associativity) : prog_scope.
Open Scope prog_scope.

(** A client call: the response, or the exception of the failure. *)
Definition call (o : aws_op) : prog (aws_ret o) :=
  Aws o (λ r, match r with
              | Success x => Ret x
              | Failure code => Raise (exn_of o code)
              end).

Definition env (l : local_op) : prog (local_ret l) := Env l Ret.

Definition print (msg : string) : prog unit := Print msg (Ret tt).

(** [key in db] *)
Definition db_contains (key : string) : prog bool :=
  DbLookup key (λ v, Ret (bool_decide (is_Some v))).

(** [db[key]] *)
Definition db_getitem (key : string) : prog pyval :=
  DbLookup key (λ v, match v with
                     | Some x => Ret x
                     | None => Raise (KeyError key)
                     end).

(** [db.get(key)] *)
Definition db_get (key : string) : prog pyval :=
  DbLookup key (λ v, Ret (default VNone v)).

(** [db[key] = v] *)
Definition db_setitem (key : string) (v : pyval) : prog unit :=
  DbSetItem key v (Ret tt).

Definition db_clear : prog unit := DbClear (Ret tt).

(** [for x in l: body x] *)
Fixpoint for_each {X} (l : list X) (body : X → prog unit) : prog unit :=
  match l with
  | [] => Ret tt
  | x :: rest => body x ;; for_each rest body
  end.

(** [for page in paginator.paginate(...): body page] *)
Definition for_pages {X} (pg : paged X) (body : X → prog unit)
    (svc : service) : prog unit :=
  for_each (pages pg) body ;;
  match fault pg with
  | Some code => Raise (ClientError svc code)
  | None => Ret tt
  end.

(** [l[i]] *)
Definition index {X} (l : list X) (i : nat) : prog X :=
  match l !! i with
  | Some x => Ret x
  | None => Raise IndexError
  end.

Inductive event :=
| Called (o : aws_op) (err : option string)
| Did (l : local_op)
| Printed (msg : string)
| DbRead (key : string) (v : option pyval)
| DbWrote (key : string) (v : pyval)
| DbCleared.

(** The remote provider and the local machine, over a state [W] of the
    outside world. *)
Record environment (W : Type) := Environment {
  aws : ∀ o : aws_op, W → reply (aws_ret o) * W;
  loc : ∀ l : local_op, W → local_ret l * W
}.
Arguments Environment {W} _ _.
Arguments aws {W} _ _ _.
Arguments loc {W} _ _ _.

Inductive result (A : Type) :=
| Returned (a : A)
| Raised (e : exn).
Arguments Returned {A} _.
Arguments Raised {A} _.

Record run (W A : Type) := Run {
  outcome : result A;
  world : W;
  store : shelf;
  trace : list event
}.
Arguments Run {W A} _ _ _ _.
Arguments outcome {W A} _.
Arguments world {W A} _.
Arguments store {W A} _.
Arguments trace {W A} _.

Definition emit {W A} (ev : event) (r : run W A) : run W A :=
  Run (outcome r) (world r) (store r) (ev :: trace r).

Fixpoint interp {W A} (E : environment W) (p : prog A) (w : W) (db : shelf)
    : run W A :=
  match p with
  | Ret a => Run (Returned a) w db []
  | Raise e => Run (Raised e) w db []
  | Aws o k =>
      let rw := aws E o w in
      emit (Called o (code_of rw.1)) (interp E (k rw.1) rw.2 db)
  | Env l k =>
      let rw := loc E l w in
      emit (Did l) (interp E (k rw.1) rw.2 db)
  | Print msg k => emit (Printed msg) (interp E k w db)
  | DbLookup key k => emit (DbRead key (db !! key)) (interp E (k (db !! key)) w db)
  | DbSetItem key v k => emit (DbWrote key v) (interp E k w (<[key := v]> db))
  | DbClear k => emit DbCleared (interp E k w ∅)
  end.

(** The client calls of a trace, in order. *)
Definition is_call (ev : event) : bool :=
  match ev with
  | Called _ _ => true
  | _ => false
  end.

Definition calls (t : list event) : list event := List.filter is_call t.

Definition is_db_write (ev : event) : bool :=
  match ev with
  | DbWrote _ _ | DbCleared => true
  | _ => false
  end.

(** ** deploy_script.py *)

Module deploy_script.
Section config.

(** [os.getenv("AWS_DEFAULT_REGION", "us-east-1")] and
    [os.getenv("EMAIL_NOTIFY", ...)], read once when the module loads. *)
Variable AWS_DEFAULT_REGION : string.
Variable EMAIL_NOTIFY : string.

Definition ROLE_NAME := "LabRole".
Definition LOADER_FUNC_NAME := "LoadInventoryFunction".
Definition API_FUNC_NAME := "GetInventoryApiFunction".
Definition NOTIFY_FUNC_NAME := "NotifyLowStockFunction".
Definition TABLE_NAME := "Inventory".

Definition unique_suffix : prog string :=
  day <- env (time_strftime "%Y%m%d") ;;
  hex <- env uuid4_hex ;;
  Ret (day +:+ "-" +:+ String.substring 0 8 hex).

Definition bucket_exists (name : string) : prog bool :=
  try_except
    (call (s3_head_bucket name) ;; Ret true)
    (λ e, match e with
          | ClientError _ _ => Ret false
          | _ => Raise e
          end).

Definition create_bucket (name : string) : prog unit :=
  if String.eqb AWS_DEFAULT_REGION "us-east-1"
  then call (s3_create_bucket name None)
  else call (s3_create_bucket name (Some AWS_DEFAULT_REGION)).

Definition ensure_bucket (name : string) : prog unit :=
  found <- bucket_exists name ;;
  if found
  then print ("[S3] Bucket ya existe: " +:+ name)
  else create_bucket name ;;
       print ("[S3] Bucket creado: " +:+ name).

Definition disable_bucket_bpa (bucket : string) : prog unit :=
  try_except
    (call (s3_put_public_access_block bucket false false false false))
    (λ e, match e with
          | ClientError _ _ =>
              print ("[WARN] No se pudo desactivar BPA en " +:+ bucket
                     +:+ ": " +:+ exn_str e)
          | _ => Raise e
          end).

Definition apply_web_public_policy (bucket : string) : prog unit :=
  let policy :=
    {| Version := "2012-10-17";
       Statement :=
         [ {| Sid := "PublicReadObjects";
              Effect := "Allow";
              Principal := "*";
              Action := ["s3:GetObject"];
              Resource := "arn:aws:s3:::" +:+ bucket +:+ "/*" |} ] |} in
  call (s3_put_bucket_policy bucket policy).

Definition labrole_arn : prog string :=
  ident <- call sts_get_caller_identity ;;
  let account := Account ident in
  partition <- index (split (Arn ident) ":") 1 ;;
  Ret ("arn:" +:+ partition +:+ ":iam::" +:+ account +:+ ":role/"
       +:+ ROLE_NAME).

Definition ensure_inventory_table (name : string) : prog string :=
  try_except
    (call (ddb_create_table name
             [("store", "HASH"); ("item", "RANGE")]
             [("store", "S"); ("item", "S")]
             "PAY_PER_REQUEST"
             {| StreamEnabled := true;
                StreamViewType := "NEW_AND_OLD_IMAGES" |}) ;;
     print ("[DDB] Creando tabla: " +:+ name +:+ "...") ;;
     call (ddb_wait_table_exists name))
    (λ e, if is_error DynamoDB "ResourceInUseException" e
          then
            print ("[DDB] Tabla ya existe: " +:+ name)
          else Raise e) ;;
  desc <- call (ddb_describe_table name) ;;
  Ret (TableArn desc).

(** [next((a["ApiId"] for a in apis if a["Name"] == api_name), None)] *)
Definition find_api_id (apis : list api_item) (api_name : string) : pyval :=
  match List.find (λ a, String.eqb (Name a) api_name) apis with
  | Some a => VStr (ApiId a)
  | None => VNone
  end.

Definition ensure_http_api (api_name lambda_arn : string) : prog string :=
  (* 1. Crear API *)
  apis <- call apigw_get_apis ;;
  let found := find_api_id apis api_name in
  api_id <-
    (if negb (truthy found)
     then
       resp <- call (apigw_create_api api_name "HTTP"
                       {| AllowOrigins := ["*"];
                          AllowMethods := ["GET"; "OPTIONS"];
                          AllowHeaders := ["Content-Type"] |}) ;;
       print ("[API GW] API creada: " +:+ api_name +:+ " (ID: " +:+ resp
              +:+ ")") ;;
       Ret resp
     else
       print ("[API GW] API ya existe: " +:+ api_name +:+ " (ID: "
              +:+ str found +:+ ")") ;;
       Ret (str found)) ;;
  (* 2. Permiso para API Gateway -> Lambda *)
  try_except
    (ident <- call sts_get_caller_identity ;;
     call (lambda_add_permission lambda_arn
             ("ApiGatewayInvoke-" +:+ api_id)
             "lambda:InvokeFunction"
             "apigateway.amazonaws.com"
             ("arn:aws:execute-api:" +:+ AWS_DEFAULT_REGION +:+ ":"
              +:+ Account ident +:+ ":" +:+ api_id +:+ "/*/*")))
    (λ e, if is_error Lambda "ResourceConflictException" e then Ret tt
          else Raise e) ;;
  integration_id <-
    call (apigw_create_integration api_id "AWS_PROXY" lambda_arn "2.0") ;;
  (* 3. Rutas *)
  for_each ["GET /items"; "GET /items/{store}"]
    (λ route_key,
       try_except
         (call (apigw_create_route api_id route_key
                  ("integrations/" +:+ integration_id)))
         (λ e, if is_error ApiGatewayV2 "ConflictException" e then Ret tt
               else Raise e)) ;;
  (* 4. Stage *)
  try_except
    (call (apigw_create_stage api_id "$default" true))
    (λ e, if is_error ApiGatewayV2 "ConflictException" e then Ret tt
          else Raise e) ;;
  Ret ("https://" +:+ api_id +:+ ".execute-api." +:+ AWS_DEFAULT_REGION
       +:+ ".amazonaws.com").

Definition build_lambda_zip_bytes (source_path : option string)
    : prog zip_bytes :=
  let source_path :=
    default "lambda_function/lambda_function.py" source_path in
  is_file <- env (os_path_isfile source_path) ;;
  if negb is_file
  then Raise (FileNotFoundError
                ("No se encontró el archivo: " +:+ source_path))
  else
    content <- env (file_read source_path) ;;
    match content with
    | None => Raise OSError
    | Some code_bytes => Ret [("lambda_function.py", code_bytes)]
    end.

Definition default_handler := "lambda_function.lambda_handler".

Definition ensure_lambda_generic (function_name role_arn : string)
    (zip : zip_bytes) (env_vars : option (list (string * string)))
    (handler : string) : prog string :=
  let env_vars := default [] env_vars in
  ident <- call sts_get_caller_identity ;;
  let account_id := Account ident in
  let base_arn :=
    "arn:aws:lambda:" +:+ AWS_DEFAULT_REGION +:+ ":" +:+ account_id
    +:+ ":function:" +:+ function_name in
  try_except
    (call (lambda_create_function function_name "python3.11" role_arn
             handler zip 30 256 env_vars true) ;;
     print ("[Lambda] Función creada: " +:+ function_name))
    (λ e, if is_error Lambda "ResourceConflictException" e
          then
            print ("[Lambda] Función " +:+ function_name
                   +:+ " ya existe. Actualizando código...") ;;
            call (lambda_update_function_code function_name zip true) ;;
            call (lambda_wait_function_updated function_name) ;;
            print ("[Lambda] Actualizando configuración de "
                   +:+ function_name +:+ "...") ;;
            call (lambda_update_function_configuration function_name
                    role_arn env_vars)
          else Raise e) ;;
  Ret base_arn.

Definition configure_s3_lambda_trigger
    (bucket_name lambda_arn function_name : string) : prog unit :=
  let statement_id := "S3Invoke-" +:+ bucket_name in
  try_except
    (call (lambda_add_permission function_name statement_id
             "lambda:InvokeFunction" "s3.amazonaws.com"
             ("arn:aws:s3:::" +:+ bucket_name)))
    (λ e, if is_error Lambda "ResourceConflictException" e then Ret tt
          else Raise e) ;;
  env (time_sleep 2) ;;
  call (s3_put_bucket_notification_configuration bucket_name
          [ {| LambdaFunctionArn := lambda_arn;
               Events := ["s3:ObjectCreated:*"];
               FilterRules := [("suffix", ".csv")] |} ]) ;;
  print ("[S3] Trigger configurado: " +:+ bucket_name +:+ " -> "
         +:+ function_name).

Definition ensure_sns_topic (topic_name : string) : prog string :=
  topic_arn <- call (sns_create_topic topic_name) ;;
  print ("[SNS] Topic: " +:+ topic_arn) ;;
  Ret topic_arn.

Definition subscribe_email (topic_arn email : string) : prog unit :=
  call (sns_subscribe topic_arn "email" email) ;;
  print ("[SNS] Suscripción enviada a " +:+ email).

Definition create_dynamodb_trigger (lambda_name stream_arn : string)
    : prog unit :=
  try_except
    (call (lambda_create_event_source_mapping stream_arn lambda_name
             "LATEST" 1 true) ;;
     print ("[Lambda] Stream conectado a " +:+ lambda_name))
    (λ e, if is_error Lambda "ResourceConflictException" e
          then
            print ("[Lambda] Stream ya conectado a " +:+ lambda_name)
          else Raise e).

Definition deploy_static_site (web_bucket api_url index_path : string)
    : prog pyval :=
  found <- env (os_path_exists index_path) ;;
  if negb found
  then
    print ("[WARN] No se encontró " +:+ index_path
           +:+ ", saltando subida web.") ;;
    Ret VNone
  else
    disable_bucket_bpa web_bucket ;;
    apply_web_public_policy web_bucket ;;
    content <- env (file_read index_path) ;;
    match content with
    | None => Raise OSError
    | Some content =>
        let content_mod :=
          replace content "REPLACE_ME_WITH_YOUR_INVOKE_URL" api_url in
        call (s3_put_object web_bucket "index.html" content_mod
                "text/html; charset=utf-8") ;;
        call (s3_put_bucket_website web_bucket "index.html") ;;
        let website_host :=
          if String.eqb AWS_DEFAULT_REGION "us-east-1"
          then "s3-website-us-east-1.amazonaws.com"
          else "s3-website-" +:+ AWS_DEFAULT_REGION +:+ ".amazonaws.com" in
        Ret (VStr ("http://" +:+ web_bucket +:+ "." +:+ website_host
                   +:+ "/"))
    end.

(** The loop of [upload_initial_data] over [os.listdir(local_folder)], with
    its flag [files_found]. *)
Fixpoint upload_csv_files (bucket_name local_folder : string)
    (names : list string) (files_found : bool) : prog bool :=
  match names with
  | [] => Ret files_found
  | filename :: rest =>
      if endswith (lower filename) ".csv"
      then
        let local_path := local_folder +:+ "/" +:+ filename in
        try_except
          (print ("   -> Subiendo: " +:+ filename +:+ " ...") ;;
           call (s3_upload_file local_path bucket_name filename))
          (λ e, print ("   [ERROR] Falló al subir " +:+ filename +:+ ": "
                       +:+ exn_str e)) ;;
        upload_csv_files bucket_name local_folder rest true
      else upload_csv_files bucket_name local_folder rest files_found
  end.

Definition upload_initial_data (bucket_name local_folder : string)
    : prog unit :=
  found <- env (os_path_exists local_folder) ;;
  if negb found
  then
    print ("[WARN] No se encontró la carpeta local './" +:+ local_folder
           +:+ "'. Salta la subida de datos.") ;;
    print ("       -> Crea la carpeta '" +:+ local_folder
           +:+ "' y pon tus .csv dentro.")
  else
    print (nl +:+ "[Data] Buscando archivos CSV en './" +:+ local_folder
           +:+ "' para subir a " +:+ bucket_name +:+ "...") ;;
    names <- env (os_listdir local_folder) ;;
    match names with
    | None => Raise OSError
    | Some names =>
        files_found <- upload_csv_files bucket_name local_folder names false ;;
        if negb files_found
        then print ("   [INFO] La carpeta '" +:+ local_folder
                    +:+ "' existe pero no contiene archivos .csv.")
        else print "[Data] Subida completada. Las Lambdas deberían activarse en breve."
    end.

(** The state-management block that opens [__main__]: the run suffix is read
    from the shelve, or generated and stored; the bucket names derived from
    it are stored at once. *)
Definition resolve_suffix : prog pyval :=
  known <- db_contains "suffix" ;;
  if known
  then
    suffix <- db_getitem "suffix" ;;
    print ("=== RESUMIENDO DESPLIEGUE (Sufijo: " +:+ str suffix +:+ ") ===") ;;
    Ret suffix
  else
    suffix <- unique_suffix ;;
    db_setitem "suffix" (VStr suffix) ;;
    print ("=== INICIANDO NUEVO DESPLIEGUE (Sufijo: " +:+ suffix
           +:+ ") ===") ;;
    Ret (VStr suffix).

Definition uploads_bucket_name (suffix : pyval) : string :=
  "inventory-uploads-" +:+ str suffix.
Definition web_bucket_name (suffix : pyval) : string :=
  "inventory-web-" +:+ str suffix.
Definition sns_topic_name_of (suffix : pyval) : string :=
  "NoStock-" +:+ str suffix.

(** Steps 2 to 7 of [__main__], from the first bucket to the data upload:
    everything between the early and the final shelve writes.  It returns
    what the final writes store. *)
Definition provision (uploads_bucket web_bucket sns_topic_name : string)
    : prog (string * pyval * string * string) :=
  (* 2. Infraestructura Base *)
  ensure_bucket uploads_bucket ;;
  ensure_bucket web_bucket ;;
  table_arn <- ensure_inventory_table TABLE_NAME ;;
  role <- labrole_arn ;;
  (* 3. Lambda A (Loader) *)
  print (nl +:+ "--- Desplegando Lambda A (Loader) ---") ;;
  loader_zip <-
    build_lambda_zip_bytes (Some "lambdas/load_inventory/lambda_function.py") ;;
  loader_arn <-
    ensure_lambda_generic LOADER_FUNC_NAME role loader_zip
      (Some [("TABLE_NAME", TABLE_NAME)]) default_handler ;;
  (* 4. Lambda B (API) *)
  print (nl +:+ "--- Desplegando Lambda B (API) ---") ;;
  api_zip <-
    build_lambda_zip_bytes
      (Some "lambdas/get_inventory_api/lambda_function.py") ;;
  api_lambda_arn <-
    ensure_lambda_generic API_FUNC_NAME role api_zip
      (Some [("TABLE_NAME", TABLE_NAME)]) default_handler ;;
  api_url <- ensure_http_api "InventoryAPI" api_lambda_arn ;;
  (* 5. Lambda C (Notificaciones) *)
  print (nl +:+ "--- Desplegando Lambda C (Notify) ---") ;;
  sns_topic_arn <- ensure_sns_topic sns_topic_name ;;
  subscribe_email sns_topic_arn EMAIL_NOTIFY ;;
  notify_zip <-
    build_lambda_zip_bytes
      (Some "lambdas/notify_low_stock/lambda_function.py") ;;
  notify_arn <-
    ensure_lambda_generic NOTIFY_FUNC_NAME role notify_zip
      (Some [("TOPIC_ARN", sns_topic_arn)]) default_handler ;;
  env (time_sleep 5) ;;
  configure_s3_lambda_trigger uploads_bucket loader_arn LOADER_FUNC_NAME ;;
  (* Conectar Stream DynamoDB *)
  ddb_desc <- call (ddb_describe_table TABLE_NAME) ;;
  match LatestStreamArn ddb_desc with
  | Some stream_arn => create_dynamodb_trigger NOTIFY_FUNC_NAME stream_arn
  | None => Ret tt
  end ;;
  (* 6. Frontend *)
  print (nl +:+ "--- Desplegando Frontend ---") ;;
  web_url <- deploy_static_site web_bucket api_url "web/index.html" ;;
  (* 7. Subida de datos desde carpeta local *)
  print (nl +:+ "--- Ingestando Datos desde carpeta 'data' ---") ;;
  env (time_sleep 5) ;;
  upload_initial_data uploads_bucket "data" ;;
  Ret (api_url, web_url, table_arn, sns_topic_arn).

(** The body of [if __name__ == "__main__"], inside
    [with shelve.open(DB_PATH, writeback=True) as db]. *)
Definition main : prog unit :=
  (* 1. GESTIÓN DE ESTADO (SHELVE) *)
  suffix <- resolve_suffix ;;
  let uploads_bucket := uploads_bucket_name suffix in
  let web_bucket := web_bucket_name suffix in
  let sns_topic_name := sns_topic_name_of suffix in
  db_setitem "uploads-bucket" (VStr uploads_bucket) ;;
  db_setitem "web-bucket" (VStr web_bucket) ;;
  ids <- provision uploads_bucket web_bucket sns_topic_name ;;
  let '(api_url, web_url, table_arn, sns_topic_arn) := ids in
  (* 7. Guardar resultados finales *)
  db_setitem "api-url" (VStr api_url) ;;
  db_setitem "web-url" web_url ;;
  db_setitem "table-arn" (VStr table_arn) ;;
  db_setitem "sns-arn" (VStr sns_topic_arn) ;;
  print (nl +:+ "=== DESPLIEGUE FINALIZADO ===") ;;
  print ("Bucket CSV      : s3://" +:+ uploads_bucket) ;;
  print ("API Endpoint    : " +:+ api_url) ;;
  print ("Web Dashboard   : " +:+ str web_url).

End config.
End deploy_script.

(** ** teardown.py *)

Module teardown.

(* Nombres de recursos (Deben coincidir con deploy_script.py) *)
Definition LOADER_FUNC := "LoadInventoryFunction".
Definition API_FUNC := "GetInventoryApiFunction".
Definition NOTIFY_FUNC := "NotifyLowStockFunction".
Definition TABLE_NAME := "Inventory".

(** [objects_to_delete] of a page of [list_object_versions]: the versions,
    then the delete markers. *)
Definition version_refs (page : versions_page) : list object_ref :=
  ((λ v, VersionRef (Key v) (VersionId v)) <$> Versions page)
  ++ ((λ m, VersionRef (Key m) (VersionId m)) <$> DeleteMarkers page).

(** [[{"Key": o["Key"]} for o in page.get("Contents", [])]] *)
Definition content_refs (page : objects_page) : list object_ref :=
  KeyRef <$> Contents page.

(** The slices [objects_to_delete[i:i+1000]] for
    [i in range(0, len(objects_to_delete), 1000)]. *)
Definition batches (objects_to_delete : list object_ref)
    : list (list object_ref) :=
  (λ i, slice objects_to_delete i (i + 1000))
    <$> range 0 (length objects_to_delete) 1000.

(** [if objects_to_delete:] followed by the loop that deletes the batches
    (Borrar en lotes de 1000). *)
Definition delete_in_batches (region bucket : string)
    (objects_to_delete : list object_ref) : prog unit :=
  match objects_to_delete with
  | [] => Ret tt
  | _ :: _ =>
      for_each (batches objects_to_delete)
        (λ batch, call (s3_delete_objects region bucket batch true))
  end.

(** [empty_bucket(bucket, region)]; every caller passes the region. *)
Definition empty_bucket (bucket : pyval) (region : string) : prog unit :=
  if negb (truthy bucket) then Ret tt
  else
    let bucket := str bucket in
    print ("[S3] Vaciando bucket: " +:+ bucket +:+ "...") ;;
    try_except
      ((* 1. Versiones y DeleteMarkers *)
       versions <- call (s3_list_object_versions region bucket) ;;
       for_pages versions
         (λ page, delete_in_batches region bucket (version_refs page)) S3 ;;
       (* 2. Objetos normales (si no hay versiones) *)
       objects <- call (s3_list_objects_v2 region bucket) ;;
       for_pages objects
         (λ page, delete_in_batches region bucket (content_refs page)) S3)
      (λ e, match e with
            | ClientError _ code =>
                if String.eqb code "NoSuchBucket"
                then print ("[S3] El bucket " +:+ bucket +:+ " ya no existe.")
                else print ("[ERROR] Falló vaciado de " +:+ bucket +:+ ": "
                            +:+ exn_str e)
            | _ => Raise e
            end).

(** [region = "us-east-1" if loc in (None, "", "US") else loc] *)
Definition region_of_location (loc : option string) : string :=
  match loc with
  | None => "us-east-1"
  | Some l =>
      if String.eqb l "" || String.eqb l "US" then "us-east-1" else l
  end.

Definition delete_bucket (bucket_name : pyval) : prog unit :=
  if negb (truthy bucket_name) then Ret tt
  else
    let name := str bucket_name in
    try_except
      (loc <- call (s3_get_bucket_location name) ;;
       let region := region_of_location loc in
       empty_bucket bucket_name region ;;
       call (s3_delete_bucket region name) ;;
       print ("[S3] Bucket eliminado: " +:+ name))
      (λ e, match e with
            | ClientError _ code =>
                if negb (String.eqb code "NoSuchBucket")
                then print ("[ERROR] No se pudo borrar bucket " +:+ name
                            +:+ ": " +:+ exn_str e)
                else Ret tt
            | _ => Raise e
            end).

Definition delete_lambda (func_name : string) : prog unit :=
  try_except
    (call (lambda_delete_function func_name) ;;
     print ("[Lambda] Función eliminada: " +:+ func_name))
    (λ e, match e with
          | ClientError _ code =>
              if negb (String.eqb code "ResourceNotFoundException")
              then print ("[Lambda] Error eliminando " +:+ func_name +:+ ": "
                          +:+ exn_str e)
              else Ret tt
          | _ => Raise e
          end).

Definition delete_dynamo_table (table_name : string) : prog unit :=
  try_except
    (call (ddb_delete_table table_name) ;;
     print ("[DDB] Tabla eliminada: " +:+ table_name) ;;
     (* Opcional: Esperar a que se borre *)
     call (ddb_wait_table_not_exists table_name))
    (λ e, match e with
          | ClientError _ code =>
              if negb (String.eqb code "ResourceNotFoundException")
              then print ("[DDB] Error eliminando tabla " +:+ table_name
                          +:+ ": " +:+ exn_str e)
              else Ret tt
          | _ => Raise e
          end).

Definition delete_api_gateway (api_url : pyval) : prog unit :=
  if negb (truthy api_url) then Ret tt
  else
    let url := str api_url in
    try_except
      ((* Extraer API ID de la URL: https://{api_id}.execute-api... *)
       rest <- index (split url "https://") 1 ;;
       api_id <- index (split rest ".") 0 ;;
       call (apigw_delete_api api_id) ;;
       print ("[API GW] API eliminada (ID: " +:+ api_id +:+ ")"))
      (λ e, match e with
            | IndexError | ClientError _ _ =>
                print ("[API GW] No se pudo eliminar API desde URL " +:+ url
                       +:+ ": " +:+ exn_str e)
            | _ => Raise e
            end).

Definition delete_sns_topic (topic_arn : pyval) : prog unit :=
  if negb (truthy topic_arn) then Ret tt
  else
    let arn := str topic_arn in
    try_except
      (call (sns_delete_topic arn) ;;
       print ("[SNS] Topic eliminado: " +:+ arn))
      (λ e, match e with
            | ClientError _ _ =>
                print ("[SNS] Error eliminando topic: " +:+ exn_str e)
            | _ => Raise e
            end).

(** Borra los Event Source Mappings (ej: DynamoDB Streams) *)
Definition delete_triggers (func_name : string) : prog unit :=
  try_except
    (mappings <- call (lambda_list_event_source_mappings func_name) ;;
     for_each mappings
       (λ m, call (lambda_delete_event_source_mapping (UUID m)) ;;
             print ("[Lambda] Trigger eliminado para " +:+ func_name
                    +:+ " (UUID: " +:+ UUID m +:+ ")")))
    (λ e, match e with
          | ClientError _ _ => Ret tt
          | _ => Raise e
          end).

(** Steps 2 to 6 of [__main__]: the deletions, on what step 1 read from the
    shelve. *)
Definition deletions (uploads_bucket web_bucket api_url sns_arn : pyval)
    : prog unit :=
  (* 2. Borrar API Gateway (Lo primero para cortar tráfico) *)
  delete_api_gateway api_url ;;
  (* 3. Borrar Triggers y Lambdas *)
  for_each [LOADER_FUNC; API_FUNC; NOTIFY_FUNC]
    (λ func, delete_triggers func ;; delete_lambda func) ;;
  (* 4. Borrar DynamoDB *)
  delete_dynamo_table TABLE_NAME ;;
  (* 5. Borrar SNS *)
  delete_sns_topic sns_arn ;;
  (* 6. Borrar S3 Buckets *)
  delete_bucket uploads_bucket ;;
  delete_bucket web_bucket ;;
  print (nl +:+ "=== TEARDOWN COMPLETO ===").

(** The body of [if __name__ == "__main__"]; step 1 runs inside
    [with shelve.open(DB_PATH) as db]. *)
Definition main : prog unit :=
  print "=== INICIANDO TEARDOWN (Borrado de recursos) ===" ;;
  (* 1. Leer recursos del archivo local *)
  uploads_bucket <- db_get "uploads-bucket" ;;
  web_bucket <- db_get "web-bucket" ;;
  api_url <- db_get "api-url" ;;
  sns_arn <- db_get "sns-arn" ;;
  (* Limpiamos la DB para que el próximo deploy sea limpio *)
  db_clear ;;
  print "[Config] Base de datos local eliminada." ;;
  deletions uploads_bucket web_bucket api_url sns_arn.

End teardown.

(** ** Concrete environments *)

(** A local machine on which every path exists: the lambda sources, the web
    page and a data folder with one CSV file and one other file. *)
Definition machine (l : local_op) : local_ret l :=
  match l with
  | os_path_isfile _ => true
  | os_path_exists _ => true
  | os_listdir _ => Some ["inventory.csv"; "notes.txt"]
  | file_read _ => Some "const API = 'REPLACE_ME_WITH_YOUR_INVOKE_URL';"
  | time_strftime _ => "20240101"
  | uuid4_hex => "abcd1234deadbeefabcd1234deadbeef"
  | time_sleep _ => tt
  end.

(** The response of a call that succeeds and has nothing to report. *)
Definition empty_response (o : aws_op) : aws_ret o :=
  match o with
  | s3_get_bucket_location _ => None
  | s3_list_object_versions _ _ => Paged [] None
  | s3_list_objects_v2 _ _ => Paged [] None
  | ddb_describe_table n =>
      {| TableArn := "arn:aws:dynamodb:us-east-1:123456789012:table/" +:+ n;
         LatestStreamArn := None |}
  | lambda_list_event_source_mappings _ => []
  | sts_get_caller_identity =>
      {| Account := "123456789012";
         Arn := "arn:aws:sts::123456789012:assumed-role/LabRole/user" |}
  | apigw_get_apis => []
  | apigw_create_api _ _ _ => "a1b2c3d4e5"
  | apigw_create_integration _ _ _ _ => "int001"
  | sns_create_topic n => "arn:aws:sns:us-east-1:123456789012:" +:+ n
  | _ => tt
  end.

(** A stateless provider: [errors o] is the error code it answers [o] with,
    if any. *)
Definition scripted (errors : aws_op → option string) : environment unit :=
  Environment
    (λ o w, (match errors o with
             | Some code => Failure code
             | None => Success (empty_response o)
             end, w))
    (λ l w, (machine l, w)).

(** Nothing exists remotely: deletions and listings answer not found,
    everything else succeeds. *)
Definition nothing_deployed : environment unit :=
  scripted (λ o,
    match o with
    | lambda_list_event_source_mappings _ | lambda_delete_function _
    | lambda_delete_event_source_mapping _ | ddb_delete_table _ =>
        Some "ResourceNotFoundException"
    | apigw_delete_api _ => Some "NotFoundException"
    | sns_delete_topic _ => Some "NotFound"
    | s3_get_bucket_location _ | s3_delete_bucket _ _
    | s3_list_object_versions _ _ | s3_list_objects_v2 _ _ =>
        Some "NoSuchBucket"
    | _ => None
    end).

(** Every call succeeds. *)
Definition permissive : environment unit := scripted (λ _, None).

(** Every call succeeds but the creation of the notification function, which
    the provider refuses. *)
Definition notify_refused : environment unit :=
  scripted (λ o,
    match o with
    | lambda_create_function f _ _ _ _ _ _ _ _ =>
        if String.eqb f "NotifyLowStockFunction"
        then Some "AccessDeniedException" else None
    | _ => None
    end).

(** The provider refuses every deletion. *)
Definition deletions_refused : environment unit :=
  scripted (λ o,
    match o with
    | lambda_delete_function _ | lambda_delete_event_source_mapping _
    | ddb_delete_table _ | apigw_delete_api _ | sns_delete_topic _
    | s3_delete_bucket _ _ | s3_delete_objects _ _ _ _ =>
        Some "AccessDeniedException"
    | _ => None
    end).

(** The table is deleted but does not disappear before the waiter gives
    up. *)
Definition table_lingers : environment unit :=
  scripted (λ o,
    match o with
    | ddb_wait_table_not_exists _ => Some "Max attempts exceeded"
    | _ => None
    end).

(** The record a complete apply run leaves in the shelve. *)
Definition deployed_record : shelf :=
  <["suffix" := VStr "20240101-abcd1234"]>
  (<["uploads-bucket" := VStr "inventory-uploads-20240101-abcd1234"]>
  (<["web-bucket" := VStr "inventory-web-20240101-abcd1234"]>
  (<["api-url" :=
       VStr "https://a1b2c3d4e5.execute-api.us-east-1.amazonaws.com"]>
  (<["web-url" :=
       VStr "http://inventory-web-20240101-abcd1234.s3-website-us-east-1.amazonaws.com/"]>
  (<["table-arn" :=
       VStr "arn:aws:dynamodb:us-east-1:123456789012:table/Inventory"]>
  (<["sns-arn" :=
       VStr "arn:aws:sns:us-east-1:123456789012:NoStock-20240101-abcd1234"]>
   ∅)))))).

(** ** A reference provider

    The remote control plane is not part of the repository.  Where a
    property joins the scripts with how the provider behaves, it is stated
    against this stateful provider. *)

Module Cloud.

(** What exists remotely.  API and integration identifiers are assigned by
    the provider from [issued], the number of identifiers handed out. *)
Record cloud := {
  buckets : list string;
  tables : list string;
  functions : list string;
  permissions : list (string * string);
  mappings : list (string * string);
  apis : list api_item;
  integrations : list (string * string);
  routes : list (string * string);
  stages : list (string * string);
  topics : list string;
  issued : nat
}.

Definition account := "123456789012".

(** [str(n)], most significant digit first; [fuel] bounds the number of
    digits. *)
Fixpoint decimal_from (fuel n : nat) (acc : string) : string :=
  match fuel with
  | O => acc
  | S fuel' =>
      let acc' := String (ascii_of_nat (48 + n mod 10)) acc in
      if Nat.eqb (n / 10) 0 then acc' else decimal_from fuel' (n / 10) acc'
  end.

Definition decimal (n : nat) : string := decimal_from (S n) n "".

Definition fresh_id (prefix : string) (n : nat) : string :=
  prefix +:+ decimal n.

Definition has (x : string) (l : list string) : bool :=
  bool_decide (x ∈ l).
Definition has2 (x : string * string) (l : list (string * string)) : bool :=
  bool_decide (x ∈ l).
Definition without (x : string) (l : list string) : list string :=
  List.filter (λ y, negb (String.eqb x y)) l.

Definition table_arn_of (name : string) : string :=
  "arn:aws:dynamodb:us-east-1:" +:+ account +:+ ":table/" +:+ name.
Definition topic_arn_of (name : string) : string :=
  "arn:aws:sns:us-east-1:" +:+ account +:+ ":" +:+ name.

Definition set_buckets (l : list string) (c : cloud) : cloud :=
  {| buckets := l; tables := tables c; functions := functions c;
     permissions := permissions c; mappings := mappings c; apis := apis c;
     integrations := integrations c; routes := routes c; stages := stages c;
     topics := topics c; issued := issued c |}.
Definition set_tables (l : list string) (c : cloud) : cloud :=
  {| buckets := buckets c; tables := l; functions := functions c;
     permissions := permissions c; mappings := mappings c; apis := apis c;
     integrations := integrations c; routes := routes c; stages := stages c;
     topics := topics c; issued := issued c |}.
Definition set_functions (l : list string) (c : cloud) : cloud :=
  {| buckets := buckets c; tables := tables c; functions := l;
     permissions := permissions c; mappings := mappings c; apis := apis c;
     integrations := integrations c; routes := routes c; stages := stages c;
     topics := topics c; issued := issued c |}.
Definition set_permissions (l : list (string * string)) (c : cloud) : cloud :=
  {| buckets := buckets c; tables := tables c; functions := functions c;
     permissions := l; mappings := mappings c; apis := apis c;
     integrations := integrations c; routes := routes c; stages := stages c;
     topics := topics c; issued := issued c |}.
Definition set_mappings (l : list (string * string)) (c : cloud) : cloud :=
  {| buckets := buckets c; tables := tables c; functions := functions c;
     permissions := permissions c; mappings := l; apis := apis c;
     integrations := integrations c; routes := routes c; stages := stages c;
     topics := topics c; issued := issued c |}.
Definition set_apis (l : list api_item) (c : cloud) : cloud :=
  {| buckets := buckets c; tables := tables c; functions := functions c;
     permissions := permissions c; mappings := mappings c; apis := l;
     integrations := integrations c; routes := routes c; stages := stages c;
     topics := topics c; issued := issued c |}.
Definition set_integrations (l : list (string * string)) (c : cloud)
    : cloud :=
  {| buckets := buckets c; tables := tables c; functions := functions c;
     permissions := permissions c; mappings := mappings c; apis := apis c;
     integrations := l; routes := routes c; stages := stages c;
     topics := topics c; issued := issued c |}.
Definition set_routes (l : list (string * string)) (c : cloud) : cloud :=
  {| buckets := buckets c; tables := tables c; functions := functions c;
     permissions := permissions c; mappings := mappings c; apis := apis c;
     integrations := integrations c; routes := l; stages := stages c;
     topics := topics c; issued := issued c |}.
Definition set_stages (l : list (string * string)) (c : cloud) : cloud :=
  {| buckets := buckets c; tables := tables c; functions := functions c;
     permissions := permissions c; mappings := mappings c; apis := apis c;
     integrations := integrations c; routes := routes c; stages := l;
     topics := topics c; issued := issued c |}.
Definition set_topics (l : list string) (c : cloud) : cloud :=
  {| buckets := buckets c; tables := tables c; functions := functions c;
     permissions := permissions c; mappings := mappings c; apis := apis c;
     integrations := integrations c; routes := routes c; stages := stages c;
     topics := l; issued := issued c |}.
Definition issue (c : cloud) : cloud :=
  {| buckets := buckets c; tables := tables c; functions := functions c;
     permissions := permissions c; mappings := mappings c; apis := apis c;
     integrations := integrations c; routes := routes c; stages := stages c;
     topics := topics c; issued := S (issued c) |}.

(** Modelled from the spec: the provider contracts of its section on
    external interfaces, which are all the repository says of the remote
    side: storage reports existence by name; table creation signals an
    existing table by a conflict and describe returns the table and stream
    references; function creation signals an existing function by a
    conflict; permission grants, routes, stages and event-source mappings
    signal a repeat by a conflict; the gateway has no idempotent create and
    is listed by name, and every integration creation adds an integration;
    topic creation by name is idempotent and returns a stable identifier;
    deletions of absent resources answer not found. *)
Definition answer (o : aws_op) (c : cloud) : reply (aws_ret o) * cloud :=
  match o with
  | s3_head_bucket b =>
      (if has b (buckets c) then Success tt else Failure "404", c)
  | s3_create_bucket b _ =>
      if has b (buckets c) then (Failure "BucketAlreadyOwnedByYou", c)
      else (Success tt, set_buckets (buckets c ++ [b]) c)
  | s3_get_bucket_location b =>
      (if has b (buckets c) then Success None else Failure "NoSuchBucket", c)
  | s3_list_object_versions _ b =>
      (if has b (buckets c) then Success (Paged [] None)
       else Failure "NoSuchBucket", c)
  | s3_list_objects_v2 _ b =>
      (if has b (buckets c) then Success (Paged [] None)
       else Failure "NoSuchBucket", c)
  | s3_delete_bucket _ b =>
      if has b (buckets c)
      then (Success tt, set_buckets (without b (buckets c)) c)
      else (Failure "NoSuchBucket", c)
  | ddb_create_table n _ _ _ _ =>
      if has n (tables c) then (Failure "ResourceInUseException", c)
      else (Success tt, set_tables (tables c ++ [n]) c)
  | ddb_describe_table n =>
      (if has n (tables c)
       then Success {| TableArn := table_arn_of n;
                       LatestStreamArn :=
                         Some (table_arn_of n +:+ "/stream/latest") |}
       else Failure "ResourceNotFoundException", c)
  | ddb_delete_table n =>
      if has n (tables c)
      then (Success tt, set_tables (without n (tables c)) c)
      else (Failure "ResourceNotFoundException", c)
  | lambda_create_function f _ _ _ _ _ _ _ _ =>
      if has f (functions c) then (Failure "ResourceConflictException", c)
      else (Success tt, set_functions (functions c ++ [f]) c)
  | lambda_update_function_code f _ _ =>
      (if has f (functions c) then Success tt
       else Failure "ResourceNotFoundException", c)
  | lambda_update_function_configuration f _ _ =>
      (if has f (functions c) then Success tt
       else Failure "ResourceNotFoundException", c)
  | lambda_delete_function f =>
      if has f (functions c)
      then (Success tt, set_functions (without f (functions c)) c)
      else (Failure "ResourceNotFoundException", c)
  | lambda_add_permission f sid _ _ _ =>
      if has2 (f, sid) (permissions c)
      then (Failure "ResourceConflictException", c)
      else (Success tt, set_permissions (permissions c ++ [(f, sid)]) c)
  | lambda_create_event_source_mapping src f _ _ _ =>
      if has2 (f, src) (mappings c)
      then (Failure "ResourceConflictException", c)
      else (Success tt, set_mappings (mappings c ++ [(f, src)]) c)
  | lambda_list_event_source_mappings f =>
      (Success ((λ m, {| UUID := m.2 |})
                  <$> List.filter (λ m, String.eqb m.1 f) (mappings c)), c)
  | lambda_delete_event_source_mapping uuid =>
      if existsb (λ m, String.eqb m.2 uuid) (mappings c)
      then (Success tt,
            set_mappings
              (List.filter (λ m, negb (String.eqb m.2 uuid)) (mappings c)) c)
      else (Failure "ResourceNotFoundException", c)
  | sts_get_caller_identity =>
      (Success {| Account := account;
                  Arn := "arn:aws:sts::" +:+ account
                         +:+ ":assumed-role/LabRole/user" |}, c)
  | apigw_get_apis => (Success (apis c), c)
  | apigw_create_api name _ _ =>
      let id := fresh_id "api" (issued c) in
      (Success id,
       issue (set_apis (apis c ++ [ {| ApiId := id; Name := name |} ]) c))
  | apigw_create_integration api _ uri _ =>
      let id := fresh_id "int" (issued c) in
      (Success id,
       issue (set_integrations (integrations c ++ [(api, uri)]) c))
  | apigw_create_route api key _ =>
      if has2 (api, key) (routes c) then (Failure "ConflictException", c)
      else (Success tt, set_routes (routes c ++ [(api, key)]) c)
  | apigw_create_stage api stage _ =>
      if has2 (api, stage) (stages c) then (Failure "ConflictException", c)
      else (Success tt, set_stages (stages c ++ [(api, stage)]) c)
  | apigw_delete_api api =>
      if existsb (λ a, String.eqb (ApiId a) api) (apis c)
      then (Success tt,
            set_apis
              (List.filter (λ a, negb (String.eqb (ApiId a) api)) (apis c)) c)
      else (Failure "NotFoundException", c)
  | sns_create_topic n =>
      (Success (topic_arn_of n),
       if has n (topics c) then c else set_topics (topics c ++ [n]) c)
  | sns_delete_topic arn =>
      (Success tt,
       set_topics
         (List.filter (λ n, negb (String.eqb (topic_arn_of n) arn))
            (topics c)) c)
  | o' => (Success (empty_response o'), c)
  end.

Definition provider : environment cloud :=
  Environment answer (λ l c, (machine l, c)).

(** An account in which nothing has been created. *)
Definition pristine : cloud :=
  {| buckets := []; tables := []; functions := []; permissions := [];
     mappings := []; apis := []; integrations := []; routes := [];
     stages := []; topics := []; issued := 0 |}.

(** The account after a complete apply run from [pristine]. *)
Definition deployed : cloud :=
  {| buckets := [ "inventory-uploads-20240101-abcd1234";
                  "inventory-web-20240101-abcd1234" ];
     tables := ["Inventory"];
     functions := [ "LoadInventoryFunction"; "GetInventoryApiFunction";
                    "NotifyLowStockFunction" ];
     permissions :=
       [ ("arn:aws:lambda:us-east-1:123456789012:function:GetInventoryApiFunction",
          "ApiGatewayInvoke-api0");
         ("LoadInventoryFunction",
          "S3Invoke-inventory-uploads-20240101-abcd1234") ];
     mappings :=
       [ ("NotifyLowStockFunction",
          "arn:aws:dynamodb:us-east-1:123456789012:table/Inventory/stream/latest") ];
     apis := [ {| ApiId := "api0"; Name := "InventoryAPI" |} ];
     integrations :=
       [ ("api0",
          "arn:aws:lambda:us-east-1:123456789012:function:GetInventoryApiFunction") ];
     routes := [("api0", "GET /items"); ("api0", "GET /items/{store}")];
     stages := [("api0", "$default")];
     topics := ["NoStock-20240101-abcd1234"];
     issued := 2 |}.

End Cloud.

(** A provider on which everything of the deployment exists already: every
    creation is refused with the conflict code of its service. *)
Definition all_conflicts : environment unit :=
  scripted (λ o,
    match o with
    | ddb_create_table _ _ _ _ _ => Some "ResourceInUseException"
    | lambda_create_function _ _ _ _ _ _ _ _ _
    | lambda_add_permission _ _ _ _ _
    | lambda_create_event_source_mapping _ _ _ _ _ =>
        Some "ResourceConflictException"
    | apigw_create_route _ _ _ | apigw_create_stage _ _ _ =>
        Some "ConflictException"
    | _ => None
    end).

(** A bucket whose version listing has two pages: two versions and a delete
    marker, then one version. *)
Definition versioned_bucket : environment unit :=
  Environment
    (λ o w,
       (match o return reply (aws_ret o) with
        | s3_list_object_versions _ _ =>
            Success
              (Paged
                 [ {| Versions := [ {| Key := "a.csv"; VersionId := "v1" |};
                                    {| Key := "a.csv"; VersionId := "v2" |} ];
                      DeleteMarkers :=
                        [ {| Key := "b.csv"; VersionId := "v3" |} ] |};
                   {| Versions := [ {| Key := "c.csv"; VersionId := "v4" |} ];
                      DeleteMarkers := [] |} ]
                 None)
        | o' => Success (empty_response o')
        end, w))
    (λ l w, (machine l, w)).

(** ** Observations on programs and traces *)

(** A run followed by another one, as [bind] chains them. *)
Definition seq_run {W A B} (r : run W A) (k : A → W → shelf → run W B)
    : run W B :=
  match outcome r with
  | Returned a =>
      let r' := k a (world r) (store r) in
      Run (outcome r') (world r') (store r') (trace r ++ trace r')
  | Raised e => Run (Raised e) (world r) (store r) (trace r)
  end.

(** A run whose exception is handled, as [try_except] does. *)
Definition catch_run {W A} (r : run W A) (h : exn → W → shelf → run W A)
    : run W A :=
  match outcome r with
  | Returned a => r
  | Raised e =>
      let r' := h e (world r) (store r) in
      Run (outcome r') (world r') (store r') (trace r ++ trace r')
  end.

(** Every event the program can emit, whatever the environment answers,
    satisfies [P]. *)
Fixpoint emits_only {A} (P : event → Prop) (p : prog A) : Prop :=
  match p with
  | Ret _ | Raise _ => True
  | Aws o k => (∀ err, P (Called o err)) ∧ ∀ r, emits_only P (k r)
  | Env l k => P (Did l) ∧ ∀ r, emits_only P (k r)
  | Print msg k => P (Printed msg) ∧ emits_only P k
  | DbLookup key k => (∀ v, P (DbRead key v)) ∧ ∀ v, emits_only P (k v)
  | DbSetItem key v k => P (DbWrote key v) ∧ emits_only P k
  | DbClear k => P DbCleared ∧ emits_only P k
  end.

(** The program raises nothing but exceptions satisfying [Q]. *)
Fixpoint raises_only {A} (Q : exn → Prop) (p : prog A) : Prop :=
  match p with
  | Ret _ => True
  | Raise e => Q e
  | Aws o k => ∀ r, raises_only Q (k r)
  | Env l k => ∀ r, raises_only Q (k r)
  | Print msg k => raises_only Q k
  | DbLookup key k => ∀ v, raises_only Q (k v)
  | DbSetItem key v k => raises_only Q k
  | DbClear k => raises_only Q k
  end.

(** Every run of the program emits an event satisfying [P]. *)
Fixpoint must_emit {A} (P : event → Prop) (p : prog A) : Prop :=
  match p with
  | Ret _ | Raise _ => False
  | Aws o k => (∀ err, P (Called o err)) ∨ ∀ r, must_emit P (k r)
  | Env l k => P (Did l) ∨ ∀ r, must_emit P (k r)
  | Print msg k => P (Printed msg) ∨ must_emit P k
  | DbLookup key k => (∀ v, P (DbRead key v)) ∨ ∀ v, must_emit P (k v)
  | DbSetItem key v k => P (DbWrote key v) ∨ must_emit P k
  | DbClear k => P DbCleared ∨ must_emit P k
  end.

(** The program raises no exception. *)
Definition never_raises {A} (p : prog A) : Prop := raises_only (λ _, False) p.

(** The shelve content after the writes of a trace. *)
Fixpoint replay (t : list event) (db : shelf) : shelf :=
  match t with
  | [] => db
  | DbWrote key v :: rest => replay rest (<[key := v]> db)
  | DbCleared :: rest => replay rest ∅
  | _ :: rest => replay rest db
  end.

Definition no_db_write (ev : event) : Prop := is_db_write ev = false.

Definition is_client_error (e : exn) : Prop :=
  match e with
  | ClientError _ _ => True
  | _ => False
  end.

(** The operation of a client call. *)
Definition op_of (ev : event) : option aws_op :=
  match ev with
  | Called o _ => Some o
  | _ => None
  end.

(** The error code of a failed client call. *)
Definition error_of (ev : event) : option string :=
  match ev with
  | Called _ err => err
  | _ => None
  end.

(** The references a batch-delete call carries. *)
Definition refs_of (ev : event) : list object_ref :=
  match ev with
  | Called (s3_delete_objects _ _ objects _) _ => objects
  | _ => []
  end.

(** The references sent for deletion over a trace, in order. *)
Definition sent (t : list event) : list object_ref :=
  concat (refs_of <$> t).

Definition is_failed_delete_objects (ev : event) : bool :=
  match ev with
  | Called (s3_delete_objects _ _ _ _) (Some _) => true
  | _ => false
  end.

Definition is_create_integration (ev : event) : bool :=
  match ev with
  | Called (apigw_create_integration _ _ _ _) _ => true
  | _ => false
  end.

Definition is_update_configuration (ev : event) : bool :=
  match ev with
  | Called (lambda_update_function_configuration _ _ _) _ => true
  | _ => false
  end.

(** The calls teardown addresses by the fixed resource names of the script
    rather than by what the shelve holds: triggers and functions of the
    three function names, and the table. *)
Definition is_fixed_name_call (ev : event) : bool :=
  match ev with
  | Called (lambda_list_event_source_mappings f) _
  | Called (lambda_delete_function f) _ =>
      bool_decide (f ∈ [teardown.LOADER_FUNC; teardown.API_FUNC;
                        teardown.NOTIFY_FUNC])
  | Called (lambda_delete_event_source_mapping _) _ => true
  | Called (ddb_delete_table n) _
  | Called (ddb_wait_table_not_exists n) _ =>
      bool_decide (n = teardown.TABLE_NAME)
  | _ => false
  end.

(** The calls on the kinds whose identifiers teardown reads from the
    shelve: gateway, topic and storage. *)
Definition is_stored_kind_call (ev : event) : bool :=
  match ev with
  | Called (apigw_delete_api _) _ | Called (sns_delete_topic _) _ => true
  | Called o _ => bool_decide (service_of o = S3)
  | _ => false
  end.

(** The keys under which an apply run stores what its steps returned. *)
Definition result_keys : list string :=
  ["api-url"; "web-url"; "table-arn"; "sns-arn"].

Definition is_result_write (ev : event) : bool :=
  match ev with
  | DbWrote key _ => bool_decide (key ∈ result_keys)
  | _ => false
  end.

(** Generation of a new run suffix: the clock and random reads of
    [unique_suffix] and the write of the ["suffix"] key. *)
Definition is_suffix_generation (ev : event) : bool :=
  match ev with
  | Did (time_strftime _) | Did uuid4_hex => true
  | DbWrote key _ => String.eqb key "suffix"
  | _ => false
  end.

(** What a teardown run does before its first deletion: the four reads of
    the shelve, then the clearing of the shelve. *)
Definition teardown_prefix (db : shelf) : list event :=
  [ Printed "=== INICIANDO TEARDOWN (Borrado de recursos) ===";
    DbRead "uploads-bucket" (db !! "uploads-bucket");
    DbRead "web-bucket" (db !! "web-bucket");
    DbRead "api-url" (db !! "api-url");
    DbRead "sns-arn" (db !! "sns-arn");
    DbCleared;
    Printed "[Config] Base de datos local eliminada." ].

Definition no_db_event (ev : event) : Prop :=
  match ev with
  | DbRead _ _ | DbWrote _ _ | DbCleared => False
  | _ => True
  end.

(** The invoke URL of an HTTP API. *)
Definition api_endpoint (region api_id : string) : string :=
  "https://" +:+ api_id +:+ ".execute-api." +:+ region +:+ ".amazonaws.com".

Definition is_create_api (ev : event) : bool :=
  match ev with
  | Called (apigw_create_api _ _ _) _ => true
  | _ => false
  end.

(** What the provisioning steps of an apply run may emit: provider calls,
    prints and local reads other than those of suffix generation; no access
    to the shelve. *)
Definition is_provisioning_event (ev : event) : bool :=
  match ev with
  | Called _ _ | Printed _ => true
  | Did (time_strftime _) | Did uuid4_hex => false
  | Did _ => true
  | _ => false
  end.

(** What an apply run writes and prints once its last step has returned. *)
Definition deploy_tail (uploads_bucket api_url : string) (web_url : pyval)
    (table_arn sns_topic_arn : string) : list event :=
  [ DbWrote "api-url" (VStr api_url);
    DbWrote "web-url" web_url;
    DbWrote "table-arn" (VStr table_arn);
    DbWrote "sns-arn" (VStr sns_topic_arn);
    Printed (nl +:+ "=== DESPLIEGUE FINALIZADO ===");
    Printed ("Bucket CSV      : s3://" +:+ uploads_bucket);
    Printed ("API Endpoint    : " +:+ api_url);
    Printed ("Web Dashboard   : " +:+ str web_url) ].

(** A second run of a program, started from the remote state and the shelve
    its first run left. *)
Definition again {W A} (E : environment W) (p : prog A) (r1 : run W A)
    : run W A :=
  interp E p (world r1) (store r1).

(** ** Further observations *)

(** [c not in s] *)
Fixpoint lacks (c : ascii) (s : string) : Prop :=
  match s with
  | EmptyString => True
  | String d rest => d ≠ c ∧ lacks c rest
  end.

(** [filename.lower().endswith(".csv")] *)
Definition is_csv (filename : string) : bool :=
  endswith (lower filename) ".csv".

(** The trigger deletions of a trace, in order: the mapping and the error
    code of each. *)
Definition trigger_deletions (t : list event)
    : list (string * option string) :=
  omap (λ ev, match ev with
              | Called (lambda_delete_event_source_mapping uuid) err =>
                  Some (uuid, err)
              | _ => None
              end) t.

(** The region of the client a storage call of teardown goes through, for
    the calls made through a client of the bucket's own region. *)
Definition client_region (ev : event) : option string :=
  match ev with
  | Called (s3_list_object_versions region _) _
  | Called (s3_list_objects_v2 region _) _
  | Called (s3_delete_objects region _ _ _) _
  | Called (s3_delete_bucket region _) _ => Some region
  | _ => None
  end.

(** The place of a client call in the deletion order of teardown: gateway,
    functions and their triggers, table, topic, storage. *)
Definition teardown_phase (ev : event) : nat :=
  match ev with
  | Called o _ =>
      match service_of o with
      | ApiGatewayV2 | STS => 0
      | Lambda => 1
      | DynamoDB => 2
      | SNS => 3
      | S3 => 4
      end
  | _ => 0
  end.

(** The numbers of a list rise from [n] on. *)
Fixpoint rising (n : nat) (l : list nat) : Prop :=
  match l with
  | [] => True
  | x :: rest => (n ≤ x)%nat ∧ rising x rest
  end.

Definition is_upload (ev : event) : bool :=
  match ev with
  | Called (s3_upload_file _ _ _) _ => true
  | _ => false
  end.

(** The events that remove something: the deletion calls and the clearing
    of the shelve. *)
Definition is_removal (ev : event) : bool :=
  match ev with
  | Called (s3_delete_objects _ _ _ _) _ | Called (s3_delete_bucket _ _) _
  | Called (ddb_delete_table _) _
  | Called (lambda_delete_event_source_mapping _) _
  | Called (lambda_delete_function _) _
  | Called (apigw_delete_api _) _ | Called (sns_delete_topic _) _
  | DbCleared => true
  | _ => false
  end.

(** The calls that only read the remote state: lookups, listings and the
    wait for a table to disappear. *)
Definition is_lookup (ev : event) : bool :=
  match ev with
  | Called (s3_get_bucket_location _) _
  | Called (s3_list_object_versions _ _) _
  | Called (s3_list_objects_v2 _ _) _
  | Called (lambda_list_event_source_mappings _) _
  | Called (ddb_wait_table_not_exists _) _ => true
  | _ => false
  end.

(** The function or table a creation call names. *)
Definition created_name (ev : event) : option string :=
  match ev with
  | Called (lambda_create_function f _ _ _ _ _ _ _ _) _ => Some f
  | Called (ddb_create_table n _ _ _ _) _ => Some n
  | _ => None
  end.

(** The function or table a deletion call names. *)
Definition deleted_name (ev : event) : option string :=
  match ev with
  | Called (lambda_delete_function f) _ => Some f
  | Called (ddb_delete_table n) _ => Some n
  | _ => None
  end.

(** [sep in s] *)
Fixpoint occurs (sep s : string) : bool :=
  match s with
  | EmptyString => String.prefix sep ""
  | String _ rest => String.prefix sep s || occurs sep rest
  end.

(** A function has two triggers, and the provider refuses to delete
    triggers; every other call succeeds. *)
Definition triggers_refused : environment unit :=
  Environment
    (λ o w,
       (match o return reply (aws_ret o) with
        | lambda_list_event_source_mappings _ =>
            Success [ {| UUID := "0a1b2c3d-1111-4aaa-8bbb-000000000001" |};
                      {| UUID := "0a1b2c3d-2222-4aaa-8bbb-000000000002" |} ]
        | lambda_delete_event_source_mapping _ =>
            Failure "AccessDeniedException"
        | o => Success (empty_response o)
        end, w))
    (λ l w, (machine l, w)).

(** A bucket of another region whose object versions the provider refuses
    to list; every other call succeeds. *)
Definition emptying_refused : environment unit :=
  Environment
    (λ o w,
       (match o return reply (aws_ret o) with
        | s3_get_bucket_location _ => Success (Some "eu-west-1")
        | s3_list_object_versions _ _ => Failure "AccessDenied"
        | o => Success (empty_response o)
        end, w))
    (λ l w, (machine l, w)).

(** ** Runs of composed programs *)

Lemma replay_no_write (t : list event) (db : shelf) :
  Forall no_db_write t → replay t db = db.
Proof.
  intros H. revert db. induction H as [|ev t Hev _ IH]; intros db; [done|].
  destruct ev; simpl; try apply IH; discriminate Hev.
Qed.

Lemma replay_app (t1 t2 : list event) (db : shelf) :
  replay (t1 ++ t2) db = replay t2 (replay t1 db).
Proof.
  revert db. induction t1 as [|ev t1 IH]; intros db; [done|].
  destruct ev; simpl; apply IH.
Qed.

Section runs.
Context {W : Type} (E : environment W).

Lemma interp_bind {A B} (p : prog A) (f : A → prog B) w db :
  interp E (bind p f) w db
  = seq_run (interp E p w db) (λ a w' db', interp E (f a) w' db').
Proof.
  revert w db.
  induction p as [a|e|o k IH|l k IH|msg k IH|key k IH|key v k IH|k IH];
    intros w db; simpl; try rewrite IH; unfold seq_run, emit; simpl;
    try (destruct (interp E _ _ _) as [[?|?] ? ? ?]; reflexivity).
  reflexivity.
Qed.

Lemma interp_try_except {A} (p : prog A) (h : exn → prog A) w db :
  interp E (try_except p h) w db
  = catch_run (interp E p w db) (λ e w' db', interp E (h e) w' db').
Proof.
  revert w db.
  induction p as [a|e|o k IH|l k IH|msg k IH|key k IH|key v k IH|k IH];
    intros w db; simpl; try rewrite IH; unfold catch_run, emit; simpl;
    try (destruct (interp E _ _ _) as [[?|?] ? ? ?]; reflexivity).
  reflexivity.
Qed.

Lemma emits_only_sound {A} (P : event → Prop) (p : prog A) w db :
  emits_only P p → Forall P (trace (interp E p w db)).
Proof.
  revert w db.
  induction p as [a|e|o k IH|l k IH|msg k IH|key k IH|key v k IH|k IH];
    intros w db HP; simpl in HP |- *; [constructor | constructor | ..];
    destruct HP as [H1 H2]; constructor; auto.
Qed.

Lemma raises_only_sound {A} (Q : exn → Prop) (p : prog A) w db e :
  raises_only Q p → outcome (interp E p w db) = Raised e → Q e.
Proof.
  revert w db.
  induction p as [a|e'|o k IH|l k IH|msg k IH|key k IH|key v k IH|k IH];
    intros w db HQ; simpl in HQ |- *; try discriminate; eauto.
  intros [= ->]. exact HQ.
Qed.

Lemma store_replay {A} (p : prog A) w db :
  store (interp E p w db) = replay (trace (interp E p w db)) db.
Proof.
  revert w db.
  induction p as [a|e|o k IH|l k IH|msg k IH|key k IH|key v k IH|k IH];
    intros w db; simpl; auto.
Qed.

Lemma trace_foldr_emit {A} (t : list event) (r : run W A) :
  trace (foldr emit r t) = (t ++ trace r)%list.
Proof. induction t as [|ev t IH]; simpl; [done|]. by rewrite IH. Qed.

Lemma store_foldr_emit {A} (t : list event) (r : run W A) :
  store (foldr emit r t) = store r.
Proof. induction t as [|ev t IH]; simpl; done. Qed.

Lemma outcome_foldr_emit {A} (t : list event) (r : run W A) :
  outcome (foldr emit r t) = outcome r.
Proof. induction t as [|ev t IH]; simpl; done. Qed.

(** A program that writes nothing leaves the shelve as it found it. *)
Lemma store_unchanged {A} (p : prog A) w db :
  emits_only no_db_write p → store (interp E p w db) = db.
Proof.
  intros Hp. rewrite store_replay. apply replay_no_write.
  apply emits_only_sound, Hp.
Qed.

End runs.



(** ** What a program can emit and raise *)

Lemma emits_only_bind {A B} (P : event → Prop) (p : prog A)
    (f : A → prog B) :
  emits_only P p → (∀ a, emits_only P (f a)) → emits_only P (bind p f).
Proof.
  intros Hp Hf.
  induction p as [a|e|o k IH|l k IH|msg k IH|key k IH|key v k IH|k IH];
    simpl in Hp |- *; auto; destruct Hp as [H1 H2]; split; auto.
Qed.

Lemma emits_only_try_except {A} (P : event → Prop) (p : prog A)
    (h : exn → prog A) :
  emits_only P p → (∀ e, emits_only P (h e)) →
  emits_only P (try_except p h).
Proof.
  intros Hp Hh.
  induction p as [a|e|o k IH|l k IH|msg k IH|key k IH|key v k IH|k IH];
    simpl in Hp |- *; auto; destruct Hp as [H1 H2]; split; auto.
Qed.

Lemma emits_only_for_each {X} (P : event → Prop) (l : list X)
    (body : X → prog unit) :
  (∀ x, emits_only P (body x)) → emits_only P (for_each l body).
Proof.
  intros Hb. induction l as [|x l IH]; simpl; [done|].
  apply emits_only_bind; auto.
Qed.

Lemma raises_only_mono {A} (Q Q' : exn → Prop) (p : prog A) :
  (∀ e, Q e → Q' e) → raises_only Q p → raises_only Q' p.
Proof.
  intros HQ.
  induction p as [a|e|o k IH|l k IH|msg k IH|key k IH|key v k IH|k IH];
    simpl; auto.
Qed.

Lemma raises_only_bind {A B} (Q : exn → Prop) (p : prog A)
    (f : A → prog B) :
  raises_only Q p → (∀ a, raises_only Q (f a)) → raises_only Q (bind p f).
Proof.
  intros Hp Hf.
  induction p as [a|e|o k IH|l k IH|msg k IH|key k IH|key v k IH|k IH];
    simpl in Hp |- *; auto.
Qed.

Lemma raises_only_try_except {A} (Q' Q : exn → Prop) (p : prog A)
    (h : exn → prog A) :
  raises_only Q' p → (∀ e, Q' e → raises_only Q (h e)) →
  raises_only Q (try_except p h).
Proof.
  intros Hp Hh.
  induction p as [a|e|o k IH|l k IH|msg k IH|key k IH|key v k IH|k IH];
    simpl in Hp |- *; auto.
Qed.

Lemma raises_only_for_each {X} (Q : exn → Prop) (l : list X)
    (body : X → prog unit) :
  (∀ x, raises_only Q (body x)) → raises_only Q (for_each l body).
Proof.
  intros Hb. induction l as [|x l IH]; simpl; [done|].
  apply raises_only_bind; auto.
Qed.

(** A program that raises nothing returns. *)
Lemma never_raises_returns {W A} (E : environment W) (p : prog A) w db :
  never_raises p → ∃ a, outcome (interp E p w db) = Returned a.
Proof.
  intros Hp. destruct (outcome (interp E p w db)) as [a|e] eqn:Ho; [eauto|].
  destruct (raises_only_sound E _ p w db e Hp Ho).
Qed.

Ltac emits_step :=
  match goal with
  | |- emits_only _ (bind _ _) => apply emits_only_bind
  | |- emits_only _ (try_except _ _) => apply emits_only_try_except
  | |- emits_only _ (for_each _ _) => apply emits_only_for_each
  | |- emits_only _ (if ?b then _ else _) => destruct b
  | |- emits_only _ (match ?x with _ => _ end) => destruct x
  | |- emits_only _ _ => progress simpl
  | |- _ ∧ _ => split
  | |- ∀ _, _ => intro
  | |- True => exact I
  end.
Ltac emits := repeat emits_step; try reflexivity.

Lemma must_emit_sound {W A} (E : environment W) (P : event → Prop)
    (p : prog A) w db :
  must_emit P p → Exists P (trace (interp E p w db)).
Proof.
  revert w db.
  induction p as [a|e|o k IH|l k IH|msg k IH|key k IH|key v k IH|k IH];
    intros w db HP; simpl in HP |- *; try contradiction;
    (destruct HP as [H|H];
     [apply Exists_cons_hd; auto | apply Exists_cons_tl; auto]).
Qed.

Lemma must_emit_bind_l {A B} (P : event → Prop) (p : prog A)
    (f : A → prog B) :
  must_emit P p → must_emit P (bind p f).
Proof.
  induction p as [a|e|o k IH|l k IH|msg k IH|key k IH|key v k IH|k IH];
    simpl; try contradiction; intros [H|H]; auto.
Qed.

Lemma must_emit_bind_r {A B} (P : event → Prop) (p : prog A)
    (f : A → prog B) :
  never_raises p → (∀ a, must_emit P (f a)) → must_emit P (bind p f).
Proof.
  unfold never_raises.
  induction p as [a|e|o k IH|l k IH|msg k IH|key k IH|key v k IH|k IH];
    simpl; try contradiction; auto.
Qed.

Lemma must_emit_try_except {A} (P : event → Prop) (p : prog A)
    (h : exn → prog A) :
  must_emit P p → must_emit P (try_except p h).
Proof.
  induction p as [a|e|o k IH|l k IH|msg k IH|key k IH|key v k IH|k IH];
    simpl; try contradiction; intros [H|H]; auto.
Qed.

Ltac raises_step :=
  match goal with
  | |- never_raises _ => unfold never_raises
  | |- raises_only _ (bind _ _) => apply raises_only_bind
  | |- raises_only _ (for_each _ _) => apply raises_only_for_each
  | |- raises_only _ (if ?b then _ else _) => destruct b
  | |- raises_only _ (match ?x with _ => _ end) => destruct x
  | |- raises_only _ _ => progress simpl
  | |- ∀ _, _ => intro
  | |- True => exact I
  end.
Ltac raises := repeat raises_step; auto.

(** ** teardown.py: which deletions can raise *)

(** The exceptions here are those of the model: the steps catch what the
    provider answers.  These lemmas serve the statements about runs that
    return and about the calls issued. *)

Section teardown_raises.
Import teardown.

Lemma delete_triggers_never_raises f : never_raises (delete_triggers f).
Proof.
  unfold delete_triggers.
  apply (raises_only_try_except is_client_error); [raises|].
  intros [] He; try contradiction. exact I.
Qed.

Lemma delete_lambda_never_raises f : never_raises (delete_lambda f).
Proof.
  unfold delete_lambda.
  apply (raises_only_try_except is_client_error); [raises|].
  intros [] He; try contradiction. raises.
Qed.

Lemma delete_sns_topic_never_raises a : never_raises (delete_sns_topic a).
Proof.
  unfold delete_sns_topic. destruct (negb (truthy a)); [exact I|].
  apply (raises_only_try_except is_client_error); [raises|].
  intros [] He; try contradiction. raises.
Qed.

Lemma delete_api_gateway_never_raises a : never_raises (delete_api_gateway a).
Proof.
  unfold delete_api_gateway. destruct (negb (truthy a)); [exact I|].
  apply (raises_only_try_except (λ e, is_client_error e ∨ e = IndexError)).
  - unfold index. raises.
  - intros [] [He|He]; try contradiction; try discriminate; raises.
Qed.

Lemma delete_in_batches_raises region bucket l :
  raises_only is_client_error (delete_in_batches region bucket l).
Proof. unfold delete_in_batches. raises. Qed.

Lemma empty_bucket_never_raises b region :
  never_raises (empty_bucket b region).
Proof.
  unfold empty_bucket. destruct (negb (truthy b)); [exact I|].
  apply raises_only_bind; [raises|]. intros _.
  apply (raises_only_try_except is_client_error).
  - unfold for_pages. raises; apply delete_in_batches_raises.
  - intros [] He; try contradiction. raises.
Qed.

Lemma delete_bucket_never_raises b : never_raises (delete_bucket b).
Proof.
  unfold delete_bucket. destruct (negb (truthy b)); [exact I|].
  apply (raises_only_try_except is_client_error).
  - apply raises_only_bind; [raises|]. intros loc.
    apply raises_only_bind.
    + eapply raises_only_mono; [|apply empty_bucket_never_raises]. done.
    + raises.
  - intros [] He; try contradiction. raises.
Qed.

Lemma delete_dynamo_table_raises n :
  raises_only (λ e, e = WaiterError "table_not_exists")
    (delete_dynamo_table n).
Proof.
  unfold delete_dynamo_table.
  apply (raises_only_try_except
           (λ e, is_client_error e ∨ e = WaiterError "table_not_exists")).
  - raises.
  - intros [] [He|He]; try contradiction; try discriminate; raises.
Qed.

End teardown_raises.

(** ** teardown.py: the run *)

Section teardown_run.
Import teardown.
Context {W : Type} (E : environment W).

(** A teardown run is its seven opening events followed by the deletions,
    which start from the emptied shelve. *)
Lemma teardown_main_run (w : W) (db : shelf) :
  interp E main w db
  = foldr emit
      (interp E (deletions (default VNone (db !! "uploads-bucket"))
                           (default VNone (db !! "web-bucket"))
                           (default VNone (db !! "api-url"))
                           (default VNone (db !! "sns-arn"))) w ∅)
      (teardown_prefix db).
Proof.
  cbv [main bind print db_get db_clear interp emit foldr teardown_prefix
       outcome world store trace].
  reflexivity.
Qed.

Lemma delete_in_batches_emits (P : event → Prop) region bucket l :
  (∀ o err, P (Called o err)) →
  emits_only P (delete_in_batches region bucket l).
Proof. intros HP. unfold delete_in_batches. emits; apply HP. Qed.

Lemma deletions_no_db_event u wb a s :
  emits_only no_db_event (deletions u wb a s).
Proof.
  unfold deletions, delete_api_gateway, delete_triggers, delete_lambda,
    delete_dynamo_table, delete_sns_topic, delete_bucket, empty_bucket,
    for_pages, index, call, print.
  emits; try exact I; apply delete_in_batches_emits; done.
Qed.

Lemma no_db_event_no_write t : Forall no_db_event t → Forall no_db_write t.
Proof. intros H; eapply Forall_impl; [exact H|]. intros []; simpl; done. Qed.

(** With nothing read from the shelve, the deletions call the provider only
    on the fixed function and table names. *)
Lemma deletions_of_nothing_emits :
  emits_only
    (λ ev, is_stored_kind_call ev = false
           ∧ (is_call ev = true → is_fixed_name_call ev = true))
    (deletions VNone VNone VNone VNone).
Proof.
  unfold deletions, delete_api_gateway, delete_triggers, delete_lambda,
    delete_dynamo_table, delete_sns_topic, delete_bucket, call, print.
  cbn [for_each truthy negb]. emits; try discriminate.
Qed.

Lemma function_step_never_raises f :
  never_raises (delete_triggers f ;; delete_lambda f).
Proof.
  apply raises_only_bind; [apply delete_triggers_never_raises|].
  intros _. apply delete_lambda_never_raises.
Qed.

(** Whatever the shelve held and whatever the provider answers, the deletion
    of each of the three functions is attempted. *)
Lemma deletions_attempt_functions u wb a s f :
  f ∈ [LOADER_FUNC; API_FUNC; NOTIFY_FUNC] →
  must_emit (λ ev, op_of ev = Some (lambda_delete_function f))
    (deletions u wb a s).
Proof.
  intros Hf. unfold deletions.
  apply must_emit_bind_r; [apply delete_api_gateway_never_raises|].
  intros _. apply must_emit_bind_l. cbn [for_each].
  assert (Hhere : ∀ g,
    must_emit (λ ev, op_of ev = Some (lambda_delete_function g))
      (delete_triggers g ;; delete_lambda g)).
  { intros g. apply must_emit_bind_r; [apply delete_triggers_never_raises|].
    intros _. unfold delete_lambda. apply must_emit_try_except.
    simpl. left. reflexivity. }
  apply elem_of_cons in Hf as [->|Hf]; [apply must_emit_bind_l, Hhere|].
  apply must_emit_bind_r; [apply function_step_never_raises|]. intros _.
  apply elem_of_cons in Hf as [->|Hf]; [apply must_emit_bind_l, Hhere|].
  apply must_emit_bind_r; [apply function_step_never_raises|]. intros _.
  apply elem_of_cons in Hf as [->|Hf]; [apply must_emit_bind_l, Hhere|].
  by apply elem_of_nil in Hf.
Qed.

(** So is the deletion of the table. *)
Lemma deletions_attempt_table u wb a s :
  must_emit (λ ev, op_of ev = Some (ddb_delete_table TABLE_NAME))
    (deletions u wb a s).
Proof.
  unfold deletions.
  apply must_emit_bind_r; [apply delete_api_gateway_never_raises|].
  intros _. apply must_emit_bind_r.
  { apply raises_only_for_each. intros f. apply function_step_never_raises. }
  intros _. apply must_emit_bind_l. unfold delete_dynamo_table.
  apply must_emit_try_except. simpl. left. reflexivity.
Qed.

(** With nothing read from the shelve, the first call of the deletions is
    the listing of the triggers of the loader. *)
Lemma deletions_of_nothing_first_call (w : W) (db : shelf) :
  ∃ err rest,
    trace (interp E (deletions VNone VNone VNone VNone) w db)
    = Called (lambda_list_event_source_mappings LOADER_FUNC) err :: rest.
Proof.
  unfold deletions, delete_api_gateway, delete_triggers.
  cbn [truthy negb for_each]. simpl. eauto.
Qed.

(** The triggers of each of the three functions are listed, when the calls
    before are answered. *)
Lemma deletions_list_triggers u wb a s f :
  f ∈ [LOADER_FUNC; API_FUNC; NOTIFY_FUNC] →
  must_emit (λ ev, op_of ev = Some (lambda_list_event_source_mappings f))
    (deletions u wb a s).
Proof.
  intros Hf. unfold deletions.
  apply must_emit_bind_r; [apply delete_api_gateway_never_raises|].
  intros _. apply must_emit_bind_l. cbn [for_each].
  assert (Hhere : ∀ g,
    must_emit (λ ev, op_of ev = Some (lambda_list_event_source_mappings g))
      (delete_triggers g ;; delete_lambda g)).
  { intros g. apply must_emit_bind_l. unfold delete_triggers.
    apply must_emit_try_except. simpl. left. reflexivity. }
  apply elem_of_cons in Hf as [->|Hf]; [apply must_emit_bind_l, Hhere|].
  apply must_emit_bind_r; [apply function_step_never_raises|]. intros _.
  apply elem_of_cons in Hf as [->|Hf]; [apply must_emit_bind_l, Hhere|].
  apply must_emit_bind_r; [apply function_step_never_raises|]. intros _.
  apply elem_of_cons in Hf as [->|Hf]; [apply must_emit_bind_l, Hhere|].
  by apply elem_of_nil in Hf.
Qed.

(** C1, as amended.  A teardown run started on an empty shelve issues no
    call on the kinds whose identifiers come from the shelve (gateway, topic,
    storage), and every call it issues is on the fixed function and table
    names.  It is no run without calls: once the shelve is read and cleared,
    its next event is the call that lists the triggers of the loader.  A run
    that ends with success has listed the triggers and attempted the
    deletion of each of the three functions, and attempted the deletion of
    the table. *)
Theorem C1_empty_store_teardown_calls (w : W) :
  let r := interp E main w ∅ in
  Forall (λ ev, is_stored_kind_call ev = false) (trace r)
  ∧ Forall (λ ev, is_fixed_name_call ev = true) (calls (trace r))
  ∧ (∃ err rest,
       trace r
       = (teardown_prefix ∅
          ++ Called (lambda_list_event_source_mappings LOADER_FUNC) err
               :: rest)%list)
  ∧ (outcome r = Returned tt →
     (∀ f, f ∈ [LOADER_FUNC; API_FUNC; NOTIFY_FUNC] →
        Exists (λ ev, op_of ev = Some (lambda_list_event_source_mappings f))
          (trace r)
        ∧ Exists (λ ev, op_of ev = Some (lambda_delete_function f))
            (trace r))
     ∧ Exists (λ ev, op_of ev = Some (ddb_delete_table TABLE_NAME))
         (trace r)).
Proof.
  intros r. subst r. rewrite teardown_main_run, !lookup_empty. simpl default.
  set (d := interp E (deletions VNone VNone VNone VNone) w ∅).
  rewrite trace_foldr_emit, outcome_foldr_emit.
  pose proof (emits_only_sound E _ _ w ∅ deletions_of_nothing_emits) as Hd.
  fold d in Hd.
  split; [|split; [|split]].
  - apply Forall_app. split.
    + repeat constructor.
    + eapply Forall_impl; [exact Hd|]. by intros ev [H _].
  - unfold calls. rewrite List.filter_app. apply Forall_app. split.
    + simpl. constructor.
    + apply Forall_forall. intros ev Hev.
      apply list_elem_of_In, List.filter_In in Hev as [Hev Hcall].
      apply list_elem_of_In in Hev.
      rewrite Forall_forall in Hd. by apply Hd.
  - destruct (deletions_of_nothing_first_call w ∅) as (err & rest & Hfirst).
    fold d in Hfirst. exists err, rest. by rewrite Hfirst.
  - intros _. split; [intros f Hf; split|]; apply Exists_app; right.
    + apply must_emit_sound, deletions_list_triggers, Hf.
    + apply must_emit_sound, deletions_attempt_functions, Hf.
    + apply must_emit_sound, deletions_attempt_table.
Qed.

(** C2, as amended.  A teardown run clears the shelve before its first
    provider call, right after reading the stored identifiers, and nothing
    is written afterwards: whatever the deletions answer and however the run
    ends, the shelve is empty. *)
Theorem C2_store_cleared_before_deletions (w : W) (db : shelf) :
  let r := interp E main w db in
  store r = ∅
  ∧ ∃ pre rest, trace r = (pre ++ DbCleared :: rest)%list
                ∧ calls pre = [] ∧ Forall no_db_write rest.
Proof.
  intros r. subst r. rewrite teardown_main_run.
  set (d := interp E _ w ∅).
  assert (Hd : Forall no_db_event (trace d))
    by apply emits_only_sound, deletions_no_db_event.
  split.
  - rewrite store_foldr_emit. unfold d. rewrite store_replay.
    apply replay_no_write, no_db_event_no_write, Hd.
  - rewrite trace_foldr_emit.
    exists (take 5 (teardown_prefix db)),
           (Printed "[Config] Base de datos local eliminada." :: trace d).
    split; [reflexivity|]. split; [reflexivity|].
    constructor; [reflexivity|]. apply no_db_event_no_write, Hd.
Qed.

(** Every delete operation but the table's returns whatever the provider
    answers, a not-found answer included. *)
Lemma delete_operations_return (w : W) (db : shelf) (v : pyval)
    (f : string) :
  outcome (interp E (delete_bucket v) w db) = Returned tt
  ∧ outcome (interp E (delete_lambda f) w db) = Returned tt
  ∧ outcome (interp E (delete_api_gateway v) w db) = Returned tt
  ∧ outcome (interp E (delete_sns_topic v) w db) = Returned tt
  ∧ outcome (interp E (delete_triggers f) w db) = Returned tt.
Proof.
  repeat split.
  - by destruct (never_raises_returns E _ w db
                   (delete_bucket_never_raises v)) as [[] ->].
  - by destruct (never_raises_returns E _ w db
                   (delete_lambda_never_raises f)) as [[] ->].
  - by destruct (never_raises_returns E _ w db
                   (delete_api_gateway_never_raises v)) as [[] ->].
  - by destruct (never_raises_returns E _ w db
                   (delete_sns_topic_never_raises v)) as [[] ->].
  - by destruct (never_raises_returns E _ w db
                   (delete_triggers_never_raises f)) as [[] ->].
Qed.

(** The table's delete operation returns when the provider refuses the
    deletion, a not-found answer included; the wait that follows an accepted
    deletion is what can raise. *)
Lemma delete_dynamo_table_refused (w w' : W) (db : shelf) (n code : string) :
  aws E (ddb_delete_table n) w = (Failure code, w') →
  outcome (interp E (delete_dynamo_table n) w db) = Returned tt.
Proof.
  intros H. unfold delete_dynamo_table. simpl. rewrite H. simpl.
  by destruct (negb (code =? "ResourceNotFoundException")%string).
Qed.

End teardown_run.

(** C1 as stated fails.  On an empty shelve, against a provider on which
    nothing exists, the teardown run issues seven provider calls before it
    ends with success. *)
Lemma C1_counterexample_calls_on_empty_store :
  let r := interp nothing_deployed teardown.main tt ∅ in
  outcome r = Returned tt
  ∧ calls (trace r)
    = [ Called (lambda_list_event_source_mappings "LoadInventoryFunction")
          (Some "ResourceNotFoundException");
        Called (lambda_delete_function "LoadInventoryFunction")
          (Some "ResourceNotFoundException");
        Called (lambda_list_event_source_mappings "GetInventoryApiFunction")
          (Some "ResourceNotFoundException");
        Called (lambda_delete_function "GetInventoryApiFunction")
          (Some "ResourceNotFoundException");
        Called (lambda_list_event_source_mappings "NotifyLowStockFunction")
          (Some "ResourceNotFoundException");
        Called (lambda_delete_function "NotifyLowStockFunction")
          (Some "ResourceNotFoundException");
        Called (ddb_delete_table "Inventory")
          (Some "ResourceNotFoundException") ].
Proof. vm_compute. split; reflexivity. Qed.

(** C2 as stated fails.  With the record of a complete deployment in the
    shelve and a provider that refuses every deletion, the shelve is cleared
    (sixth event of the run) before the first deletion is issued (eighth
    event, refused), and it is still empty when the run ends. *)
Lemma C2_counterexample_cleared_despite_failures :
  let r := interp deletions_refused teardown.main tt deployed_record in
  trace r !! 5 = Some DbCleared
  ∧ calls (take 7 (trace r)) = []
  ∧ trace r !! 7
    = Some (Called (apigw_delete_api "a1b2c3d4e5")
              (Some "AccessDeniedException"))
  ∧ store r = ∅.
Proof. vm_compute. repeat split; reflexivity. Qed.

(** C8 at the failing input.  The table's deletion is accepted but the wait
    for its disappearance fails: the [WaiterError] is not a [ClientError],
    it leaves [delete_dynamo_table] and ends the run.  The topic and the two
    buckets that the shelve recorded are never addressed: the only call on a
    stored kind is the gateway's deletion. *)
Theorem C8_waiter_failure_skips_topic_and_buckets :
  let r := interp table_lingers teardown.main tt deployed_record in
  outcome r = Raised (WaiterError "table_not_exists")
  ∧ List.filter is_stored_kind_call (trace r)
    = [ Called (apigw_delete_api "a1b2c3d4e5") None ]
  ∧ deployed_record !! "sns-arn"
    = Some (VStr "arn:aws:sns:us-east-1:123456789012:NoStock-20240101-abcd1234")
  ∧ deployed_record !! "uploads-bucket"
    = Some (VStr "inventory-uploads-20240101-abcd1234").
Proof. vm_compute. repeat split; reflexivity. Qed.

(** ** deploy_script.py: the provisioning steps against any provider *)

(** Symbolic execution: split on the answer to the next call, or on the next
    test. *)
Ltac run_call :=
  match goal with
  | |- context [aws ?E ?o ?w] =>
      let r := fresh "r" in
      let w' := fresh "w" in
      let H := fresh "Hcall" in
      destruct (aws E o w) as [r w'] eqn:H; destruct r; simpl
  end.

Ltac run_step :=
  first [ run_call
        | match goal with
          | |- context [if ?b then _ else _] => destruct b eqn:?; simpl
          end ].

Section deploy_steps.
Import deploy_script.
Context {W : Type} (E : environment W).

(** C7.  Table provisioning opens with the create call, which carries the
    two-attribute key (partition [store], sort [item]) and the enabled
    stream.  When that call is refused because the table exists, the run
    goes on: its only other call is the describe call, it leaves the remote
    state as that call left it, and it returns the table identifier that the
    describe call reports. *)
Theorem C7_table_created_with_key_and_stream
    (name : string) (w : W) (db : shelf) :
  let create :=
    ddb_create_table name [("store", "HASH"); ("item", "RANGE")]
      [("store", "S"); ("item", "S")] "PAY_PER_REQUEST"
      {| StreamEnabled := true; StreamViewType := "NEW_AND_OLD_IMAGES" |} in
  let describe := ddb_describe_table name in
  let r := interp E (ensure_inventory_table name) w db in
  (∃ err rest, trace r = Called create err :: rest)
  ∧ ∀ w1, aws E create w = (Failure "ResourceInUseException", w1) →
      calls (trace r)
      = [ Called create (Some "ResourceInUseException");
          Called describe (code_of (aws E describe w1).1) ]
      ∧ world r = (aws E describe w1).2
      ∧ ∀ d w2, aws E describe w1 = (Success d, w2) →
          outcome r = Returned (TableArn d).
Proof.
  intros create describe r. subst r. unfold ensure_inventory_table.
  fold create describe. split.
  - simpl. eauto.
  - intros w1 Hc. simpl. rewrite Hc. simpl.
    destruct (aws E describe w1) as [[d|c] w2] eqn:Hd; simpl;
      repeat split; intros; simplify_eq; done.
Qed.

(** C6.  When the creation of a function is refused because the function
    exists, the next call is the code update.  A configuration update is
    only ever issued as the last call of the run, and then the two calls
    before it are the code update and the wait for the function to be
    updated, both answered with success. *)
Theorem C6_configuration_after_confirmed_code_update
    (region fn role : string) (zip : zip_bytes)
    (envv : option (list (string * string))) (handler : string)
    (w : W) (db : shelf) :
  let env_vars := default [] envv in
  let create :=
    lambda_create_function fn "python3.11" role handler zip 30 256 env_vars
      true in
  let r :=
    interp E (ensure_lambda_generic region fn role zip envv handler) w db in
  (∀ ident w1 w2,
     aws E sts_get_caller_identity w = (Success ident, w1) →
     aws E create w1 = (Failure "ResourceConflictException", w2) →
     ∃ err rest,
       calls (trace r)
       = Called sts_get_caller_identity None
           :: Called create (Some "ResourceConflictException")
           :: Called (lambda_update_function_code fn zip true) err :: rest)
  ∧ ∀ pre ev post,
      calls (trace r) = (pre ++ ev :: post)%list →
      is_update_configuration ev = true →
      ev = Called (lambda_update_function_configuration fn role env_vars)
             (error_of ev)
      ∧ post = []
      ∧ ∃ pre',
          pre = (pre' ++ [ Called (lambda_update_function_code fn zip true)
                             None;
                           Called (lambda_wait_function_updated fn) None ])%list.
Proof.
  intros env_vars create r. subst r. unfold ensure_lambda_generic.
  fold env_vars create. split.
  - intros ident w1 w2 H1 H2. simpl. rewrite H1. simpl. rewrite H2. simpl.
    eauto.
  - intros pre ev post. simpl. run_call.
    2:{ intros H Hev. repeat (destruct pre as [|? pre]; simplify_eq/=). }
    run_call.
    { intros H Hev. repeat (destruct pre as [|? pre]; simplify_eq/=). }
    destruct (String.eqb code "ResourceConflictException"); simpl.
    2:{ intros H Hev. repeat (destruct pre as [|? pre]; simplify_eq/=). }
    run_call.
    2:{ intros H Hev. repeat (destruct pre as [|? pre]; simplify_eq/=). }
    run_call.
    2:{ intros H Hev. repeat (destruct pre as [|? pre]; simplify_eq/=). }
    run_call.
    + intros H Hev. repeat (destruct pre as [|? pre]; simplify_eq/=).
      repeat split. by eexists [_; _].
    + intros H Hev. repeat (destruct pre as [|? pre]; simplify_eq/=).
      repeat split. by eexists [_; _].
Qed.

(** The gateway step against any provider: at most one integration is
    created in a run; a refused creation ends the run with that error,
    whatever its code, a conflict included; and every run that returns has
    created exactly one integration, by the call that directly follows the
    permission grant, whether the API was found or created. *)
Lemma gateway_integration_unconditional
    (region name arn : string) (w : W) (db : shelf) :
  let r := interp E (ensure_http_api region name arn) w db in
  (length (List.filter is_create_integration (trace r)) ≤ 1)%nat
  ∧ (∀ api ty uri fmt code,
       Called (apigw_create_integration api ty uri fmt) (Some code)
         ∈ trace r →
       outcome r = Raised (ClientError ApiGatewayV2 code))
  ∧ (∀ url, outcome r = Returned url →
       ∃ pre api_id sid src err post,
         calls (trace r)
         = (pre ++ [ Called (lambda_add_permission arn sid
                               "lambda:InvokeFunction"
                               "apigateway.amazonaws.com" src) err;
                     Called (apigw_create_integration api_id "AWS_PROXY" arn
                               "2.0") None ] ++ post)%list
         ∧ List.filter is_create_integration pre = []
         ∧ List.filter is_create_integration post = []
         ∧ url = api_endpoint region api_id).
Proof.
  intros r. subst r. unfold ensure_http_api. simpl.
  repeat run_step.
  all: (split; [simpl; lia|]).
  all: (split;
     [ intros api ty uri fmt code' Hin;
       repeat (apply elem_of_cons in Hin as [Hin|Hin]; [by simplify_eq|]);
       by apply elem_of_nil in Hin | ]).
  all: (intros url Hurl; simplify_eq;
    first [ by eexists [_; _], _, _, _, _, [_; _; _]
          | by eexists [_; _; _], _, _, _, _, [_; _; _] ]).
Qed.

End deploy_steps.

(** ** deploy_script.py: the run *)

Lemma emits_only_mono {A} (P P' : event → Prop) (p : prog A) :
  (∀ ev, P ev → P' ev) → emits_only P p → emits_only P' p.
Proof.
  intros HP.
  induction p as [a|e|o k IH|l k IH|msg k IH|key k IH|key v k IH|k IH];
    simpl; auto; intros [H1 H2]; split; auto.
Qed.

Section deploy_run.
Import deploy_script.
Context {W : Type} (E : environment W).
Variables region email : string.

Lemma upload_csv_files_emits (P : event → Prop) b f names found :
  (∀ o err, P (Called o err)) → (∀ m, P (Printed m)) →
  emits_only P (upload_csv_files b f names found).
Proof.
  intros Hc Hp. revert found.
  induction names as [|n names IH]; intros found; simpl; [done|].
  destruct (endswith _ _); [|apply IH].
  split; [apply Hp|]. split; [intros; apply Hc|].
  intros [[]|code]; simpl; [apply IH|]. split; [apply Hp|apply IH].
Qed.

(** The provisioning steps never touch the shelve and never generate a
    suffix. *)
Lemma provision_emits u wb t :
  emits_only (λ ev, is_provisioning_event ev = true)
    (provision region email u wb t).
Proof.
  unfold provision, ensure_bucket, bucket_exists, create_bucket,
    ensure_inventory_table, labrole_arn, build_lambda_zip_bytes,
    ensure_lambda_generic, ensure_http_api, ensure_sns_topic,
    subscribe_email, configure_s3_lambda_trigger, create_dynamodb_trigger,
    deploy_static_site, upload_initial_data, disable_bucket_bpa,
    apply_web_public_policy, call, env, print, index.
  emits. apply upload_csv_files_emits; done.
Qed.

Lemma provision_no_db_write u wb t :
  emits_only no_db_write (provision region email u wb t).
Proof.
  eapply emits_only_mono; [|apply provision_emits].
  by intros [].
Qed.

(** The first provider call of the steps is the existence check of the
    uploads bucket. *)
Lemma provision_first_call u wb t (w : W) (db : shelf) :
  ∃ err rest,
    trace (interp E (provision region email u wb t) w db)
    = Called (s3_head_bucket u) err :: rest.
Proof. unfold provision, ensure_bucket, bucket_exists. simpl. eauto. Qed.

(** The opening block of an apply run never raises and calls no provider:
    it returns the stored suffix when there is one, and otherwise a suffix
    it generates and stores. *)
Lemma resolve_suffix_run (w : W) (db : shelf) :
  ∃ suffix w1 t,
    interp E resolve_suffix w db
    = Run (Returned suffix) w1
        (match db !! "suffix" with
         | Some _ => db
         | None => <["suffix" := suffix]> db
         end) t
    ∧ calls t = []
    ∧ replay t db = match db !! "suffix" with
                    | Some _ => db
                    | None => <["suffix" := suffix]> db
                    end
    ∧ Forall (λ ev, is_result_write ev = false) t
    ∧ ∀ s, db !! "suffix" = Some s →
        suffix = s ∧ Forall (λ ev, is_suffix_generation ev = false) t.
Proof.
  unfold resolve_suffix, unique_suffix. simpl.
  destruct (db !! "suffix") as [s|] eqn:Hs; simpl; rewrite ?Hs; simpl.
  - eexists _, _, _. split; [reflexivity|]. split; [reflexivity|].
    split; [reflexivity|]. split; [by repeat constructor|].
    intros ? [= <-]. split; [done|]. by repeat constructor.
  - eexists _, _, _. split; [reflexivity|]. split; [reflexivity|].
    split; [reflexivity|]. split; [by repeat constructor|]. intros ? [=].
Qed.

Opaque provision.

(** The shape of every apply run: a head that resolves the suffix and
    stores the two bucket names without calling the provider, the
    provisioning steps, and, only when the last step has returned, the tail
    that stores what the steps returned. *)
Lemma deploy_main_shape (w : W) (db : shelf) :
  let r := interp E (main region email) w db in
  ∃ suffix t0 w1,
    let db0 := match db !! "suffix" with
               | Some _ => db
               | None => <["suffix" := suffix]> db
               end in
    let db1 := <["web-bucket" := VStr (web_bucket_name suffix)]>
                 (<["uploads-bucket" := VStr (uploads_bucket_name suffix)]>
                    db0) in
    let head := (t0 ++ [ DbWrote "uploads-bucket"
                           (VStr (uploads_bucket_name suffix));
                         DbWrote "web-bucket"
                           (VStr (web_bucket_name suffix)) ])%list in
    calls t0 = []
    ∧ replay t0 db = db0
    ∧ Forall (λ ev, is_result_write ev = false) t0
    ∧ (∀ s, db !! "suffix" = Some s →
         suffix = s ∧ Forall (λ ev, is_suffix_generation ev = false) t0)
    ∧ let body :=
        interp E (provision region email (uploads_bucket_name suffix)
                    (web_bucket_name suffix) (sns_topic_name_of suffix))
          w1 db1 in
      match outcome body with
      | Raised e =>
          outcome r = Raised e ∧ store r = db1
          ∧ trace r = (head ++ trace body)%list
      | Returned (api_url, web_url, table_arn, sns_topic_arn) =>
          outcome r = Returned tt
          ∧ store r = <["sns-arn" := VStr sns_topic_arn]>
                        (<["table-arn" := VStr table_arn]>
                           (<["web-url" := web_url]>
                              (<["api-url" := VStr api_url]> db1)))
          ∧ trace r = (head ++ trace body
                       ++ deploy_tail (uploads_bucket_name suffix) api_url
                            web_url table_arn sns_topic_arn)%list
      end.
Proof.
  intros r. subst r. unfold main. rewrite interp_bind.
  destruct (resolve_suffix_run w db)
    as (suffix & w1 & t0 & Hrs & Hc & Hr & Hw & Hs).
  rewrite Hrs. unfold seq_run; simpl.
  exists suffix, t0, w1. split; [exact Hc|]. split; [exact Hr|].
  split; [exact Hw|]. split; [exact Hs|].
  rewrite interp_bind. unfold seq_run.
  pose proof (store_unchanged E
    (provision region email (uploads_bucket_name suffix)
       (web_bucket_name suffix) (sns_topic_name_of suffix)) w1
    (<["web-bucket" := VStr (web_bucket_name suffix)]>
       (<["uploads-bucket" := VStr (uploads_bucket_name suffix)]>
          (match db !! "suffix" with
           | Some _ => db
           | None => <["suffix" := suffix]> db
           end))) (provision_no_db_write _ _ _)) as Hst.
  destruct (interp E (provision _ _ _ _ _) w1 _)
    as [[[[[a wu] ta] sa]|e] w2 db2 tb]; simpl in Hst |- *; subst db2.
  - repeat split. by rewrite <- !app_assoc.
  - repeat split. by rewrite <- !app_assoc.
Qed.

Transparent provision.

Lemma calls_app (t1 t2 : list event) :
  calls (t1 ++ t2) = (calls t1 ++ calls t2)%list.
Proof. apply List.filter_app. Qed.

Lemma provisioning_event_facts ev :
  is_provisioning_event ev = true →
  is_result_write ev = false ∧ is_suffix_generation ev = false.
Proof. by destruct ev as [| [] | | | |]. Qed.

(** C3, as amended.  An apply run stores the run suffix and the two bucket
    names derived from it before its first provider call.  What the
    provisioning steps return (API URL, web URL, table ARN, topic ARN) is
    stored only in the tail of the run, after its last provider call: the
    head and the steps write none of the four keys.  A run that an exception
    interrupts has no tail, and leaves each of the four keys as it found
    it; a run that returns has stored all four. *)
Theorem C3_results_stored_after_last_step (w : W) (db : shelf) :
  let r := interp E (main region email) w db in
  ∃ suffix head steps tail,
    trace r = (head ++ steps ++ tail)%list
    ∧ calls head = []
    ∧ replay head db !! "suffix" = Some suffix
    ∧ replay head db !! "uploads-bucket"
      = Some (VStr (uploads_bucket_name suffix))
    ∧ replay head db !! "web-bucket" = Some (VStr (web_bucket_name suffix))
    ∧ (∃ err rest,
         steps
         = Called (s3_head_bucket (uploads_bucket_name suffix)) err :: rest)
    ∧ Forall (λ ev, is_result_write ev = false) (head ++ steps)
    ∧ calls tail = []
    ∧ match outcome r with
      | Raised _ =>
          tail = [] ∧ ∀ k, k ∈ result_keys → store r !! k = db !! k
      | Returned _ =>
          ∃ api_url web_url table_arn sns_topic_arn,
            tail = deploy_tail (uploads_bucket_name suffix) api_url web_url
                     table_arn sns_topic_arn
            ∧ store r !! "api-url" = Some (VStr api_url)
            ∧ store r !! "web-url" = Some web_url
            ∧ store r !! "table-arn" = Some (VStr table_arn)
            ∧ store r !! "sns-arn" = Some (VStr sns_topic_arn)
      end.
Proof.
  intros r.
  destruct (deploy_main_shape w db)
    as (suffix & t0 & w1 & Hc & Hr & Hw & Hs & Hb).
  fold r in Hb. cbv zeta in Hb, Hr.
  set (db0 := match db !! "suffix" with
              | Some _ => db
              | None => <["suffix" := suffix]> db
              end) in *.
  set (db1 := <["web-bucket" := _]> (<["uploads-bucket" := _]> db0)) in *.
  set (head := (t0 ++ [_; _])%list) in *.
  set (body := interp E _ w1 db1) in *.
  assert (Hhead : replay head db = db1).
  { unfold head. rewrite replay_app, Hr. reflexivity. }
  assert (Hsuffix : db0 !! "suffix" = Some suffix).
  { unfold db0. destruct (db !! "suffix") as [s|] eqn:Hdb.
    - by destruct (Hs s eq_refl) as [-> _].
    - apply lookup_insert_eq. }
  assert (Hkeys : ∀ k, k ∈ result_keys → db1 !! k = db !! k).
  { intros k Hk. unfold db1, db0.
    assert (k ≠ "web-bucket" ∧ k ≠ "uploads-bucket" ∧ k ≠ "suffix")
      as (? & ? & ?).
    { unfold result_keys in Hk.
      repeat (apply elem_of_cons in Hk as [->|Hk]; [done|]).
      by apply elem_of_nil in Hk. }
    rewrite !lookup_insert_ne by done.
    destruct (db !! "suffix"); [done|]. by rewrite lookup_insert_ne. }
  destruct (provision_first_call (uploads_bucket_name suffix)
              (web_bucket_name suffix) (sns_topic_name_of suffix) w1 db1)
    as (err & rest & Hfirst).
  fold body in Hfirst.
  pose proof (emits_only_sound E _ _ w1 db1
                (provision_emits (uploads_bucket_name suffix)
                   (web_bucket_name suffix) (sns_topic_name_of suffix)))
    as Hsteps.
  fold body in Hsteps.
  assert (Hnowrite : Forall (λ ev, is_result_write ev = false)
                       (head ++ trace body)).
  { apply Forall_app. split.
    - unfold head. apply Forall_app. split; [exact Hw|].
      by repeat constructor.
    - eapply Forall_impl; [exact Hsteps|].
      intros ev Hev. by apply provisioning_event_facts in Hev as [? _]. }
  destruct (outcome body) as [[[[a wu] ta] sa]|e] eqn:Hob.
  - destruct Hb as (Ho & Hst & Htr).
    exists suffix, head, (trace body),
           (deploy_tail (uploads_bucket_name suffix) a wu ta sa).
    rewrite Ho, Hhead.
    split; [exact Htr|].
    split; [unfold head; rewrite calls_app, Hc; reflexivity|].
    split; [unfold db1; by rewrite !lookup_insert_ne by done|].
    split; [unfold db1; by rewrite lookup_insert_ne, lookup_insert_eq|].
    split; [unfold db1; by rewrite lookup_insert_eq|].
    split; [eauto|]. split; [exact Hnowrite|]. split; [reflexivity|].
    exists a, wu, ta, sa. rewrite Hst. split; [reflexivity|].
    split; [rewrite !lookup_insert_ne by done; apply lookup_insert_eq|].
    split; [rewrite !lookup_insert_ne by done; apply lookup_insert_eq|].
    split; [rewrite !lookup_insert_ne by done; apply lookup_insert_eq|].
    by rewrite lookup_insert_eq.
  - destruct Hb as (Ho & Hst & Htr).
    exists suffix, head, (trace body), [].
    rewrite Ho, Hhead, app_nil_r.
    split; [exact Htr|].
    split; [unfold head; rewrite calls_app, Hc; reflexivity|].
    split; [unfold db1; by rewrite !lookup_insert_ne by done|].
    split; [unfold db1; by rewrite lookup_insert_ne, lookup_insert_eq|].
    split; [unfold db1; by rewrite lookup_insert_eq|].
    split; [eauto|]. split; [exact Hnowrite|]. split; [reflexivity|].
    split; [reflexivity|]. intros k Hk. rewrite Hst. by apply Hkeys.
Qed.

(** C4.  When the shelve holds a run suffix, an apply run reuses it: no
    event of the run generates a suffix or writes the suffix key, the first
    provider call addresses the uploads bucket named after the stored
    suffix, and however the run ends the shelve holds the unchanged suffix
    and the two bucket names derived from it. *)
Theorem C4_stored_suffix_reused (w : W) (db : shelf) (s : string) :
  db !! "suffix" = Some (VStr s) →
  let r := interp E (main region email) w db in
  store r !! "suffix" = Some (VStr s)
  ∧ store r !! "uploads-bucket" = Some (VStr ("inventory-uploads-" +:+ s))
  ∧ store r !! "web-bucket" = Some (VStr ("inventory-web-" +:+ s))
  ∧ Forall (λ ev, is_suffix_generation ev = false) (trace r)
  ∧ ∃ err rest,
      calls (trace r)
      = Called (s3_head_bucket ("inventory-uploads-" +:+ s)) err :: rest.
Proof.
  intros Hdb r.
  destruct (deploy_main_shape w db)
    as (suffix & t0 & w1 & Hc & Hr & Hw & Hs & Hb).
  fold r in Hb. cbv zeta in Hb.
  destruct (Hs _ Hdb) as [-> Hgen]. rewrite Hdb in Hb.
  change (uploads_bucket_name (VStr s)) with ("inventory-uploads-" +:+ s)
    in Hb.
  change (web_bucket_name (VStr s)) with ("inventory-web-" +:+ s) in Hb.
  set (db1 := <["web-bucket" := _]> (<["uploads-bucket" := _]> db)) in *.
  set (head := (t0 ++ [_; _])%list) in *.
  set (body := interp E _ w1 db1) in *.
  assert (Hhead : Forall (λ ev, is_suffix_generation ev = false) head).
  { unfold head. apply Forall_app. split; [exact Hgen|].
    by repeat constructor. }
  assert (Hdb1 : db1 !! "suffix" = Some (VStr s)
                 ∧ db1 !! "uploads-bucket"
                   = Some (VStr ("inventory-uploads-" +:+ s))
                 ∧ db1 !! "web-bucket"
                   = Some (VStr ("inventory-web-" +:+ s))).
  { unfold db1. split; [by rewrite !lookup_insert_ne by done|].
    split; [by rewrite lookup_insert_ne, lookup_insert_eq|].
    by rewrite lookup_insert_eq. }
  destruct Hdb1 as (H1 & H2 & H3).
  destruct (provision_first_call ("inventory-uploads-" +:+ s)
              ("inventory-web-" +:+ s) (sns_topic_name_of (VStr s)) w1 db1)
    as (err & rest & Hfirst).
  fold body in Hfirst.
  pose proof (emits_only_sound E _ _ w1 db1
                (provision_emits ("inventory-uploads-" +:+ s)
                   ("inventory-web-" +:+ s) (sns_topic_name_of (VStr s))))
    as Hsteps.
  fold body in Hsteps.
  assert (Hbody : Forall (λ ev, is_suffix_generation ev = false)
                    (trace body)).
  { eapply Forall_impl; [exact Hsteps|].
    intros ev Hev. by apply provisioning_event_facts in Hev as [_ ?]. }
  assert (Hcalls : calls head = []).
  { unfold head. rewrite calls_app, Hc. reflexivity. }
  destruct (outcome body) as [[[[a wu] ta] sa]|e] eqn:Hob;
    destruct Hb as (Ho & Hst & Htr); rewrite Hst, Htr.
  - split; [by rewrite !lookup_insert_ne by done|].
    split; [by rewrite !lookup_insert_ne by done|].
    split; [by rewrite !lookup_insert_ne by done|].
    split.
    + apply Forall_app. split; [exact Hhead|]. apply Forall_app.
      split; [exact Hbody|]. by repeat constructor.
    + rewrite calls_app, Hcalls, calls_app, Hfirst. simpl. eauto.
  - split; [exact H1|]. split; [exact H2|]. split; [exact H3|].
    split.
    + apply Forall_app. split; [exact Hhead|exact Hbody].
    + rewrite calls_app, Hcalls, Hfirst. simpl. eauto.
Qed.

End deploy_run.

(** ** The provisioning steps against the reference provider *)

Arguments Cloud.has : simpl never.
Arguments Cloud.has2 : simpl never.
Arguments Cloud.fresh_id : simpl never.

Section cloud_steps.
Import deploy_script Cloud.

Lemma has_app_r x l : has x (l ++ [x]) = true.
Proof. unfold has. apply bool_decide_eq_true_2. set_solver. Qed.

Lemma find_api_id_app_new apis name id :
  find_api_id apis name = VNone →
  find_api_id (apis ++ [ {| ApiId := id; Name := name |} ]) name = VStr id.
Proof.
  unfold find_api_id. induction apis as [|a apis IH]; simpl.
  - by rewrite String.eqb_refl.
  - destruct (Name a =? name)%string; [done|]. exact IH.
Qed.

Lemma find_api_id_wf apis name id :
  Forall (λ a, ApiId a ≠ "") apis → find_api_id apis name = VStr id → id ≠ "".
Proof.
  unfold find_api_id. intros Hwf.
  destruct (List.find _ apis) as [a|] eqn:Hf; [|done].
  intros [= <-]. apply List.find_some in Hf as [Hin _].
  rewrite Forall_forall in Hwf. apply Hwf. by apply list_elem_of_In.
Qed.

Lemma has_app_l x y l : has x l = true → has x (l ++ [y]) = true.
Proof.
  unfold has. intros H. apply bool_decide_eq_true_1 in H.
  apply bool_decide_eq_true_2. set_solver.
Qed.

(** One run of each step, from any account: what it returns, that the
    resource exists afterwards, and the path it takes when the resource
    existed before. *)
Lemma cloud_ensure_bucket_run region name c db :
  let r := interp provider (ensure_bucket region name) c db in
  outcome r = Returned tt
  ∧ has name (buckets (world r)) = true
  ∧ (has name (buckets c) = true →
     world r = c ∧ calls (trace r) = [Called (s3_head_bucket name) None]).
Proof.
  unfold ensure_bucket, bucket_exists, create_bucket. simpl.
  destruct (has name (buckets c)) eqn:Hb; simpl;
    repeat (progress (rewrite ?Hb, ?has_app_r; simpl)).
  - done.
  - destruct (region =? "us-east-1")%string; simpl;
      repeat (progress (rewrite ?Hb, ?has_app_r; simpl)); done.
Qed.

Lemma cloud_ensure_table_run name c db :
  let r := interp provider (ensure_inventory_table name) c db in
  outcome r = Returned (table_arn_of name)
  ∧ has name (tables (world r)) = true
  ∧ (has name (tables c) = true →
     error_of <$> calls (trace r) = [Some "ResourceInUseException"; None]).
Proof.
  unfold ensure_inventory_table. simpl.
  destruct (has name (tables c)) eqn:Hb; simpl;
    repeat (progress (rewrite ?Hb, ?has_app_r; simpl)).
  - done.
  - done.
Qed.

Lemma cloud_ensure_lambda_run region fn role zip envv handler c db :
  let r :=
    interp provider (ensure_lambda_generic region fn role zip envv handler)
      c db in
  outcome r = Returned ("arn:aws:lambda:" +:+ region +:+ ":" +:+ account
                        +:+ ":function:" +:+ fn)
  ∧ has fn (functions (world r)) = true
  ∧ (has fn (functions c) = true →
     error_of <$> calls (trace r)
     = [None; Some "ResourceConflictException"; None; None; None]).
Proof.
  unfold ensure_lambda_generic. simpl.
  destruct (has fn (functions c)) eqn:Hb; simpl;
    repeat (progress (rewrite ?Hb, ?has_app_r; simpl)).
  - done.
  - done.
Qed.

Lemma cloud_ensure_topic_run name c db :
  let r := interp provider (ensure_sns_topic name) c db in
  outcome r = Returned (topic_arn_of name)
  ∧ has name (topics (world r)) = true
  ∧ (has name (topics c) = true → world r = c).
Proof.
  unfold ensure_sns_topic. simpl.
  destruct (has name (topics c)) eqn:Hb; simpl;
    repeat (progress (rewrite ?Hb, ?has_app_r; simpl)).
  - done.
  - done.
Qed.

Lemma cloud_ensure_bucket_twice region name c db :
  let p := ensure_bucket region name in
  let r1 := interp provider p c db in
  let r2 := again provider p r1 in
  outcome r1 = Returned tt ∧ outcome r2 = Returned tt
  ∧ calls (trace r2) = [Called (s3_head_bucket name) None]
  ∧ world r2 = world r1.
Proof.
  intros p r1 r2.
  destruct (cloud_ensure_bucket_run region name c db) as (Ho1 & Hh1 & _).
  destruct (cloud_ensure_bucket_run region name (world r1) (store r1))
    as (Ho2 & _ & Hp2).
  destruct (Hp2 Hh1) as [Hw Hc]. done.
Qed.

Lemma cloud_ensure_table_twice name c db :
  let p := ensure_inventory_table name in
  let r1 := interp provider p c db in
  let r2 := again provider p r1 in
  outcome r1 = Returned (table_arn_of name)
  ∧ outcome r2 = Returned (table_arn_of name)
  ∧ error_of <$> calls (trace r2) = [Some "ResourceInUseException"; None].
Proof.
  intros p r1 r2.
  destruct (cloud_ensure_table_run name c db) as (Ho1 & Hh1 & _).
  destruct (cloud_ensure_table_run name (world r1) (store r1))
    as (Ho2 & _ & Hp2).
  pose proof (Hp2 Hh1). done.
Qed.

Lemma cloud_ensure_lambda_twice region fn role zip envv handler c db :
  let p := ensure_lambda_generic region fn role zip envv handler in
  let arn := "arn:aws:lambda:" +:+ region +:+ ":" +:+ account
             +:+ ":function:" +:+ fn in
  let r1 := interp provider p c db in
  let r2 := again provider p r1 in
  outcome r1 = Returned arn ∧ outcome r2 = Returned arn
  ∧ error_of <$> calls (trace r2)
    = [None; Some "ResourceConflictException"; None; None; None].
Proof.
  intros p arn r1 r2.
  destruct (cloud_ensure_lambda_run region fn role zip envv handler c db)
    as (Ho1 & Hh1 & _).
  destruct (cloud_ensure_lambda_run region fn role zip envv handler
              (world r1) (store r1)) as (Ho2 & _ & Hp2).
  pose proof (Hp2 Hh1). done.
Qed.

Lemma cloud_ensure_topic_twice name c db :
  let p := ensure_sns_topic name in
  let r1 := interp provider p c db in
  let r2 := again provider p r1 in
  outcome r1 = Returned (topic_arn_of name)
  ∧ outcome r2 = Returned (topic_arn_of name)
  ∧ world r2 = world r1.
Proof.
  intros p r1 r2.
  destruct (cloud_ensure_topic_run name c db) as (Ho1 & Hh1 & _).
  destruct (cloud_ensure_topic_run name (world r1) (store r1))
    as (Ho2 & _ & Hp2).
  pose proof (Hp2 Hh1). done.
Qed.

Arguments answer : simpl never.

(** What the gateway calls answer, and what they leave of the APIs and
    integrations. *)
Lemma answer_create_api name proto cors c :
  answer (apigw_create_api name proto cors) c
  = (Success (fresh_id "api" (issued c)),
     issue (set_apis (apis c ++ [ {| ApiId := fresh_id "api" (issued c);
                                     Name := name |} ]) c)).
Proof. reflexivity. Qed.

Lemma answer_create_integration api ty uri fmt c :
  answer (apigw_create_integration api ty uri fmt) c
  = (Success (fresh_id "int" (issued c)),
     issue (set_integrations (integrations c ++ [(api, uri)]) c)).
Proof. reflexivity. Qed.

Lemma answer_add_permission f sid act pr src c :
  ∃ r c', answer (lambda_add_permission f sid act pr src) c = (r, c')
    ∧ (r = Success tt ∨ r = Failure "ResourceConflictException")
    ∧ apis c' = apis c ∧ integrations c' = integrations c.
Proof.
  unfold answer. destruct (has2 _ _); eauto 10.
Qed.

Lemma answer_create_route api key target c :
  ∃ r c', answer (apigw_create_route api key target) c = (r, c')
    ∧ (r = Success tt ∨ r = Failure "ConflictException")
    ∧ apis c' = apis c ∧ integrations c' = integrations c.
Proof.
  unfold answer. destruct (has2 _ _); eauto 10.
Qed.

Lemma answer_create_stage api stage auto c :
  ∃ r c', answer (apigw_create_stage api stage auto) c = (r, c')
    ∧ (r = Success tt ∨ r = Failure "ConflictException")
    ∧ apis c' = apis c ∧ integrations c' = integrations c.
Proof.
  unfold answer. destruct (has2 _ _); eauto 10.
Qed.

Ltac gateway_step :=
  match goal with
  | |- context [answer (lambda_add_permission ?f ?sid ?a ?p ?s) ?c] =>
      let H := fresh "H" in let Ha := fresh "Hapis" in
      let Hi := fresh "Hints" in
      destruct (answer_add_permission f sid a p s c)
        as (? & ? & H & [-> | ->] & Ha & Hi); rewrite H; simpl
  | |- context [answer (apigw_create_route ?a ?k ?t) ?c] =>
      let H := fresh "H" in let Ha := fresh "Hapis" in
      let Hi := fresh "Hints" in
      destruct (answer_create_route a k t c)
        as (? & ? & H & [-> | ->] & Ha & Hi); rewrite H; simpl
  | |- context [answer (apigw_create_stage ?a ?k ?t) ?c] =>
      let H := fresh "H" in let Ha := fresh "Hapis" in
      let Hi := fresh "Hints" in
      destruct (answer_create_stage a k t c)
        as (? & ? & H & [-> | ->] & Ha & Hi); rewrite H; simpl
  end.

Lemma cloud_ensure_http_api region name arn c db :
  Forall (λ a, ApiId a ≠ "") (apis c) →
  let r := interp provider (ensure_http_api region name arn) c db in
  let id := match find_api_id (apis c) name with
            | VStr id => id
            | VNone => fresh_id "api" (issued c)
            end in
  outcome r = Returned (api_endpoint region id)
  ∧ find_api_id (apis (world r)) name = VStr id
  ∧ Forall (λ a, ApiId a ≠ "") (apis (world r))
  ∧ integrations (world r) = (integrations c ++ [(id, arn)])%list
  ∧ (find_api_id (apis c) name ≠ VNone →
     List.filter is_create_api (trace r) = []).
Proof.
  intros Hwf r id. subst r id. unfold ensure_http_api. simpl.
  change (answer apigw_get_apis c) with (Success (apis c), c). simpl.
  destruct (find_api_id (apis c) name) as [|id] eqn:Hfind; simpl.
  - set (c1 := issue _).
    assert (Ha1 : apis c1
                  = (apis c ++ [ {| ApiId := fresh_id "api" (issued c);
                                    Name := name |} ])%list) by reflexivity.
    assert (Hi1 : integrations c1 = integrations c) by reflexivity.
    clearbody c1.
    gateway_step;
      match goal with
      | |- context [issue ?x] =>
          set (c2 := issue x);
          assert (Ha2 : apis c2 = apis x0) by reflexivity;
          assert (Hi2 : integrations c2
                        = (integrations x0
                           ++ [(fresh_id "api" (issued c), arn)])%list)
            by reflexivity;
          clearbody c2
      end;
      repeat gateway_step;
      (split; [reflexivity|]);
      repeat match goal with
             | H : apis _ = _ |- _ => rewrite H; clear H
             | H : integrations _ = _ |- _ => rewrite H; clear H
             end;
      (split; [by apply find_api_id_app_new|]);
      (split; [apply Forall_app; split; [done|by repeat constructor]|]);
      (split; [reflexivity|done]).
  - pose proof (find_api_id_wf _ _ _ Hwf Hfind) as Hid.
    apply String.eqb_neq in Hid. rewrite Hid. simpl.
    gateway_step;
      match goal with
      | |- context [issue ?x] =>
          set (c2 := issue x);
          assert (Ha2 : apis c2 = apis x0) by reflexivity;
          assert (Hi2 : integrations c2
                        = (integrations x0 ++ [(id, arn)])%list)
            by reflexivity;
          clearbody c2
      end;
      repeat gateway_step;
      (split; [reflexivity|]);
      repeat match goal with
             | H : apis _ = _ |- _ => rewrite H; clear H
             | H : integrations _ = _ |- _ => rewrite H; clear H
             end;
      repeat split; done.
Qed.

Lemma cloud_ensure_http_api_twice region name arn c db :
  Forall (λ a, ApiId a ≠ "") (apis c) →
  let p := ensure_http_api region name arn in
  let r1 := interp provider p c db in
  let r2 := again provider p r1 in
  ∃ url, outcome r1 = Returned url ∧ outcome r2 = Returned url
         ∧ List.filter is_create_api (trace r2) = [].
Proof.
  intros Hwf p r1 r2.
  destruct (cloud_ensure_http_api region name arn c db Hwf)
    as (Ho1 & Hf1 & Hwf1 & _ & _).
  destruct (cloud_ensure_http_api region name arn (world r1) (store r1) Hwf1)
    as (Ho2 & _ & _ & _ & Hn2).
  fold p r1 in Ho1, Hf1, Hwf1, Ho2, Hn2. fold p in Hn2.
  rewrite Hf1 in Ho2.
  eexists. split; [exact Ho1|]. split; [exact Ho2|].
  apply Hn2. by rewrite Hf1.
Qed.

(** C5.  Against the reference provider, in any account whose API
    identifiers are not empty, each reconcile step run twice in succession
    returns the same identifier both times, and the second run takes the
    already-exists path: the bucket step finds the bucket and creates
    nothing; the table and function creations are refused and absorbed (the
    function is updated in place); the gateway step finds the API by name
    and creates none; the topic creation returns the same ARN and changes
    nothing. *)
Theorem C5_reconcile_twice_same_identifier
    (region : string) (c : cloud) (db : shelf) :
  Forall (λ a, ApiId a ≠ "") (apis c) →
  (∀ name,
     let p := ensure_bucket region name in
     let r1 := interp provider p c db in
     let r2 := again provider p r1 in
     outcome r1 = Returned tt ∧ outcome r2 = Returned tt
     ∧ calls (trace r2) = [Called (s3_head_bucket name) None]
     ∧ world r2 = world r1)
  ∧ (∀ name,
       let p := ensure_inventory_table name in
       let r1 := interp provider p c db in
       let r2 := again provider p r1 in
       ∃ arn, outcome r1 = Returned arn ∧ outcome r2 = Returned arn
              ∧ error_of <$> calls (trace r2)
                = [Some "ResourceInUseException"; None])
  ∧ (∀ fn role zip envv handler,
       let p := ensure_lambda_generic region fn role zip envv handler in
       let r1 := interp provider p c db in
       let r2 := again provider p r1 in
       ∃ arn, outcome r1 = Returned arn ∧ outcome r2 = Returned arn
              ∧ error_of <$> calls (trace r2)
                = [None; Some "ResourceConflictException"; None; None; None])
  ∧ (∀ name lambda_arn,
       let p := ensure_http_api region name lambda_arn in
       let r1 := interp provider p c db in
       let r2 := again provider p r1 in
       ∃ url, outcome r1 = Returned url ∧ outcome r2 = Returned url
              ∧ List.filter is_create_api (trace r2) = [])
  ∧ (∀ name,
       let p := ensure_sns_topic name in
       let r1 := interp provider p c db in
       let r2 := again provider p r1 in
       ∃ arn, outcome r1 = Returned arn ∧ outcome r2 = Returned arn
              ∧ world r2 = world r1).
Proof.
  intros Hwf. split; [|split; [|split; [|split]]].
  - intros name. apply cloud_ensure_bucket_twice.
  - intros name p r1 r2. exists (table_arn_of name).
    apply cloud_ensure_table_twice.
  - intros fn role zip envv handler p r1 r2. eexists.
    apply cloud_ensure_lambda_twice.
  - intros name lambda_arn. by apply cloud_ensure_http_api_twice.
  - intros name p r1 r2. exists (topic_arn_of name).
    apply cloud_ensure_topic_twice.
Qed.

End cloud_steps.

(** C10.  Against any provider, a run of the gateway step creates at most
    one integration; the creation has no conflict guard, a refusal ends the
    run with that error whatever its code; every run that returns has
    created exactly one integration, by the call that directly follows the
    permission grant with no lookup in between, whether the API was found
    or created.  Against the reference provider, a run on an account where
    the API exists returns its endpoint and leaves one integration more
    than it found. *)
Theorem C10_integration_created_on_every_run
    {W : Type} (E : environment W) (region name arn : string) (w : W)
    (db : shelf) :
  let p := deploy_script.ensure_http_api region name arn in
  let r := interp E p w db in
  (length (List.filter is_create_integration (trace r)) ≤ 1)%nat
  ∧ (∀ api ty uri fmt code,
       Called (apigw_create_integration api ty uri fmt) (Some code)
         ∈ trace r →
       outcome r = Raised (ClientError ApiGatewayV2 code))
  ∧ (∀ url, outcome r = Returned url →
       ∃ pre api_id sid src err post,
         calls (trace r)
         = (pre ++ [ Called (lambda_add_permission arn sid
                               "lambda:InvokeFunction"
                               "apigateway.amazonaws.com" src) err;
                     Called (apigw_create_integration api_id "AWS_PROXY" arn
                               "2.0") None ] ++ post)%list
         ∧ List.filter is_create_integration pre = []
         ∧ List.filter is_create_integration post = []
         ∧ url = api_endpoint region api_id)
  ∧ (∀ (c : Cloud.cloud) (id : string),
       Forall (λ a, ApiId a ≠ "") (Cloud.apis c) →
       deploy_script.find_api_id (Cloud.apis c) name = VStr id →
       let r' := interp Cloud.provider p c db in
       outcome r' = Returned (api_endpoint region id)
       ∧ Cloud.integrations (world r')
         = (Cloud.integrations c ++ [(id, arn)])%list).
Proof.
  intros p r.
  destruct (gateway_integration_unconditional E region name arn w db)
    as (H1 & H2 & H3).
  split; [exact H1|]. split; [exact H2|]. split; [exact H3|].
  intros c id Hwf Hfind r'.
  destruct (cloud_ensure_http_api region name arn c db Hwf)
    as (Ho & _ & _ & Hi & _).
  rewrite Hfind in Ho, Hi. by split.
Qed.

(** ** teardown.py: emptying a bucket in batches *)

Section slicing.
Context {X : Type}.
Local Open Scope nat_scope.

(** Consecutive slices of width [n] cover a list of at most [m * n]
    elements. *)
Lemma slices_cover (n m : nat) (l : list X) :
  length l ≤ m * n →
  concat ((λ k, take n (drop (k * n) l)) <$> seq 0 m) = l.
Proof.
  revert l. induction m as [|m IH]; intros l Hlen.
  - simpl in *. destruct l; [done|simpl in Hlen; lia].
  - rewrite <- cons_seq, fmap_cons, <- fmap_S_seq, <- list_fmap_compose.
    simpl concat. rewrite drop_0.
    transitivity (take n l ++ drop n l)%list; [|apply take_drop].
    f_equal.
    rewrite <- (IH (drop n l)) by (rewrite length_drop; simpl in Hlen; lia).
    f_equal. apply list_fmap_ext. intros _ k _. simpl.
    by rewrite drop_drop.
Qed.

Lemma range_from_zero (stop step : nat) :
  Py.range 0 stop step = (λ k, k * step) <$> seq 0 ((stop + (step - 1)) / step).
Proof. unfold Py.range. by rewrite Nat.sub_0_r. Qed.

Lemma ceiling_covers (a n : nat) : 0 < n → a ≤ (a + (n - 1)) / n * n.
Proof.
  intros Hn.
  pose proof (Nat.div_mod_eq (a + (n - 1)) n) as Hd.
  pose proof (Nat.mod_upper_bound (a + (n - 1)) n) as Hm.
  nia.
Qed.

(** The slices [l[i:i+n]] for [i in range(0, len(l), n)] cover [l] in
    order, and none is longer than [n]. *)
Lemma slices_of_range (n : nat) (l : list X) :
  0 < n →
  let bs := (λ i, slice l i (i + n)) <$> Py.range 0 (length l) n in
  concat bs = l ∧ Forall (λ b, length b ≤ n) bs.
Proof.
  intros Hn bs. subst bs. rewrite range_from_zero, <- list_fmap_compose.
  split.
  - transitivity
      (concat ((λ k, take n (drop (k * n) l))
                 <$> seq 0 ((length l + (n - 1)) / n))).
    + f_equal. apply list_fmap_ext. intros _ k _. unfold slice. simpl.
      by replace (k * n + n - k * n) with n by lia.
    + apply slices_cover, ceiling_covers, Hn.
  - apply Forall_fmap, Forall_forall. intros k _. unfold slice. simpl.
    rewrite length_take. lia.
Qed.

End slicing.

Lemma emits_only_for_each_in {X} (P : event → Prop) (l : list X)
    (body : X → prog unit) :
  (∀ x, x ∈ l → emits_only P (body x)) → emits_only P (for_each l body).
Proof.
  induction l as [|x l IH]; intros Hb; simpl; [done|].
  apply emits_only_bind.
  - apply Hb. by left.
  - intros _. apply IH. intros y Hy. apply Hb. by right.
Qed.

Lemma sent_app (t1 t2 : list event) :
  sent (t1 ++ t2) = (sent t1 ++ sent t2)%list.
Proof. unfold sent. by rewrite fmap_app, concat_app. Qed.

Section runs_prefix.
Context {W : Type}.

Lemma seq_run_prefix {A B} (r : run W A) (k : A → W → shelf → run W B) :
  ∃ rest, trace (seq_run r k) = (trace r ++ rest)%list.
Proof.
  unfold seq_run. destruct (outcome r); simpl; [eauto|].
  exists []. by rewrite app_nil_r.
Qed.

Lemma catch_run_prefix {A} (r : run W A) (h : exn → W → shelf → run W A) :
  ∃ rest, trace (catch_run r h) = (trace r ++ rest)%list.
Proof.
  unfold catch_run. destruct (outcome r); simpl; [|eauto].
  exists []. by rewrite app_nil_r.
Qed.

End runs_prefix.

Section empty_bucket_run.
Import teardown.
Context {W : Type} (E : environment W).

Lemma interp_call (o : aws_op) (w : W) (db : shelf) :
  interp E (call o) w db
  = Run (match (aws E o w).1 with
         | Success x => Returned x
         | Failure code => Raised (exn_of o code)
         end)
      (aws E o w).2 db [Called o (code_of (aws E o w).1)].
Proof.
  unfold call. simpl. by destruct (aws E o w) as [[x|code] w'].
Qed.

(** The batches of [empty_bucket] cover what is to delete, in order, and
    none holds more than 1000 references. *)
Lemma batches_cover (l : list object_ref) :
  concat (batches l) = l ∧ Forall (λ b, (length b ≤ 1000)%nat) (batches l).
Proof. apply (slices_of_range 1000 l). lia. Qed.

(** The loop over the batches sends them all, unless a batch deletion is
    refused. *)
Lemma delete_batches_run region bucket (bs : list (list object_ref))
    (w : W) (db : shelf) :
  let r := interp E (for_each bs (λ batch,
                       call (s3_delete_objects region bucket batch true)))
             w db in
  (outcome r = Returned tt ∧ sent (trace r) = concat bs)
  ∨ Exists (λ ev, is_failed_delete_objects ev = true) (trace r).
Proof.
  cbv zeta. revert w. induction bs as [|b bs IH]; intros w.
  - by left.
  - cbn [for_each]. rewrite interp_bind.
    match goal with |- context [seq_run ?r _] => set (rc := r) end.
    pose proof (interp_call (s3_delete_objects region bucket b true) w db
                : rc = _) as Hrc.
    clearbody rc. subst rc. unfold seq_run.
    destruct (aws E (s3_delete_objects region bucket b true) w)
      as [[[]|code] w1]; cbn [fst snd outcome world store trace code_of].
    + destruct (IH w1) as [[Ho Hs]|Hx].
      * left. split; [exact Ho|].
        rewrite sent_app, Hs. unfold sent. simpl. by rewrite app_nil_r.
      * right. by apply Exists_cons_tl.
    + right. by apply Exists_cons_hd.
Qed.

Lemma delete_in_batches_run region bucket (l : list object_ref)
    (w : W) (db : shelf) :
  let r := interp E (delete_in_batches region bucket l) w db in
  (outcome r = Returned tt ∧ sent (trace r) = l)
  ∨ Exists (λ ev, is_failed_delete_objects ev = true) (trace r).
Proof.
  cbv zeta. unfold delete_in_batches. destruct l as [|x l]; [by left|].
  destruct (delete_batches_run region bucket (batches (x :: l)) w db)
    as [[Ho Hs]|Hx]; [left|by right].
  split; [exact Ho|]. rewrite Hs. apply batches_cover.
Qed.

Lemma delete_pages_run {X} region bucket (refs : X → list object_ref)
    (pgs : list X) (w : W) (db : shelf) :
  let r := interp E (for_each pgs (λ page,
                       delete_in_batches region bucket (refs page))) w db in
  (outcome r = Returned tt ∧ sent (trace r) = concat (refs <$> pgs))
  ∨ Exists (λ ev, is_failed_delete_objects ev = true) (trace r).
Proof.
  cbv zeta. revert w db. induction pgs as [|pg pgs IH]; intros w db.
  - by left.
  - cbn [for_each]. rewrite interp_bind. unfold seq_run.
    destruct (delete_in_batches_run region bucket (refs pg) w db)
      as [[Ho Hs]|Hx].
    + rewrite Ho. simpl.
      destruct (IH (world (interp E (delete_in_batches region bucket
                                       (refs pg)) w db))
                   (store (interp E (delete_in_batches region bucket
                                       (refs pg)) w db))) as [[Ho' Hs']|Hx].
      * left. split; [exact Ho'|]. by rewrite sent_app, Hs, Hs'.
      * right. apply Exists_app. by right.
    + right. destruct (outcome _); simpl; [apply Exists_app|]; auto.
Qed.

Lemma delete_in_batches_small region bucket (l : list object_ref) :
  emits_only (λ ev, (length (refs_of ev) ≤ 1000)%nat)
    (delete_in_batches region bucket l).
Proof.
  unfold delete_in_batches. destruct l as [|x l]; [done|].
  apply emits_only_for_each_in. intros b Hb.
  destruct (batches_cover (x :: l)) as [_ Hsmall].
  rewrite Forall_forall in Hsmall. specialize (Hsmall b Hb).
  simpl. split; [intros _; exact Hsmall|]. by intros [[]|code].
Qed.

Lemma empty_bucket_small bucket region :
  emits_only (λ ev, (length (refs_of ev) ≤ 1000)%nat)
    (empty_bucket bucket region).
Proof.
  unfold empty_bucket, for_pages, call, print.
  emits; try (simpl; lia); apply delete_in_batches_small.
Qed.

(** A run of [empty_bucket] that lists the versions of the bucket goes on
    with the loop over the listed pages. *)
Lemma empty_bucket_trace (bucket : pyval) (region : string) (w w1 : W)
    (db : shelf) (listed : paged versions_page) :
  truthy bucket = true →
  aws E (s3_list_object_versions region (str bucket)) w
  = (Success listed, w1) →
  ∃ rest,
    trace (interp E (empty_bucket bucket region) w db)
    = ([ Printed ("[S3] Vaciando bucket: " +:+ str bucket +:+ "...");
         Called (s3_list_object_versions region (str bucket)) None ]
       ++ trace (interp E
                   (for_each (pages listed)
                      (λ page, delete_in_batches region (str bucket)
                                 (version_refs page))) w1 db)
       ++ rest)%list.
Proof.
  intros Ht Hlist.
  unfold empty_bucket. rewrite Ht. cbn [negb print bind interp].
  rewrite interp_try_except.
  match goal with
  | |- context [catch_run ?r ?h] =>
      destruct (catch_run_prefix r h) as [rest1 Hr1]
  end.
  unfold emit at 1. cbn [trace]. rewrite Hr1. clear Hr1.
  rewrite interp_bind.
  match goal with |- context [seq_run ?r _] => set (rc := r) end.
  pose proof (interp_call (s3_list_object_versions region (str bucket)) w db
              : rc = _) as Hrc.
  rewrite Hlist in Hrc. cbn [fst snd code_of] in Hrc.
  clearbody rc. subst rc.
  unfold seq_run at 1. cbn [outcome world store trace].
  rewrite interp_bind.
  match goal with
  | |- context [trace (seq_run ?r ?k)] =>
      destruct (seq_run_prefix r k) as [rest2 Hr2]
  end.
  rewrite Hr2. clear Hr2.
  unfold for_pages at 1. rewrite interp_bind.
  match goal with
  | |- context [trace (seq_run ?r ?k)] =>
      destruct (seq_run_prefix r k) as [rest3 Hr3]
  end.
  rewrite Hr3. clear Hr3.
  exists (rest3 ++ rest2 ++ rest1)%list. simpl. by rewrite <- !app_assoc.
Qed.

(** C9.  The slices that [empty_bucket] cuts cover the references to delete
    and none exceeds 1000; no batch-delete call of a run carries more than
    1000 references; and in a run that lists the versions of the bucket and
    meets no refused batch deletion, the references sent for deletion start
    with every version and delete marker of every listed page, in order. *)
Theorem C9_bucket_emptied_in_bounded_batches
    (bucket : pyval) (region : string) (w : W) (db : shelf) :
  let r := interp E (empty_bucket bucket region) w db in
  (∀ l, concat (batches l) = l
        ∧ Forall (λ b, (length b ≤ 1000)%nat) (batches l))
  ∧ Forall (λ ev, (length (refs_of ev) ≤ 1000)%nat) (trace r)
  ∧ ∀ listed w1,
      truthy bucket = true →
      aws E (s3_list_object_versions region (str bucket)) w
      = (Success listed, w1) →
      Forall (λ ev, is_failed_delete_objects ev = false) (trace r) →
      ∃ rest,
        sent (trace r)
        = (concat (version_refs <$> pages listed) ++ rest)%list.
Proof.
  intros r. split; [exact batches_cover|]. split.
  { apply emits_only_sound, empty_bucket_small. }
  intros listed w1 Ht Hlist Hok. subst r.
  destruct (empty_bucket_trace bucket region w w1 db listed Ht Hlist)
    as [rest Htr].
  rewrite Htr in Hok |- *.
  destruct (delete_pages_run region (str bucket) version_refs (pages listed)
              w1 db) as [[_ Hs]|Hx].
  - exists (sent rest). rewrite !sent_app, Hs. reflexivity.
  - exfalso. rewrite Exists_exists in Hx. destruct Hx as (ev & Hin & Hev).
    rewrite Forall_forall in Hok. rewrite (Hok ev) in Hev; [done|].
    set_solver.
Qed.

End empty_bucket_run.

(** ** The theorems at concrete runs *)

(** C3 as stated fails.  On a fresh shelve, against a provider that refuses
    the creation of the notification function, the apply run is interrupted
    after the table step has returned the table ARN (the describe call is
    the fifteenth event, answered with success) and after the gateway and
    topic steps: none of the identifiers those steps returned is in the
    shelve, which does hold the bucket names stored before the steps. *)
Lemma C3_counterexample_completed_steps_not_stored :
  let r :=
    interp notify_refused (deploy_script.main "us-east-1" "ops@example.org")
      tt ∅ in
  outcome r = Raised (ClientError Lambda "AccessDeniedException")
  ∧ trace r !! 14 = Some (Called (ddb_describe_table "Inventory") None)
  ∧ store r !! "table-arn" = None
  ∧ store r !! "api-url" = None
  ∧ store r !! "sns-arn" = None
  ∧ store r !! "web-url" = None
  ∧ store r !! "uploads-bucket"
    = Some (VStr "inventory-uploads-20240101-abcd1234").
Proof. vm_compute. repeat split; reflexivity. Qed.

Lemma C4_stored_suffix_reused_witness :
  let db : shelf := {[ "suffix" := VStr "20240101-abcd1234" ]} in
  let r :=
    interp permissive (deploy_script.main "us-east-1" "ops@example.org")
      tt db in
  db !! "suffix" = Some (VStr "20240101-abcd1234")
  ∧ store r !! "uploads-bucket"
    = Some (VStr "inventory-uploads-20240101-abcd1234")
  ∧ store r !! "web-bucket" = Some (VStr "inventory-web-20240101-abcd1234").
Proof.
  intros db r.
  assert (Hdb : db !! "suffix" = Some (VStr "20240101-abcd1234"))
    by (vm_compute; reflexivity).
  split; [exact Hdb|].
  destruct (C4_stored_suffix_reused permissive "us-east-1" "ops@example.org"
              tt db "20240101-abcd1234" Hdb) as (_ & H2 & H3 & _).
  split; [exact H2|exact H3].
Defined.

Lemma C5_reconcile_twice_same_identifier_witness :
  let p :=
    deploy_script.ensure_http_api "us-east-1" "InventoryAPI"
      "arn:aws:lambda:us-east-1:123456789012:function:GetInventoryApiFunction" in
  let r1 := interp Cloud.provider p Cloud.deployed ∅ in
  let r2 := again Cloud.provider p r1 in
  Forall (λ a, ApiId a ≠ "") (Cloud.apis Cloud.deployed)
  ∧ ∃ url, outcome r1 = Returned url ∧ outcome r2 = Returned url
           ∧ List.filter is_create_api (trace r2) = [].
Proof.
  intros p r1 r2.
  assert (Hwf : Forall (λ a, ApiId a ≠ "") (Cloud.apis Cloud.deployed))
    by (repeat constructor; discriminate).
  split; [exact Hwf|].
  destruct (C5_reconcile_twice_same_identifier "us-east-1" Cloud.deployed ∅
              Hwf) as (_ & _ & _ & Hgateway & _).
  apply Hgateway.
Defined.

Lemma C6_configuration_after_confirmed_code_update_witness :
  let zip : zip_bytes := [("lambda_function.py", "def lambda_handler(): pass")] in
  let create :=
    lambda_create_function "LoadInventoryFunction" "python3.11" "role"
      "lambda_function.lambda_handler" zip 30 256
      [("TABLE_NAME", "Inventory")] true in
  let code := lambda_update_function_code "LoadInventoryFunction" zip true in
  let wait := lambda_wait_function_updated "LoadInventoryFunction" in
  let config :=
    lambda_update_function_configuration "LoadInventoryFunction" "role"
      [("TABLE_NAME", "Inventory")] in
  let r :=
    interp all_conflicts
      (deploy_script.ensure_lambda_generic "us-east-1" "LoadInventoryFunction"
         "role" zip (Some [("TABLE_NAME", "Inventory")])
         "lambda_function.lambda_handler") tt ∅ in
  let pre := [ Called sts_get_caller_identity None;
               Called create (Some "ResourceConflictException");
               Called code None; Called wait None ] in
  calls (trace r) = (pre ++ Called config None :: [])%list
  ∧ is_update_configuration (Called config None) = true
  ∧ ∃ pre', pre = (pre' ++ [Called code None; Called wait None])%list.
Proof.
  intros zip create code wait config r pre.
  assert (Hcalls : calls (trace r) = (pre ++ Called config None :: [])%list)
    by (vm_compute; reflexivity).
  split; [exact Hcalls|]. split; [vm_compute; reflexivity|].
  destruct (C6_configuration_after_confirmed_code_update all_conflicts
              "us-east-1" "LoadInventoryFunction" "role" zip
              (Some [("TABLE_NAME", "Inventory")])
              "lambda_function.lambda_handler" tt ∅) as [_ Hconfig].
  destruct (Hconfig pre (Called config None) [] Hcalls eq_refl)
    as (_ & _ & Hpre).
  exact Hpre.
Defined.

Lemma C7_table_created_with_key_and_stream_witness :
  let create :=
    ddb_create_table "Inventory" [("store", "HASH"); ("item", "RANGE")]
      [("store", "S"); ("item", "S")] "PAY_PER_REQUEST"
      {| StreamEnabled := true; StreamViewType := "NEW_AND_OLD_IMAGES" |} in
  let r :=
    interp all_conflicts (deploy_script.ensure_inventory_table "Inventory")
      tt ∅ in
  aws all_conflicts create tt = (Failure "ResourceInUseException", tt)
  ∧ calls (trace r)
    = [ Called create (Some "ResourceInUseException");
        Called (ddb_describe_table "Inventory") None ]
  ∧ outcome r
    = Returned "arn:aws:dynamodb:us-east-1:123456789012:table/Inventory".
Proof.
  intros create r.
  assert (Hcreate : aws all_conflicts create tt
                    = (Failure "ResourceInUseException", tt)) by (vm_compute; reflexivity).
  split; [exact Hcreate|].
  destruct (C7_table_created_with_key_and_stream all_conflicts "Inventory"
              tt ∅) as [_ Hconflict].
  destruct (Hconflict tt Hcreate) as (Hcalls & _ & Hout).
  split; [exact Hcalls|]. exact (Hout _ tt eq_refl).
Defined.

Lemma C9_bucket_emptied_in_bounded_batches_witness :
  let r :=
    interp versioned_bucket (teardown.empty_bucket (VStr "uploads") "us-east-1")
      tt ∅ in
  truthy (VStr "uploads") = true
  ∧ Forall (λ ev, is_failed_delete_objects ev = false) (trace r)
  ∧ ∃ rest,
      sent (trace r)
      = ([ VersionRef "a.csv" "v1"; VersionRef "a.csv" "v2";
           VersionRef "b.csv" "v3"; VersionRef "c.csv" "v4" ] ++ rest)%list.
Proof.
  intros r.
  assert (Hok : Forall (λ ev, is_failed_delete_objects ev = false) (trace r))
    by (vm_compute; repeat constructor).
  split; [vm_compute; reflexivity|]. split; [exact Hok|].
  destruct (C9_bucket_emptied_in_bounded_batches versioned_bucket
              (VStr "uploads") "us-east-1" tt ∅) as (_ & _ & Hsent).
  exact (Hsent _ tt eq_refl eq_refl Hok).
Defined.

Lemma C10_integration_created_on_every_run_witness :
  let arn :=
    "arn:aws:lambda:us-east-1:123456789012:function:GetInventoryApiFunction" in
  let r :=
    interp Cloud.provider
      (deploy_script.ensure_http_api "us-east-1" "InventoryAPI" arn)
      Cloud.deployed ∅ in
  Forall (λ a, ApiId a ≠ "") (Cloud.apis Cloud.deployed)
  ∧ deploy_script.find_api_id (Cloud.apis Cloud.deployed) "InventoryAPI"
    = VStr "api0"
  ∧ outcome r = Returned (api_endpoint "us-east-1" "api0")
  ∧ Cloud.integrations (world r) = [("api0", arn); ("api0", arn)]
  ∧ ∃ pre api_id sid src err post,
      calls (trace r)
      = (pre ++ [ Called (lambda_add_permission arn sid
                            "lambda:InvokeFunction"
                            "apigateway.amazonaws.com" src) err;
                  Called (apigw_create_integration api_id "AWS_PROXY" arn
                            "2.0") None ] ++ post)%list
      ∧ List.filter is_create_integration pre = []
      ∧ List.filter is_create_integration post = []
      ∧ api_endpoint "us-east-1" "api0" = api_endpoint "us-east-1" api_id.
Proof.
  intros arn r.
  assert (Hwf : Forall (λ a, ApiId a ≠ "") (Cloud.apis Cloud.deployed))
    by (repeat constructor; discriminate).
  destruct (C10_integration_created_on_every_run Cloud.provider "us-east-1"
              "InventoryAPI" arn Cloud.deployed ∅) as (_ & _ & Hret & Hcloud).
  destruct (Hcloud Cloud.deployed "api0" Hwf eq_refl) as [Hout Hint].
  split; [exact Hwf|]. split; [vm_compute; reflexivity|].
  split; [exact Hout|].
  split; [exact Hint|]. exact (Hret _ Hout).
Defined.

(** The record and the account that the concrete runs start from are those
    a complete apply run leaves. *)
Lemma deployed_is_reached :
  let r :=
    interp Cloud.provider (deploy_script.main "us-east-1" "ops@example.org")
      Cloud.pristine ∅ in
  outcome r = Returned tt ∧ world r = Cloud.deployed.
Proof. vm_compute. split; reflexivity. Qed.

(** * Further properties of the two scripts *)

(** ** Strings: splitting on a separator *)

Lemma append_cons (c : ascii) (a b : string) :
  String c a +:+ b = String c (a +:+ b).
Proof. reflexivity. Qed.

Lemma append_nil_l (b : string) : "" +:+ b = b.
Proof. reflexivity. Qed.

Lemma append_nil_r (s : string) : s +:+ "" = s.
Proof. induction s as [|c s IH]; [done|]. by rewrite append_cons, IH. Qed.

Lemma append_assoc (a b c : string) : (a +:+ b) +:+ c = a +:+ (b +:+ c).
Proof. induction a as [|x a IH]; [done|]. by rewrite !append_cons, IH. Qed.

(** Splitting on a one-character separator: a piece without the separator
    is read in full. *)
Lemma split_from_char_last (c : ascii) (cur a : string) :
  lacks c a → split_from (String c "") 0 cur a = [cur +:+ a].
Proof.
  revert cur. induction a as [|d a IH]; intros cur Ha; simpl.
  - by rewrite append_nil_r.
  - destruct Ha as [Hd Ha]. destruct (ascii_dec c d) as [->|_]; [done|].
    rewrite IH by done. by rewrite append_assoc.
Qed.

Lemma split_from_char_piece (c : ascii) (cur a rest : string) :
  lacks c a →
  split_from (String c "") 0 cur (a +:+ String c rest)
  = (cur +:+ a) :: split_from (String c "") 0 "" rest.
Proof.
  revert cur. induction a as [|d a IH]; intros cur Ha.
  - rewrite append_nil_l, append_nil_r. simpl.
    destruct (ascii_dec c c); [|done]. by destruct rest.
  - destruct Ha as [Hd Ha]. rewrite append_cons. simpl.
    destruct (ascii_dec c d) as [->|_]; [done|].
    rewrite IH by done. by rewrite append_assoc.
Qed.

(** The first piece of a split starts with what was read so far. *)
Lemma split_from_head (sep cur s : string) :
  ∃ piece tail, split_from sep 0 cur s = (cur +:+ piece) :: tail.
Proof.
  revert cur. induction s as [|c s IH]; intros cur; cbn [split_from].
  - exists "", []. by rewrite append_nil_r.
  - destruct (String.prefix sep (String c s)).
    + eexists "", _. rewrite append_nil_r. reflexivity.
    + destruct (IH (cur +:+ String c "")) as (piece & tail & ->).
      exists (String c piece), tail. by rewrite append_assoc.
Qed.

(** No occurrence of ["https://"] starts inside a piece without colon that a
    dot follows. *)
Lemma no_scheme_inside (a rest : string) :
  lacks ":" a → String.prefix "https://" (a +:+ String "." rest) = false.
Proof.
  intros Ha.
  repeat (destruct a as [|? a]; [reflexivity|]; destruct Ha as [? Ha];
          rewrite append_cons; cbn [String.prefix];
          destruct (ascii_dec _ _) as [<-|?]; [|done]).
  done.
Qed.

Lemma split_scheme_piece (cur a rest : string) :
  lacks ":" a →
  split_from "https://" 0 cur (a +:+ String "." rest)
  = split_from "https://" 0 (cur +:+ a +:+ ".") rest.
Proof.
  revert cur. induction a as [|d a IH]; intros cur Ha.
  - reflexivity.
  - pose proof (no_scheme_inside (String d a) rest Ha) as Hno.
    destruct Ha as [Hd Ha]. rewrite append_cons in *.
    cbn [split_from]. rewrite Hno. rewrite IH by done.
    by rewrite !append_assoc.
Qed.

Lemma split_scheme_url (x : string) :
  split ("https://" +:+ x) "https://" = "" :: split_from "https://" 0 "" x.
Proof. by destruct x. Qed.

Lemma split_from_no_occurrence (sep cur s : string) :
  occurs sep s = false → split_from sep 0 cur s = [cur +:+ s].
Proof.
  revert cur. induction s as [|c s IH]; intros cur Hno.
  - by rewrite append_nil_r.
  - cbn [occurs] in Hno. apply orb_false_iff in Hno as [Hp Hs].
    cbn [split_from]. rewrite Hp, IH by done. by rewrite append_assoc.
Qed.

(** ** Runs taken apart *)

Lemma split_at_event (P : event → Prop) (t1 t2 pre post : list event)
    (ev : event) :
  Forall (λ e, ¬ P e) t1 → P ev →
  (t1 ++ t2 = pre ++ ev :: post)%list →
  ∃ pre', pre = (t1 ++ pre')%list ∧ t2 = (pre' ++ ev :: post)%list.
Proof.
  intros Ht1 Hev. revert pre.
  induction Ht1 as [|x t1 Hx _ IH]; intros pre Heq; simpl in *.
  - by exists pre.
  - destruct pre as [|y pre]; simpl in Heq; injection Heq as Hxy Heq.
    + by subst.
    + subst y. destruct (IH _ Heq) as (pre' & -> & ->). by exists pre'.
Qed.

Lemma split_before_tail (P : event → Prop) (t tail pre post : list event)
    (ev : event) :
  Forall (λ e, ¬ P e) tail → P ev →
  (t ++ tail = pre ++ ev :: post)%list →
  ∃ post', t = (pre ++ ev :: post')%list.
Proof.
  intros Htail Hev. revert pre.
  induction t as [|x t IH]; intros pre Heq; simpl in *.
  - exfalso. rewrite Forall_forall in Htail. apply (Htail ev); [|done].
    rewrite Heq. set_solver.
  - destruct pre as [|y pre]; simpl in Heq; injection Heq as Hxy Heq.
    + subst. by exists t.
    + subst y. destruct (IH _ Heq) as (post' & ->). by exists post'.
Qed.

Lemma no_call_no_upload (t : list event) :
  calls t = [] → Forall (λ e, ¬ (is_upload e = true)) t.
Proof.
  unfold calls. induction t as [|[] t IH]; simpl; intros Hc;
    try discriminate; constructor; auto.
Qed.

Lemma upload_csv_files_emits_uploads (P : event → Prop) (b f : string)
    (names : list string) (found : bool) :
  (∀ path key err, P (Called (s3_upload_file path b key) err)) →
  (∀ m, P (Printed m)) →
  emits_only P (deploy_script.upload_csv_files b f names found).
Proof.
  intros Hc Hp. revert found.
  induction names as [|n names IH]; intros found; simpl; [done|].
  destruct (endswith _ _); [|apply IH].
  split; [apply Hp|]. split; [intros; apply Hc|].
  intros [[]|code]; simpl; [apply IH|]. split; [apply Hp|apply IH].
Qed.

Section runs_apart.
Context {W : Type} (E : environment W).

Lemma interp_try_call_ok {A} (o : aws_op) (f : aws_ret o → prog A)
    (h : exn → prog A) (x : aws_ret o) (w w1 : W) (db : shelf) :
  aws E o w = (Success x, w1) →
  interp E (try_except (bind (call o) f) h) w db
  = emit (Called o None) (interp E (try_except (f x) h) w1 db).
Proof. intros H. simpl. by rewrite H. Qed.

Lemma returned_bind {A B} (p : prog A) (f : A → prog B) (w : W) (db : shelf)
    (b : B) :
  outcome (interp E (bind p f) w db) = Returned b →
  ∃ a t w' db',
    interp E p w db = Run (Returned a) w' db' t
    ∧ outcome (interp E (f a) w' db') = Returned b
    ∧ trace (interp E (bind p f) w db)
      = (t ++ trace (interp E (f a) w' db'))%list.
Proof.
  rewrite interp_bind. unfold seq_run.
  destruct (interp E p w db) as [[a|e] w' db' t]; simpl; [|done].
  intros Hb. by exists a, t, w', db'.
Qed.

Lemma guarded_bind {A B} (P : event → Prop) (p : prog A) (f : A → prog B)
    (w : W) (db : shelf) (pre post : list event) (ev : event) :
  emits_only (λ e, ¬ P e) p → P ev →
  trace (interp E (bind p f) w db) = (pre ++ ev :: post)%list →
  ∃ a pre',
    outcome (interp E p w db) = Returned a
    ∧ pre = (trace (interp E p w db) ++ pre')%list
    ∧ trace (interp E (f a) (world (interp E p w db))
               (store (interp E p w db)))
      = (pre' ++ ev :: post)%list.
Proof.
  intros Hp Hev. rewrite interp_bind. unfold seq_run.
  pose proof (emits_only_sound E _ p w db Hp) as Hall.
  destruct (outcome (interp E p w db)) as [a|e]; simpl; intros Heq.
  - destruct (split_at_event P _ _ _ _ _ Hall Hev Heq) as (pre' & -> & Hrest).
    by exists a, pre'.
  - rewrite <- (app_nil_r (trace _)) in Heq.
    destruct (split_at_event P _ _ _ _ _ Hall Hev Heq) as (pre' & _ & Hnil).
    by destruct pre'.
Qed.

Lemma guarded_bind_skip {A B} (P : event → Prop) (p : prog A)
    (f : A → prog B) (w : W) (db : shelf) (pre post : list event)
    (ev : event) :
  emits_only (λ e, ¬ P e) p → P ev →
  trace (interp E (bind p f) w db) = (pre ++ ev :: post)%list →
  ∃ a t pre' w' db',
    pre = (t ++ pre')%list
    ∧ trace (interp E (f a) w' db') = (pre' ++ ev :: post)%list.
Proof.
  intros Hp Hev Heq.
  destruct (guarded_bind P p f w db pre post ev Hp Hev Heq)
    as (a & pre' & _ & -> & Hrest).
  by eexists a, _, pre', _, _.
Qed.

End runs_apart.

(** ** deploy_script.py: the steps one by one *)

Section deploy_functions.
Import deploy_script.
Context {W : Type} (E : environment W).

(** X1. A bucket is looked up first. When the lookup succeeds nothing else
    is called. When it fails, with whatever error code, the creation is
    attempted, with a location constraint in every region but [us-east-1],
    and a refused creation ends the step with that error. *)
Theorem ensure_bucket_creates_when_lookup_fails
    (region name : string) (w : W) (db : shelf) :
  let r := interp E (ensure_bucket region name) w db in
  let looked := aws E (s3_head_bucket name) w in
  let create :=
    s3_create_bucket name
      (if String.eqb region "us-east-1" then None else Some region) in
  match looked.1 with
  | Success _ =>
      calls (trace r) = [Called (s3_head_bucket name) None]
      ∧ outcome r = Returned tt
  | Failure code =>
      calls (trace r)
      = [ Called (s3_head_bucket name) (Some code);
          Called create (code_of (aws E create looked.2).1) ]
      ∧ outcome r = match (aws E create looked.2).1 with
                    | Success _ => Returned tt
                    | Failure c => Raised (ClientError S3 c)
                    end
  end.
Proof.
  intros r looked create. subst r looked create.
  unfold ensure_bucket, bucket_exists, create_bucket. simpl.
  destruct (aws E (s3_head_bucket name) w) as [[[]|code] w1]; simpl; [done|].
  destruct (String.eqb region "us-east-1"); simpl;
    destruct (aws E _ w1) as [[[]|c] w2]; simpl; done.
Qed.

(** X2. The table step describes the table, and so returns its identifier,
    only once the table is known to exist: after a creation refused because
    the table is in use, or after a creation and a wait that both succeeded.
    A wait that fails ends the step with the waiter's error, and any other
    refusal of the creation with that refusal, before any describe call. *)
Theorem table_described_only_when_it_exists (name : string) (w : W)
    (db : shelf) (pre post : list event) (err : option string) :
  let create :=
    ddb_create_table name [("store", "HASH"); ("item", "RANGE")]
      [("store", "S"); ("item", "S")] "PAY_PER_REQUEST"
      {| StreamEnabled := true; StreamViewType := "NEW_AND_OLD_IMAGES" |} in
  let r := interp E (ensure_inventory_table name) w db in
  calls (trace r)
  = (pre ++ Called (ddb_describe_table name) err :: post)%list →
  post = []
  ∧ (pre = [Called create (Some "ResourceInUseException")]
     ∨ pre = [Called create None; Called (ddb_wait_table_exists name) None]).
Proof.
  intros create r. subst r. unfold ensure_inventory_table. fold create.
  simpl.
  destruct (aws E create w) as [[[]|code] w1]; simpl;
    [ destruct (aws E (ddb_wait_table_exists name) w1) as [[[]|c] w2]; simpl
    | destruct (String.eqb_spec code "ResourceInUseException") as [->|Hne];
      simpl ];
    try (destruct (aws E (ddb_describe_table name) _) as [[d|c'] w3]; simpl);
    intros Heq; do 4 (try destruct pre as [|? pre]); simplify_eq/=;
    try (by destruct pre); (split; [done|]); first [by left|by right].
Qed.

(** X3. The role of the functions is built from the caller's identity: its
    partition is the second colon-separated field of the caller's ARN, its
    account the caller's account. An ARN without a colon has no second
    field: the step raises [IndexError]. *)
Theorem labrole_arn_follows_caller_partition
    (w w1 : W) (db : shelf) (ident : identity) :
  aws E sts_get_caller_identity w = (Success ident, w1) →
  let r := interp E deploy_script.labrole_arn w db in
  (∀ head part rest,
     lacks ":" head → lacks ":" part →
     Arn ident = head +:+ ":" +:+ part +:+ ":" +:+ rest →
     outcome r
     = Returned ("arn:" +:+ part +:+ ":iam::" +:+ Account ident
                 +:+ ":role/LabRole"))
  ∧ (lacks ":" (Arn ident) → outcome r = Raised IndexError).
Proof.
  intros Hid r. subst r. unfold deploy_script.labrole_arn. simpl.
  rewrite Hid. simpl. split.
  - intros head part rest Hh Hp ->. unfold split.
    change (head +:+ ":" +:+ part +:+ ":" +:+ rest)
      with (head +:+ String ":" (part +:+ String ":" rest)).
    rewrite !split_from_char_piece by done. reflexivity.
  - intros Hno. unfold split. rewrite split_from_char_last by done.
    reflexivity.
Qed.

(** X4. The archive of a function holds one file, [lambda_function.py],
    which is the module that the handler of every function names, whatever
    path the source was read from; its content is what was read. When the
    source is not a file the step raises [FileNotFoundError] before reading
    anything. *)
Theorem archive_holds_the_handler_module
    (source_path : string) (w : W) (db : shelf) :
  let r :=
    interp E (deploy_script.build_lambda_zip_bytes (Some source_path)) w db in
  let checked := loc E (os_path_isfile source_path) w in
  if checked.1
  then ∀ zip, outcome r = Returned zip →
         ∃ module rest,
           split deploy_script.default_handler "." = module :: rest
           ∧ zip = [(module +:+ ".py",
                     default "" (loc E (file_read source_path) checked.2).1)]
  else outcome r
       = Raised (FileNotFoundError
                   ("No se encontró el archivo: " +:+ source_path))
       ∧ trace r = [Did (os_path_isfile source_path)].
Proof.
  intros r checked. subst r checked.
  unfold deploy_script.build_lambda_zip_bytes. simpl.
  destruct (loc E (os_path_isfile source_path) w) as [[|] w1]; simpl; [|done].
  destruct (loc E (file_read source_path) w1) as [[code|] w2]; simpl;
    intros zip [= <-]. exists "lambda_function", ["lambda_handler"].
  split; [vm_compute; reflexivity|reflexivity].
Qed.

(** X5. A function step that returns hands back the unversioned identifier
    of the function, built from the region, the caller's account and the
    function name, whether the function was created or updated. A creation
    refused for another reason than a conflict ends the step with that
    refusal, and no update is attempted. *)
Theorem function_step_returns_base_arn
    (region fn role : string) (zip : zip_bytes)
    (envv : option (list (string * string))) (handler : string)
    (ident : identity) (w w1 : W) (db : shelf) :
  aws E sts_get_caller_identity w = (Success ident, w1) →
  let create :=
    lambda_create_function fn "python3.11" role handler zip 30 256
      (default [] envv) true in
  let r :=
    interp E (ensure_lambda_generic region fn role zip envv handler) w db in
  (∀ arn, outcome r = Returned arn →
     arn = "arn:aws:lambda:" +:+ region +:+ ":" +:+ Account ident
           +:+ ":function:" +:+ fn)
  ∧ (∀ code w2,
       aws E create w1 = (Failure code, w2) →
       code ≠ "ResourceConflictException" →
       outcome r = Raised (ClientError Lambda code)
       ∧ calls (trace r)
         = [Called sts_get_caller_identity None; Called create (Some code)]).
Proof.
  intros Hid create r. subst r. unfold ensure_lambda_generic. fold create.
  simpl. rewrite Hid. simpl. split.
  - intros arn. repeat run_step; intros; by simplify_eq.
  - intros code w2 Hc Hne. rewrite Hc. simpl.
    by destruct (String.eqb_spec code "ResourceConflictException").
Qed.

(** X6. The gateway is looked up by name among the listed APIs. When the
    first API of that name has a non-empty identifier, no API is created and
    a step that returns hands back the URL of that API; otherwise the call
    after the listing creates one. *)
Theorem gateway_found_by_name_is_reused
    (region name arn : string) (items : list api_item) (w w1 : W)
    (db : shelf) :
  aws E apigw_get_apis w = (Success items, w1) →
  let r := interp E (ensure_http_api region name arn) w db in
  let found := find_api_id items name in
  (truthy found = true →
     List.filter is_create_api (trace r) = []
     ∧ ∀ url, outcome r = Returned url →
         url = api_endpoint region (str found))
  ∧ (truthy found = false →
     ∃ err rest,
       calls (trace r)
       = Called apigw_get_apis None
           :: Called (apigw_create_api name "HTTP"
                        {| AllowOrigins := ["*"];
                           AllowMethods := ["GET"; "OPTIONS"];
                           AllowHeaders := ["Content-Type"] |}) err
           :: rest).
Proof.
  intros Hls r found. subst r. unfold ensure_http_api. simpl.
  rewrite Hls. simpl. fold found. split; intros Hfound; rewrite Hfound; simpl.
  - repeat run_step; (split; [done|]); intros url Hurl; by simplify_eq.
  - run_call; eauto.
Qed.

(** X7. The uploads bucket is wired to the loader only once the loader may
    be invoked by the storage service: the notification call follows a grant
    that succeeded or was already there, and a two-second pause. A grant
    refused for another reason ends the step before the bucket is touched. *)
Theorem bucket_wired_after_invoke_permission
    (bucket arn fn : string) (w : W) (db : shelf) :
  let grant :=
    lambda_add_permission fn ("S3Invoke-" +:+ bucket) "lambda:InvokeFunction"
      "s3.amazonaws.com" ("arn:aws:s3:::" +:+ bucket) in
  let wire :=
    s3_put_bucket_notification_configuration bucket
      [ {| LambdaFunctionArn := arn;
           Events := ["s3:ObjectCreated:*"];
           FilterRules := [("suffix", ".csv")] |} ] in
  let r := interp E (configure_s3_lambda_trigger bucket arn fn) w db in
  let granted := aws E grant w in
  match code_of granted.1 with
  | Some code =>
      if String.eqb code "ResourceConflictException"
      then ∃ err rest,
             trace r = Called grant (Some code) :: Did (time_sleep 2)
                         :: Called wire err :: rest
             ∧ calls rest = []
      else trace r = [Called grant (Some code)]
           ∧ outcome r = Raised (ClientError Lambda code)
  | None =>
      ∃ err rest,
        trace r = Called grant None :: Did (time_sleep 2)
                    :: Called wire err :: rest
        ∧ calls rest = []
  end.
Proof.
  intros grant wire r granted. subst r granted.
  unfold configure_s3_lambda_trigger. fold grant wire. simpl.
  destruct (aws E grant w) as [[[]|code] w1]; simpl.
  - destruct (aws E wire _) as [[[]|c] w2]; simpl; by eexists _, _.
  - destruct (String.eqb code "ResourceConflictException"); simpl; [|done].
    destruct (aws E wire _) as [[[]|c] w2]; simpl; by eexists _, _.
Qed.

(** X8. Without the page to publish the site step calls nothing and returns
    no URL. With it, a refusal to lift the public-access block is only
    reported: the policy call follows all the same. A step that returns a
    URL has put the page with the API URL in place of the placeholder, and
    the URL is that of the bucket's website in the region. *)
Theorem site_step_tolerates_block_refusal
    (region web api_url path : string) (w : W) (db : shelf) :
  let r := interp E (deploy_static_site region web api_url path) w db in
  let found := loc E (os_path_exists path) w in
  let host :=
    if String.eqb region "us-east-1"
    then "s3-website-us-east-1.amazonaws.com"
    else "s3-website-" +:+ region +:+ ".amazonaws.com" in
  if found.1
  then
    (∃ e1 e2 rest policy,
       calls (trace r)
       = Called (s3_put_public_access_block web false false false false) e1
           :: Called (s3_put_bucket_policy web policy) e2 :: rest)
    ∧ ∀ url, outcome r = Returned url →
        url = VStr ("http://" +:+ web +:+ "." +:+ host +:+ "/")
        ∧ ∃ content,
            Called (s3_put_object web "index.html"
                      (replace content "REPLACE_ME_WITH_YOUR_INVOKE_URL"
                         api_url)
                      "text/html; charset=utf-8") None ∈ trace r
  else calls (trace r) = [] ∧ outcome r = Returned VNone.
Proof.
  intros r found host. subst r found host.
  unfold deploy_static_site, disable_bucket_bpa, apply_web_public_policy.
  simpl. destruct (loc E (os_path_exists path) w) as [[|] w0]; simpl; [|done].
  destruct (aws E (s3_put_public_access_block web false false false false) w0)
    as [[[]|c0] w1]; simpl;
    (destruct (aws E (s3_put_bucket_policy web _) w1) as [[[]|c1] w2]; simpl;
     (split; [by eexists _, _, _, _|]);
     [ destruct (loc E (file_read path) w2) as [[content|] w3]; simpl;
       [ repeat run_call; intros url Hurl; simplify_eq;
         (split; [done|]); exists content; set_solver
       | done ]
     | done ]).
Qed.

Lemma upload_csv_files_run (b f : string) (names : list string)
    (found : bool) (w : W) (db : shelf) :
  let r := interp E (deploy_script.upload_csv_files b f names found) w db in
  outcome r = Returned (found || existsb is_csv names)
  ∧ omap op_of (trace r)
    = (λ n, s3_upload_file (f +:+ "/" +:+ n) b n) <$> List.filter is_csv names.
Proof.
  revert found w. induction names as [|n names IH]; intros found w; simpl.
  - by rewrite orb_false_r.
  - unfold is_csv at 1 3. destruct (endswith (lower n) ".csv") eqn:Hn.
    + destruct (aws E (s3_upload_file (f +:+ "/" +:+ n) b n) w)
        as [[[]|c] w'] eqn:Hup; simpl; rewrite Hup; simpl;
        destruct (IH true w') as [HA HB];
        (split; [by rewrite HA, orb_true_r | f_equal; exact HB]).
    + simpl. apply IH.
Qed.

(** X9. When the data folder is listed, the calls of the seeding step are
    exactly the uploads of the listed names that end in [.csv] whatever
    their case, in listing order, each from [folder/name] to the key [name]
    of the bucket; a refused upload stops neither the later uploads nor the
    run. *)
Theorem upload_initial_data_uploads_csv_names
    (bucket folder : string) (names : list string) (w w1 w2 : W)
    (db : shelf) :
  loc E (os_path_exists folder) w = (true, w1) →
  loc E (os_listdir folder) w1 = (Some names, w2) →
  let r := interp E (deploy_script.upload_initial_data bucket folder) w db in
  outcome r = Returned tt
  ∧ omap op_of (trace r)
    = (λ n, s3_upload_file (folder +:+ "/" +:+ n) bucket n)
        <$> List.filter is_csv names.
Proof.
  intros Hex Hls r. subst r. unfold deploy_script.upload_initial_data.
  cbn [bind env interp emit outcome trace world store print].
  rewrite Hex. cbn [fst snd negb bind interp emit outcome trace world store].
  rewrite Hls. cbn [fst snd outcome trace omap op_of].
  rewrite interp_bind.
  destruct (upload_csv_files_run bucket folder names false w2 db)
    as [Hout Hops].
  unfold seq_run. rewrite Hout. cbn [orb].
  destruct (existsb is_csv names); simpl; rewrite omap_app, Hops; simpl;
    by rewrite app_nil_r.
Qed.

End deploy_functions.

(** ** deploy_script.py: the run as a whole *)

Section deploy_whole.
Import deploy_script.
Context {W : Type} (E : environment W).

(** X10. On a run that finds no suffix in the shelve, the suffix is the day,
    a dash and the first eight characters of the random hexadecimal string.
    The suffix and the two bucket names derived from it are written to the
    shelve before the first provider call, which asks for the uploads
    bucket, and they are in the shelve when the run ends, however it ends. *)
Theorem fresh_run_records_names_before_first_call (region email : string)
    (w : W) (db : shelf) :
  db !! "suffix" = None →
  let day := (loc E (time_strftime "%Y%m%d") w).1 in
  let hex := (loc E uuid4_hex (loc E (time_strftime "%Y%m%d") w).2).1 in
  let s := day +:+ "-" +:+ String.substring 0 8 hex in
  let r := interp E (main region email) w db in
  (∃ err rest,
     trace r
     = [ DbRead "suffix" None;
         Did (time_strftime "%Y%m%d");
         Did uuid4_hex;
         DbWrote "suffix" (VStr s);
         Printed ("=== INICIANDO NUEVO DESPLIEGUE (Sufijo: " +:+ s +:+ ") ===");
         DbWrote "uploads-bucket" (VStr ("inventory-uploads-" +:+ s));
         DbWrote "web-bucket" (VStr ("inventory-web-" +:+ s));
         Called (s3_head_bucket ("inventory-uploads-" +:+ s)) err ] ++ rest)%list
  ∧ store r !! "suffix" = Some (VStr s)
  ∧ store r !! "uploads-bucket" = Some (VStr ("inventory-uploads-" +:+ s))
  ∧ store r !! "web-bucket" = Some (VStr ("inventory-web-" +:+ s)).
Proof.
  intros Hno day hex s r.
  assert (Hfresh :
    interp E resolve_suffix w db
    = Run (Returned (VStr s))
        (loc E uuid4_hex (loc E (time_strftime "%Y%m%d") w).2).2
        (<["suffix" := VStr s]> db)
        [ DbRead "suffix" None; Did (time_strftime "%Y%m%d"); Did uuid4_hex;
          DbWrote "suffix" (VStr s);
          Printed ("=== INICIANDO NUEVO DESPLIEGUE (Sufijo: " +:+ s
                   +:+ ") ===") ]).
  { unfold resolve_suffix, unique_suffix. simpl. rewrite Hno. reflexivity. }
  subst r. unfold main. rewrite interp_bind, Hfresh. unfold seq_run.
  cbn [outcome world store trace].
  change (uploads_bucket_name (VStr s)) with ("inventory-uploads-" +:+ s).
  change (web_bucket_name (VStr s)) with ("inventory-web-" +:+ s).
  set (w2 := (loc E uuid4_hex _).2).
  set (u := "inventory-uploads-" +:+ s). set (wb := "inventory-web-" +:+ s).
  set (db1 := <["web-bucket" := VStr wb]>
                (<["uploads-bucket" := VStr u]> (<["suffix" := VStr s]> db))).
  set (tail := λ ids : string * pyval * string * string, _).
  change (interp E (bind (db_setitem "uploads-bucket" (VStr u)) _) w2 _)
    with (emit (DbWrote "uploads-bucket" (VStr u))
            (emit (DbWrote "web-bucket" (VStr wb))
               (interp E
                  (bind (provision region email u wb
                           (sns_topic_name_of (VStr s))) tail) w2 db1))).
  cbn [emit outcome world store trace]. rewrite interp_bind.
  set (body := interp E (provision region email u wb _) w2 db1).
  destruct (provision_first_call E region email u wb
              (sns_topic_name_of (VStr s)) w2 db1) as (err & rest & Hfirst).
  fold body in Hfirst.
  pose proof (store_unchanged E _ w2 db1
                (provision_no_db_write region email u wb
                   (sns_topic_name_of (VStr s)))) as Hstore.
  fold body in Hstore.
  assert (Hdb1 : db1 !! "suffix" = Some (VStr s)
                 ∧ db1 !! "uploads-bucket" = Some (VStr u)
                 ∧ db1 !! "web-bucket" = Some (VStr wb)).
  { unfold db1. split; [rewrite !lookup_insert_ne by done; apply lookup_insert_eq|].
    split; [rewrite lookup_insert_ne by done; apply lookup_insert_eq|].
    apply lookup_insert_eq. }
  unfold seq_run. destruct (outcome body) as [[[[api_url web_url] table_arn] sns_arn]|e];
    cbn [outcome world store trace]; rewrite Hfirst.
  - split; [eexists err, _; reflexivity|].
    subst tail. cbn [interp bind db_setitem print emit store].
    rewrite Hstore. rewrite !lookup_insert_ne by done. exact Hdb1.
  - split; [eexists err, _; reflexivity|]. rewrite Hstore. exact Hdb1.
Qed.

Lemma deploy_main_emits (P : event → Prop) (region email : string) :
  (∀ o err, is_removal (Called o err) = false → P (Called o err)) →
  (∀ l, P (Did l)) → (∀ m, P (Printed m)) →
  (∀ k v, P (DbRead k v)) → (∀ k v, P (DbWrote k v)) →
  emits_only P (deploy_script.main region email).
Proof.
  intros Hc Hl Hp Hr Hw.
  unfold deploy_script.main, deploy_script.resolve_suffix,
    deploy_script.unique_suffix, deploy_script.provision,
    deploy_script.ensure_bucket, deploy_script.bucket_exists,
    deploy_script.create_bucket, deploy_script.ensure_inventory_table,
    deploy_script.labrole_arn, deploy_script.build_lambda_zip_bytes,
    deploy_script.ensure_lambda_generic, deploy_script.ensure_http_api,
    deploy_script.ensure_sns_topic, deploy_script.subscribe_email,
    deploy_script.configure_s3_lambda_trigger,
    deploy_script.create_dynamodb_trigger, deploy_script.deploy_static_site,
    deploy_script.upload_initial_data, deploy_script.disable_bucket_bpa,
    deploy_script.apply_web_public_policy, call, env, print, index,
    db_contains, db_getitem, db_setitem.
  emits; auto.
  apply upload_csv_files_emits_uploads; auto.
Qed.

(** X11. An apply run removes nothing: it issues no deletion call and never
    clears the shelve, also when it runs over resources that exist. *)
Theorem apply_removes_nothing (region email : string) (w : W) (db : shelf) :
  Forall (λ ev, is_removal ev = false)
    (trace (interp E (deploy_script.main region email) w db)).
Proof. apply emits_only_sound, deploy_main_emits; done. Qed.

Lemma configure_returned_wired (bucket arn fn : string) (w : W) (db : shelf) :
  outcome (interp E (configure_s3_lambda_trigger bucket arn fn) w db)
  = Returned tt →
  ∃ cfg, Called (s3_put_bucket_notification_configuration bucket cfg) None
         ∈ trace (interp E (configure_s3_lambda_trigger bucket arn fn) w db).
Proof.
  unfold configure_s3_lambda_trigger. simpl.
  repeat run_step; intros; simplify_eq; eexists;
    do 2 apply list_elem_of_further; apply list_elem_of_here.
Qed.

Ltac no_upload :=
  unfold ensure_bucket, bucket_exists, create_bucket,
    ensure_inventory_table, labrole_arn, build_lambda_zip_bytes,
    ensure_lambda_generic, ensure_http_api, ensure_sns_topic,
    subscribe_email, configure_s3_lambda_trigger, create_dynamodb_trigger,
    deploy_static_site, disable_bucket_bpa,
    apply_web_public_policy, call, env, print, index;
  emits; try done.

Lemma provision_uploads_after_wiring (region email u wb t : string)
    (w : W) (db : shelf) (pre post : list event) (ev : event) :
  trace (interp E (provision region email u wb t) w db)
  = (pre ++ ev :: post)%list →
  is_upload ev = true →
  (∃ cfg, Called (s3_put_bucket_notification_configuration u cfg) None ∈ pre)
  ∧ ∃ path key, ev = Called (s3_upload_file path u key) None
                ∨ ∃ c, ev = Called (s3_upload_file path u key) (Some c).
Proof.
  intros Htrace Hev. split.
  - unfold provision in Htrace.
    do 17 (apply (guarded_bind_skip E (λ e, is_upload e = true)) in Htrace
             as (? & ? & ? & ? & ? & -> & Htrace);
           [|by no_upload|exact Hev]).
    apply (guarded_bind E (λ e, is_upload e = true)) in Htrace
      as ([] & ? & Hret & -> & _); [|by no_upload|exact Hev].
    destruct (configure_returned_wired _ _ _ _ _ Hret) as [cfg Hcfg].
    exists cfg. do 17 (apply elem_of_app; right). apply elem_of_app. by left.
  - assert (Hin : ev ∈ trace (interp E (provision region email u wb t) w db))
      by (rewrite Htrace; set_solver).
    pose proof (emits_only_sound E
      (λ e, is_upload e = true →
            ∃ path key, e = Called (s3_upload_file path u key) None
                        ∨ ∃ c, e = Called (s3_upload_file path u key) (Some c))
      (provision region email u wb t) w db) as Hall.
    rewrite Forall_forall in Hall. apply Hall; [|done|done].
    clear. unfold provision, upload_initial_data. no_upload.
    apply upload_csv_files_emits_uploads; [|done].
    intros path key [c|] _; eexists _, _; [right|left]; eauto.
Qed.

(** X12. Every upload of an apply run goes to the uploads bucket of the run,
    and comes after a call of the same run that configured the notification
    of that bucket and succeeded: no file is uploaded to a bucket that is
    not wired to the loader. *)
Theorem uploads_go_to_the_wired_bucket (region email : string)
    (w : W) (db : shelf) (pre post : list event) (ev : event) :
  let r := interp E (main region email) w db in
  trace r = (pre ++ ev :: post)%list →
  is_upload ev = true →
  ∃ bucket path key cfg,
    op_of ev = Some (s3_upload_file path bucket key)
    ∧ store r !! "uploads-bucket" = Some (VStr bucket)
    ∧ Called (s3_put_bucket_notification_configuration bucket cfg) None
      ∈ pre.
Proof.
  intros r Htrace Hev.
  destruct (deploy_main_shape E region email w db)
    as (suffix & t0 & w1 & Hc & _ & _ & _ & Hb).
  fold r in Hb. cbv zeta in Hb.
  set (u := uploads_bucket_name suffix) in *.
  set (db1 := <["web-bucket" := _]> (<["uploads-bucket" := VStr u]> _)) in *.
  set (body := interp E _ w1 db1) in *.
  assert (Hdb1 : db1 !! "uploads-bucket" = Some (VStr u)).
  { unfold db1. rewrite lookup_insert_ne by done. apply lookup_insert_eq. }
  assert (Hhead : Forall (λ e, ¬ (is_upload e = true))
            (t0 ++ [DbWrote "uploads-bucket" (VStr u);
                    DbWrote "web-bucket" (VStr (web_bucket_name suffix))])).
  { apply Forall_app. split; [by apply no_call_no_upload|].
    by repeat constructor. }
  assert (Hbody : store r !! "uploads-bucket" = Some (VStr u)
                  ∧ ∃ pre' post', pre = (t0 ++ [DbWrote "uploads-bucket" (VStr u);
                        DbWrote "web-bucket" (VStr (web_bucket_name suffix))]
                        ++ pre')%list
                     ∧ trace body = (pre' ++ ev :: post')%list).
  { destruct (outcome body) as [[[[api_url web_url] table_arn] sns_arn]|e].
    - destruct Hb as (_ & Hst & Htr). split.
      { rewrite Hst. by rewrite !lookup_insert_ne by done. }
      rewrite Htr in Htrace.
      destruct (split_at_event (λ e, is_upload e = true) _ _ _ _ _
                  Hhead Hev Htrace) as (pre' & -> & Hrest).
      apply (split_before_tail (λ e, is_upload e = true)) in Hrest
        as [post' Hrest]; [|by repeat constructor|done].
      exists pre', post'. by rewrite <- app_assoc.
    - destruct Hb as (_ & Hst & Htr). split; [by rewrite Hst|].
      rewrite Htr in Htrace.
      destruct (split_at_event (λ e, is_upload e = true) _ _ _ _ _
                  Hhead Hev Htrace) as (pre' & -> & Hrest).
      exists pre', post. by rewrite <- app_assoc. }
  destruct Hbody as (Hst & pre' & post' & -> & Hrest).
  destruct (provision_uploads_after_wiring _ _ _ _ _ _ _ _ _ _ Hrest Hev)
    as [[cfg Hcfg] (path & key & Hop)].
  exists u, path, key, cfg. split; [|split; [exact Hst|]].
  - by destruct Hop as [->|[c ->]].
  - apply elem_of_app; right. apply elem_of_app; right. exact Hcfg.
Qed.

Lemma provision_topic_flow (region email u wb t : string) (w : W)
    (db : shelf) (api_url : string) (web_url : pyval)
    (table_arn arn : string) :
  outcome (interp E (provision region email u wb t) w db)
  = Returned (api_url, web_url, table_arn, arn) →
  let tr := trace (interp E (provision region email u wb t) w db) in
  Called (sns_subscribe arn "email" email) None ∈ tr
  ∧ Exists (λ ev, (∃ role zip,
                 ev = Called (lambda_create_function NOTIFY_FUNC_NAME
                                "python3.11" role default_handler zip 30 256
                                [("TOPIC_ARN", arn)] true) None)
              ∨ ∃ role,
                  ev = Called (lambda_update_function_configuration
                                 NOTIFY_FUNC_NAME role [("TOPIC_ARN", arn)])
                         None) tr.
Proof.
  intros H tr. subst tr. unfold provision in *.
  do 12 (apply returned_bind in H as (? & ? & ? & ? & _ & H & ->)).
  apply returned_bind in H as (arn' & t13 & w13 & db13 & _ & H & ->).
  apply returned_bind in H as ([] & t14 & w14 & db14 & Hsub & H & ->).
  apply returned_bind in H as (zip & t15 & w15 & db15 & _ & H & ->).
  apply returned_bind in H as (narn & t16 & w16 & db16 & Hfn & H & ->).
  do 9 (apply returned_bind in H as (? & ? & ? & ? & _ & H & ->)).
  simpl in H. injection H as _ _ _ ->.
  assert (Hin14 : Called (sns_subscribe arn "email" email) None ∈ t14).
  { revert Hsub. unfold subscribe_email. simpl.
    destruct (aws E _ w13) as [[[]|c] w']; simpl; [|done].
    intros [= _ _ <-]. apply list_elem_of_here. }
  assert (Hex16 : Exists (λ ev, (∃ role zip,
                 ev = Called (lambda_create_function NOTIFY_FUNC_NAME
                                "python3.11" role default_handler zip 30 256
                                [("TOPIC_ARN", arn)] true) None)
              ∨ ∃ role,
                  ev = Called (lambda_update_function_configuration
                                 NOTIFY_FUNC_NAME role [("TOPIC_ARN", arn)])
                         None) t16).
  { revert Hfn. unfold ensure_lambda_generic. simpl.
    repeat run_step; intros [= _ _ _ <-];
      repeat first
        [ apply Exists_cons_hd;
          first [left; by eexists _, _ | right; by eexists]
        | apply Exists_cons_tl ]. }
  split.
  - do 13 (apply elem_of_app; right). apply elem_of_app. by left.
  - do 15 (apply Exists_app; right). apply Exists_app. by left.
Qed.

(** X13. An apply run that returns has subscribed the address to the topic
    it stores under [sns-arn], and has handed that same topic to the notify
    function as [TOPIC_ARN], at its creation or in the update of its
    configuration. *)
Theorem stored_topic_is_subscribed_and_handed_on (region email : string)
    (w : W) (db : shelf) :
  let r := interp E (main region email) w db in
  outcome r = Returned tt →
  ∃ arn,
    store r !! "sns-arn" = Some (VStr arn)
    ∧ Called (sns_subscribe arn "email" email) None ∈ trace r
    ∧ Exists (λ ev, (∃ role zip,
                 ev = Called (lambda_create_function NOTIFY_FUNC_NAME
                                "python3.11" role default_handler zip 30 256
                                [("TOPIC_ARN", arn)] true) None)
              ∨ ∃ role,
                  ev = Called (lambda_update_function_configuration
                                 NOTIFY_FUNC_NAME role [("TOPIC_ARN", arn)])
                         None)
        (trace r).
Proof.
  intros r Hret.
  destruct (deploy_main_shape E region email w db)
    as (suffix & t0 & w1 & _ & _ & _ & _ & Hb).
  fold r in Hb. cbv zeta in Hb.
  match type of Hb with
  | match outcome ?b with _ => _ end => set (body := b) in *
  end.
  pose proof (provision_topic_flow region email
                (uploads_bucket_name suffix) (web_bucket_name suffix)
                (sns_topic_name_of suffix) w1) as Hflow.
  destruct (outcome body) as [[[[api_url web_url] table_arn] arn]|e] eqn:Hout.
  - destruct Hb as (_ & Hst & Htr).
    destruct (Hflow _ _ _ _ _ Hout) as [Hsub Hfn]. fold body in Hsub, Hfn.
    exists arn. rewrite Hst, Htr. split; [apply lookup_insert_eq|].
    split.
    + apply elem_of_app; right. apply elem_of_app. by left.
    + apply Exists_app; right. apply Exists_app. by left.
  - destruct Hb as (Hraised & _). rewrite Hraised in Hret. discriminate.
Qed.

End deploy_whole.

(** ** teardown.py: the stored URL of the gateway *)

Lemma endpoint_api_id (region api_id : string) :
  lacks ":" api_id → lacks "." api_id →
  ∃ rest tail1 tail0,
    split (api_endpoint region api_id) "https://" = "" :: rest :: tail1
    ∧ split rest "." = api_id :: tail0.
Proof.
  intros Hc Hd. unfold api_endpoint. rewrite split_scheme_url.
  change (api_id +:+ ".execute-api." +:+ region +:+ ".amazonaws.com")
    with (api_id +:+ String "." ("execute-api." +:+ region +:+ ".amazonaws.com")).
  rewrite split_scheme_piece by done.
  destruct (split_from_head "https://" ("" +:+ api_id +:+ ".")
              ("execute-api." +:+ region +:+ ".amazonaws.com"))
    as (piece & tail & ->).
  eexists _, tail, _. split; [reflexivity|].
  rewrite append_nil_l, append_assoc. unfold split.
  change ("." +:+ piece) with (String "." piece).
  by rewrite split_from_char_piece.
Qed.

(** X14. The gateway step of apply hands back the URL
    [https://{id}.execute-api...]; teardown, given that URL, issues its one
    call for the deletion of the API [id] and returns, whatever the provider
    answers. Identifiers are those without colon and dot. *)
Theorem teardown_recovers_api_id_from_endpoint {W} (E : environment W)
    (region api_id : string) (w : W) (db : shelf) :
  lacks ":" api_id → lacks "." api_id →
  let r :=
    interp E (teardown.delete_api_gateway (VStr (api_endpoint region api_id)))
      w db in
  outcome r = Returned tt
  ∧ calls (trace r)
    = [Called (apigw_delete_api api_id)
         (code_of (aws E (apigw_delete_api api_id) w).1)]
  ∧ world r = (aws E (apigw_delete_api api_id) w).2.
Proof.
  intros Hc Hd r. subst r. unfold teardown.delete_api_gateway.
  destruct (endpoint_api_id region api_id Hc Hd)
    as (rest & tail1 & tail0 & Hurl & Hrest).
  replace (truthy (VStr (api_endpoint region api_id))) with true
    by (unfold api_endpoint; reflexivity).
  cbn [negb str]. rewrite Hurl. unfold index at 1. cbn [lookup list_lookup].
  simpl. rewrite Hrest. simpl.
  destruct (aws E (apigw_delete_api api_id) w) as [[?|c] w1]; simpl; done.
Qed.

(** X15. A stored URL in which [https://] does not occur names no API for
    teardown: the gateway step calls nothing, reports, and returns, and the
    API stays. *)
Theorem gateway_url_without_scheme_deletes_nothing {W} (E : environment W)
    (url : string) (w : W) (db : shelf) :
  occurs "https://" url = false →
  let r := interp E (teardown.delete_api_gateway (VStr url)) w db in
  outcome r = Returned tt ∧ calls (trace r) = [] ∧ world r = w.
Proof.
  intros Hno r. subst r. unfold teardown.delete_api_gateway.
  destruct (truthy (VStr url)); [|done]. cbn [negb str].
  unfold split. rewrite split_from_no_occurrence by done. done.
Qed.

(** ** teardown.py: triggers and buckets *)

Section teardown_steps.
Import teardown.
Context {W : Type} (E : environment W).

Lemma delete_mappings_run (fn : string) (ms : list event_source_mapping)
    (w : W) (db : shelf) :
  let r :=
    interp E
      (for_each ms
         (λ m, call (lambda_delete_event_source_mapping (UUID m)) ;;
               print ("[Lambda] Trigger eliminado para " +:+ fn
                      +:+ " (UUID: " +:+ UUID m +:+ ")")))
      w db in
  let ds := trigger_deletions (trace r) in
  (outcome r = Returned tt ∧ ds = (λ m, (UUID m, None)) <$> ms)
  ∨ ∃ removed m c rest,
      outcome r = Raised (ClientError Lambda c)
      ∧ ms = (removed ++ m :: rest)%list
      ∧ ds = (((λ m, (UUID m, None)) <$> removed) ++ [(UUID m, Some c)])%list
      ∧ ∃ pre,
          trace r
          = (pre ++ [Called (lambda_delete_event_source_mapping (UUID m))
                       (Some c)])%list.
Proof.
  revert w. induction ms as [|m ms IH]; intros w; simpl.
  - by left.
  - destruct (aws E (lambda_delete_event_source_mapping (UUID m)) w)
      as [[[]|c] w'] eqn:Hdel; simpl.
    + destruct (IH w')
        as [[Hout Hds]
           |(removed & m' & c & rest & Hout & Hms & Hds & pre & Hlast)].
      * left. split; [done|]. f_equal. exact Hds.
      * right. exists (m :: removed), m', c, rest.
        split; [done|]. split; [by rewrite Hms|]. split.
        { simpl. f_equal. exact Hds. }
        eexists (_ :: _ :: pre). simpl. do 2 f_equal. exact Hlast.
    + right. exists [], m, c, ms. repeat split; try done. by exists [].
Qed.

(** X16. The triggers of a function are deleted in listing order. Either
    every deletion succeeds and the step returns; or the
    first deletion that fails ends the loop: the mappings listed after it
    are not attempted and nothing is reported, the failed call being the
    last event of the step. *)
Theorem delete_triggers_stops_at_first_refusal (fn : string)
    (ms : list event_source_mapping) (w w1 : W) (db : shelf) :
  aws E (lambda_list_event_source_mappings fn) w = (Success ms, w1) →
  let r := interp E (delete_triggers fn) w db in
  let ds := trigger_deletions (trace r) in
  (outcome r = Returned tt ∧ ds = (λ m, (UUID m, None)) <$> ms)
  ∨ ∃ removed m c rest,
      ms = (removed ++ m :: rest)%list
      ∧ ds = (((λ m, (UUID m, None)) <$> removed)
              ++ [(UUID m, Some c)])%list
      ∧ ∃ pre,
          trace r
          = (pre ++ [Called (lambda_delete_event_source_mapping (UUID m))
                       (Some c)])%list.
Proof.
  intros Hls r. subst r. unfold delete_triggers.
  erewrite interp_try_call_ok by exact Hls. rewrite interp_try_except.
  destruct (delete_mappings_run fn ms w1 db)
    as [[Hout Hds]|(removed & m & c & rest & Hout & Hms & Hds & pre & Hlast)];
    unfold catch_run, emit; cbn [outcome trace world store];
    rewrite Hout; cbn [outcome trace world store interp].
  - left. split; [done|]. exact Hds.
  - right. exists removed, m, c, rest. split; [done|].
    rewrite app_nil_r. split; [exact Hds|].
    exists (Called (lambda_list_event_source_mappings fn) None :: pre).
    simpl. f_equal. exact Hlast.
Qed.

(** Emptying a bucket goes through the client of the region it is given. *)
Lemma empty_bucket_region (b : pyval) (region : string) :
  emits_only (λ ev, ∀ rg, client_region ev = Some rg → rg = region)
    (empty_bucket b region).
Proof.
  assert (Hbatch : ∀ l,
    emits_only (λ ev, ∀ rg, client_region ev = Some rg → rg = region)
      (delete_in_batches region (str b) l)).
  { intros [|x l]; [exact I|]. unfold delete_in_batches.
    apply emits_only_for_each. intros batch. simpl.
    split; [|by intros []]. intros err rg [= <-]. done. }
  unfold empty_bucket, for_pages. emits; try done; try apply Hbatch;
    intros; simplify_eq; done.
Qed.

(** X17. Once the location of a bucket is known, the bucket is emptied and
    deleted through a client of its own region: [us-east-1] when the
    location is absent, empty or [US], the location otherwise. A step that
    returns has issued the deletion of the bucket, also when the provider
    refused to list or to delete its objects. *)
Theorem delete_bucket_through_its_region (name : string)
    (location : option string) (w w1 : W) (db : shelf) :
  name ≠ "" →
  aws E (s3_get_bucket_location name) w = (Success location, w1) →
  let region := region_of_location location in
  let r := interp E (delete_bucket (VStr name)) w db in
  Forall (λ ev, ∀ rg, client_region ev = Some rg → rg = region) (trace r)
  ∧ (outcome r = Returned tt →
     Exists (λ ev, op_of ev = Some (s3_delete_bucket region name))
       (trace r)).
Proof.
  intros Hname Hloc region r. subst r. unfold delete_bucket.
  replace (truthy (VStr name)) with true
    by (simpl; by destruct (String.eqb_spec name "")).
  cbn [negb str]. erewrite interp_try_call_ok by exact Hloc.
  fold region. cbn [emit trace outcome]. split.
  - apply Forall_cons. split; [done|]. apply emits_only_sound.
    apply emits_only_try_except.
    + apply emits_only_bind; [apply empty_bucket_region|]. intros _.
      emits; intros; simplify_eq; done.
    + intros e. emits; done.
  - intros _. apply Exists_cons_tl. apply must_emit_sound.
    apply must_emit_try_except. apply must_emit_bind_r.
    + apply empty_bucket_never_raises.
    + intros _. simpl. by left.
Qed.

End teardown_steps.

(** ** teardown.py: the order of the deletions, and what a run that returns
    has done *)

Lemma rising_mono (n m : nat) (l : list nat) :
  (n ≤ m)%nat → rising m l → rising n l.
Proof.
  destruct l as [|x l]; simpl; [done|]. intros ? [? ?]. split; [lia|done].
Qed.

Lemma rising_app_const (n : nat) (l1 l2 : list nat) :
  Forall (λ x, x = n) l1 → rising n l2 → rising n (l1 ++ l2).
Proof.
  intros Hl1 Hl2. induction Hl1 as [|x l1 -> _ IH]; simpl; [done|].
  split; [lia|exact IH].
Qed.

Lemma rising_lookup (n : nat) (l : list nat) (i j x y : nat) :
  rising n l → (i < j)%nat → l !! i = Some x → l !! j = Some y → (x ≤ y)%nat.
Proof.
  assert (Hlow : ∀ l n j y, rising n l → l !! j = Some y → (n ≤ y)%nat).
  { clear. induction l as [|x l IH]; intros n [|j] y; simpl; try done.
    - intros [? _] [= ->]. done.
    - intros [? Hl] Hy. specialize (IH _ _ _ Hl Hy). lia. }
  revert n i j. induction l as [|z l IH]; intros n i j; [done|].
  intros [_ Hl] Hij. destruct j as [|j]; [lia|]. destruct i as [|i]; simpl.
  - intros [= ->] Hy. exact (Hlow _ _ _ _ Hl Hy).
  - intros Hx Hy. apply (IH z i j); [done|lia|done|done].
Qed.

Section teardown_order.
Import teardown.
Context {W : Type} (E : environment W).

Lemma phase_bind {A B} (n : nat) (p : prog A) (f : A → prog B) :
  emits_only (λ ev, is_call ev = true → teardown_phase ev = n) p →
  (∀ a w db,
     rising n (teardown_phase <$> calls (trace (interp E (f a) w db)))) →
  ∀ w db, rising n (teardown_phase <$> calls (trace (interp E (bind p f) w db))).
Proof.
  intros Hp Hf w db. rewrite interp_bind.
  pose proof (emits_only_sound E _ p w db Hp) as Hall.
  assert (Hconst : Forall (λ x, x = n)
            (teardown_phase <$> calls (trace (interp E p w db)))).
  { apply Forall_fmap. unfold calls.
    induction Hall as [|ev t Hev _ IH]; simpl; [constructor|].
    destruct (is_call ev) eqn:Hc; [|exact IH]. constructor; [auto|exact IH]. }
  unfold seq_run. destruct (outcome (interp E p w db)) as [a|e]; simpl.
  - rewrite calls_app, fmap_app. apply rising_app_const; [done|apply Hf].
  - rewrite <- (app_nil_r (_ <$> _)). by apply rising_app_const.
Qed.

Lemma empty_bucket_emits (P : event → Prop) (b : pyval) (region : string) :
  (∀ msg, P (Printed msg)) →
  (∀ o err, service_of o = S3 →
            is_removal (Called o err) || is_lookup (Called o err) = true →
            P (Called o err)) →
  emits_only P (empty_bucket b region).
Proof.
  intros Hpr Hs3.
  assert (Hbatch : ∀ l, emits_only P (delete_in_batches region (str b) l)).
  { intros [|x l]; [exact I|]. unfold delete_in_batches.
    apply emits_only_for_each. intros batch. simpl.
    split; [|by intros []]. intros err. by apply Hs3. }
  unfold empty_bucket, for_pages. emits; try apply Hbatch; auto.
Qed.

Lemma delete_bucket_emits (P : event → Prop) (b : pyval) :
  (∀ msg, P (Printed msg)) →
  (∀ o err, service_of o = S3 →
            is_removal (Called o err) || is_lookup (Called o err) = true →
            P (Called o err)) →
  emits_only P (delete_bucket b).
Proof.
  intros Hpr Hs3. unfold delete_bucket.
  destruct (negb (truthy b)); [exact I|].
  apply emits_only_try_except.
  - apply emits_only_bind; [emits; auto|]. intros location.
    apply emits_only_bind; [by apply empty_bucket_emits|]. intros _.
    emits; auto.
  - intros e. emits; auto.
Qed.

(** X18. The calls of a teardown run come in the order gateway, functions
    and their triggers, table, topic, storage: no call of an earlier kind
    follows a call of a later kind, whatever the provider answers. *)
Theorem teardown_calls_in_deletion_order (w : W) (db : shelf)
    (i j x y : nat) :
  let phases := teardown_phase <$> calls (trace (interp E main w db)) in
  (i < j)%nat → phases !! i = Some x → phases !! j = Some y → (x ≤ y)%nat.
Proof.
  intros phases. apply (rising_lookup 0). subst phases.
  rewrite teardown_main_run, trace_foldr_emit, calls_app.
  change (calls (teardown_prefix db)) with (@nil event). rewrite app_nil_l.
  generalize (default VNone (db !! "uploads-bucket"))
    (default VNone (db !! "web-bucket")) (default VNone (db !! "api-url"))
    (default VNone (db !! "sns-arn")).
  intros u wb a s. generalize (∅ : shelf). revert w.
  unfold deletions.
  apply phase_bind.
  { unfold delete_api_gateway, index. emits; intros; done. }
  intros _ w db'. apply (rising_mono 0 1); [lia|]. revert w db'.
  apply phase_bind.
  { apply emits_only_for_each. intros f.
    unfold delete_triggers, delete_lambda. emits; intros; done. }
  intros _ w db'. apply (rising_mono 1 2); [lia|]. revert w db'.
  apply phase_bind.
  { unfold delete_dynamo_table. emits; intros; done. }
  intros _ w db'. apply (rising_mono 2 3); [lia|]. revert w db'.
  apply phase_bind.
  { unfold delete_sns_topic. emits; intros; done. }
  intros _ w db'. apply (rising_mono 3 4); [lia|]. revert w db'.
  assert (Hb : ∀ b,
    emits_only (λ ev, is_call ev = true → teardown_phase ev = 4)
      (delete_bucket b)).
  { intros b. apply delete_bucket_emits; [done|].
    intros o err Ho _ _. simpl. by rewrite Ho. }
  apply phase_bind; [apply Hb|]. intros _.
  apply phase_bind; [apply Hb|]. intros _ w db'. exact I.
Qed.

(** X19. A teardown run that returns has attempted every kind: the deletion
    of the topic and the location lookup of each bucket the shelve named
    have been issued, after a table step in which the deletion of the table
    was refused or the wait for its disappearance succeeded. *)
Theorem teardown_that_returns_attempted_every_kind (w : W) (db : shelf) :
  let r := interp E main w db in
  outcome r = Returned tt →
  (∀ arn, db !! "sns-arn" = Some (VStr arn) → arn ≠ "" →
     Exists (λ ev, op_of ev = Some (sns_delete_topic arn)) (trace r))
  ∧ (∀ key b, key ∈ ["uploads-bucket"; "web-bucket"] →
       db !! key = Some (VStr b) → b ≠ "" →
       Exists (λ ev, op_of ev = Some (s3_get_bucket_location b)) (trace r))
  ∧ Exists (λ ev, ev = Called (ddb_wait_table_not_exists TABLE_NAME) None
                  ∨ ∃ c, ev = Called (ddb_delete_table TABLE_NAME) (Some c))
      (trace r).
Proof.
  intros r. subst r. rewrite teardown_main_run.
  rewrite trace_foldr_emit, outcome_foldr_emit.
  set (u := default VNone (db !! "uploads-bucket")).
  set (wb := default VNone (db !! "web-bucket")).
  set (a := default VNone (db !! "api-url")).
  set (s := default VNone (db !! "sns-arn")).
  unfold deletions. intros Hret.
  apply returned_bind in Hret as ([] & t1 & w1 & db1 & _ & Hret & ->).
  apply returned_bind in Hret as ([] & t2 & w2 & db2 & _ & Hret & ->).
  apply returned_bind in Hret as ([] & t3 & w3 & db3 & Htable & Hret & ->).
  set (tail := (delete_sns_topic s ;; delete_bucket u ;; delete_bucket wb ;;
                print (nl +:+ "=== TEARDOWN COMPLETO ==="))%prog) in *.
  assert (Hlift : ∀ P : event → Prop,
            must_emit P tail →
            Exists P (teardown_prefix db ++ t1 ++ t2 ++ t3
                      ++ trace (interp E tail w3 db3))%list).
  { intros P HP. do 4 (apply Exists_app; right).
    by apply must_emit_sound. }
  split; [|split].
  - intros arn Hs Harn. apply Hlift. subst tail s. rewrite Hs. simpl.
    apply must_emit_bind_l. unfold delete_sns_topic.
    replace (truthy (VStr arn)) with true
      by (simpl; by destruct (String.eqb_spec arn "")).
    simpl. by left.
  - intros key b Hkey Hb Hne. apply Hlift. subst tail.
    apply must_emit_bind_r; [apply delete_sns_topic_never_raises|]. intros _.
    assert (Hbucket : must_emit
              (λ ev, op_of ev = Some (s3_get_bucket_location b))
              (delete_bucket (VStr b))).
    { unfold delete_bucket.
      replace (truthy (VStr b)) with true
        by (simpl; by destruct (String.eqb_spec b "")).
      simpl. by left. }
    apply elem_of_cons in Hkey as [->|Hkey].
    + subst u. rewrite Hb. simpl default. by apply must_emit_bind_l.
    + apply list_elem_of_singleton in Hkey as ->.
      subst wb. rewrite Hb. simpl default.
      apply must_emit_bind_r; [apply delete_bucket_never_raises|]. intros _.
      by apply must_emit_bind_l.
  - do 3 (apply Exists_app; right). apply Exists_app; left.
    revert Htable. unfold delete_dynamo_table. simpl.
    destruct (aws E (ddb_delete_table TABLE_NAME) w2) as [[[]|c] w4];
      simpl.
    + destruct (aws E (ddb_wait_table_not_exists TABLE_NAME) w4)
        as [[[]|c] w5]; simpl; [|done].
      intros [= _ _ <-].
      apply Exists_cons_tl, Exists_cons_tl, Exists_cons_hd. by left.
    + destruct (String.eqb c "ResourceNotFoundException"); simpl;
        intros [= _ _ <-]; apply Exists_cons_hd; right; by exists c.
Qed.

(** X20. A teardown run creates and changes nothing: each of its calls is a
    deletion, a lookup or a listing, and it writes nothing to the shelve it
    has cleared. *)
Theorem teardown_only_looks_up_and_removes (w : W) (db : shelf) :
  Forall (λ ev, (is_call ev = true →
                 is_removal ev || is_lookup ev = true)
                ∧ ∀ key v, ev ≠ DbWrote key v)
    (trace (interp E main w db)).
Proof.
  rewrite teardown_main_run, trace_foldr_emit. apply Forall_app. split.
  { by repeat constructor. }
  apply emits_only_sound. unfold deletions.
  assert (Hb : ∀ b,
    emits_only (λ ev, (is_call ev = true →
                       is_removal ev || is_lookup ev = true)
                      ∧ ∀ key v, ev ≠ DbWrote key v)
      (delete_bucket b)).
  { intros b. apply delete_bucket_emits; [done|]. by intros o err _ Ho. }
  apply emits_only_bind;
    [unfold delete_api_gateway, index; emits; done|intros _].
  apply emits_only_bind;
    [ apply emits_only_for_each; intros f;
      unfold delete_triggers, delete_lambda; emits; done
    | intros _ ].
  apply emits_only_bind; [unfold delete_dynamo_table; emits; done|intros _].
  apply emits_only_bind; [unfold delete_sns_topic; emits; done|intros _].
  apply emits_only_bind; [apply Hb|intros _].
  apply emits_only_bind; [apply Hb|intros _]. emits; done.
Qed.

End teardown_order.

(** ** The two scripts together *)

(** X21. The functions and the table an apply run creates are the ones a
    teardown run deletes: the fixed names of the two scripts coincide.
    Whatever function or table a creation call of an apply run names is one
    of the fixed names of teardown, and a teardown run that returns has
    issued the deletion call for that name. *)
Theorem teardown_deletes_what_apply_creates_by_name {W1 W2}
    (E1 : environment W1) (E2 : environment W2) (region email : string)
    (w1 : W1) (db1 : shelf) (w2 : W2) (db2 : shelf) (ev : event)
    (n : string) :
  ev ∈ trace (interp E1 (deploy_script.main region email) w1 db1) →
  created_name ev = Some n →
  (n ∈ [teardown.LOADER_FUNC; teardown.API_FUNC; teardown.NOTIFY_FUNC]
   ∨ n = teardown.TABLE_NAME)
  ∧ (outcome (interp E2 teardown.main w2 db2) = Returned tt →
     Exists (λ ev', deleted_name ev' = Some n)
       (trace (interp E2 teardown.main w2 db2))).
Proof.
  intros Hin Hn.
  assert (Hnames : emits_only
    (λ ev, ∀ n, created_name ev = Some n →
           n ∈ [teardown.LOADER_FUNC; teardown.API_FUNC; teardown.NOTIFY_FUNC]
           ∨ n = teardown.TABLE_NAME)
    (deploy_script.main region email)).
  { clear.
    unfold deploy_script.main, deploy_script.resolve_suffix,
      deploy_script.unique_suffix, deploy_script.provision,
      deploy_script.ensure_bucket, deploy_script.bucket_exists,
      deploy_script.create_bucket, deploy_script.ensure_inventory_table,
      deploy_script.labrole_arn, deploy_script.build_lambda_zip_bytes,
      deploy_script.ensure_lambda_generic, deploy_script.ensure_http_api,
      deploy_script.ensure_sns_topic, deploy_script.subscribe_email,
      deploy_script.configure_s3_lambda_trigger,
      deploy_script.create_dynamodb_trigger, deploy_script.deploy_static_site,
      deploy_script.upload_initial_data, deploy_script.disable_bucket_bpa,
      deploy_script.apply_web_public_policy, call, env, print, index,
      db_contains, db_getitem, db_setitem.
    emits.
    all: try discriminate.
    all: try (by apply upload_csv_files_emits_uploads).
    all: match goal with H : Some _ = Some _ |- _ => injection H as <- end.
    all: first [by right | left; by repeat constructor]. }
  pose proof (emits_only_sound E1 _ _ w1 db1 Hnames) as Hall.
  rewrite Forall_forall in Hall.
  pose proof (Hall ev Hin n Hn) as Hfixed. split; [exact Hfixed|].
  intros _. destruct Hfixed as [Hf| ->]; clear Hall Hnames Hin Hn;
    rewrite teardown_main_run, trace_foldr_emit, Exists_app; right.
  - eapply Exists_impl;
      [apply must_emit_sound, (deletions_attempt_functions _ _ _ _ n Hf)|].
    intros [] Hop; try discriminate. by injection Hop as ->.
  - eapply Exists_impl;
      [apply must_emit_sound, deletions_attempt_table|].
    intros [] Hop; try discriminate. by injection Hop as ->.
Qed.

(** ** Runs that meet the hypotheses of the properties above *)

Lemma table_described_only_when_it_exists_witness :
  let create :=
    ddb_create_table "Inventory" [("store", "HASH"); ("item", "RANGE")]
      [("store", "S"); ("item", "S")] "PAY_PER_REQUEST"
      {| StreamEnabled := true; StreamViewType := "NEW_AND_OLD_IMAGES" |} in
  let waited := Called (ddb_wait_table_exists "Inventory") None in
  calls (trace (interp permissive
                  (deploy_script.ensure_inventory_table "Inventory") tt ∅))
  = [Called create None; waited; Called (ddb_describe_table "Inventory") None]
  ∧ ([Called create None; waited]
     = [Called create (Some "ResourceInUseException")]
     ∨ [Called create None; waited] = [Called create None; waited]).
Proof.
  split; [reflexivity|].
  exact (proj2 (table_described_only_when_it_exists permissive "Inventory"
                  tt ∅ [_; _] [] None eq_refl)).
Defined.

Lemma labrole_arn_follows_caller_partition_witness :
  outcome (interp permissive deploy_script.labrole_arn tt ∅)
  = Returned "arn:aws:iam::123456789012:role/LabRole".
Proof.
  refine (proj1 (labrole_arn_follows_caller_partition permissive tt tt ∅
                   (empty_response sts_get_caller_identity) eq_refl)
            "arn" "aws" "sts::123456789012:assumed-role/LabRole/user"
            _ _ eq_refl);
    simpl; repeat split; discriminate.
Defined.

Lemma function_step_returns_base_arn_witness :
  "arn:aws:lambda:us-east-1:123456789012:function:LoadInventoryFunction"
  = "arn:aws:lambda:" +:+ "us-east-1" +:+ ":"
    +:+ Account (empty_response sts_get_caller_identity)
    +:+ ":function:" +:+ "LoadInventoryFunction".
Proof.
  exact (proj1 (function_step_returns_base_arn permissive "us-east-1"
                  "LoadInventoryFunction"
                  "arn:aws:iam::123456789012:role/LabRole" [] None
                  "lambda_function.lambda_handler"
                  (empty_response sts_get_caller_identity) tt tt ∅ eq_refl)
           _ eq_refl).
Defined.

Lemma gateway_found_by_name_is_reused_witness :
  ∃ err rest,
    calls (trace (interp permissive
                    (deploy_script.ensure_http_api "us-east-1" "InventoryAPI"
                       "arn:aws:lambda:us-east-1:123456789012:function:GetInventoryApiFunction")
                    tt ∅))
    = Called apigw_get_apis None
        :: Called (apigw_create_api "InventoryAPI" "HTTP"
                     {| AllowOrigins := ["*"];
                        AllowMethods := ["GET"; "OPTIONS"];
                        AllowHeaders := ["Content-Type"] |}) err
        :: rest.
Proof.
  exact (proj2 (gateway_found_by_name_is_reused permissive "us-east-1"
                  "InventoryAPI"
                  "arn:aws:lambda:us-east-1:123456789012:function:GetInventoryApiFunction"
                  [] tt tt ∅ eq_refl) eq_refl).
Defined.

Lemma upload_initial_data_uploads_csv_names_witness :
  omap op_of
    (trace (interp permissive
              (deploy_script.upload_initial_data "inventory-uploads-x" "data")
              tt ∅))
  = [s3_upload_file "data/inventory.csv" "inventory-uploads-x"
       "inventory.csv"].
Proof.
  exact (proj2 (upload_initial_data_uploads_csv_names permissive
                  "inventory-uploads-x" "data" ["inventory.csv"; "notes.txt"]
                  tt tt tt ∅ eq_refl eq_refl)).
Defined.

Lemma fresh_run_records_names_before_first_call_witness :
  let r := interp permissive (deploy_script.main "us-east-1" "ops@example.org")
             tt ∅ in
  store r !! "suffix" = Some (VStr "20240101-abcd1234")
  ∧ store r !! "uploads-bucket"
    = Some (VStr "inventory-uploads-20240101-abcd1234")
  ∧ store r !! "web-bucket" = Some (VStr "inventory-web-20240101-abcd1234").
Proof.
  exact (proj2 (fresh_run_records_names_before_first_call permissive
                  "us-east-1" "ops@example.org" tt ∅ (lookup_empty _))).
Defined.

Lemma uploads_go_to_the_wired_bucket_witness :
  let r := interp permissive (deploy_script.main "us-east-1" "ops@example.org")
             tt ∅ in
  ∃ bucket path key cfg,
    op_of (Called (s3_upload_file "data/inventory.csv"
                     "inventory-uploads-20240101-abcd1234" "inventory.csv")
             None)
    = Some (s3_upload_file path bucket key)
    ∧ store r !! "uploads-bucket" = Some (VStr bucket)
    ∧ Called (s3_put_bucket_notification_configuration bucket cfg) None
      ∈ take 66 (trace r).
Proof.
  apply (uploads_go_to_the_wired_bucket permissive "us-east-1"
           "ops@example.org" tt ∅ _ (drop 67 (trace (interp permissive
              (deploy_script.main "us-east-1" "ops@example.org") tt ∅))));
    vm_compute; reflexivity.
Defined.

Lemma stored_topic_is_subscribed_and_handed_on_witness :
  let r := interp permissive (deploy_script.main "us-east-1" "ops@example.org")
             tt ∅ in
  ∃ arn,
    store r !! "sns-arn" = Some (VStr arn)
    ∧ Called (sns_subscribe arn "email" "ops@example.org") None ∈ trace r.
Proof.
  assert (Hret : outcome (interp permissive
                    (deploy_script.main "us-east-1" "ops@example.org") tt ∅)
                 = Returned tt) by (vm_compute; reflexivity).
  destruct (stored_topic_is_subscribed_and_handed_on permissive "us-east-1"
              "ops@example.org" tt ∅ Hret) as (arn & Hst & Hsub & _).
  exists arn. exact (conj Hst Hsub).
Defined.

Lemma teardown_recovers_api_id_from_endpoint_witness :
  lacks ":" "a1b2c3d4e5" ∧ lacks "." "a1b2c3d4e5"
  ∧ calls (trace (interp permissive
        (teardown.delete_api_gateway
           (VStr (api_endpoint "us-east-1" "a1b2c3d4e5"))) tt ∅))
    = [Called (apigw_delete_api "a1b2c3d4e5") None].
Proof.
  assert (Hc : lacks ":" "a1b2c3d4e5") by (simpl; repeat split; discriminate).
  assert (Hd : lacks "." "a1b2c3d4e5") by (simpl; repeat split; discriminate).
  split; [exact Hc|]. split; [exact Hd|].
  exact (proj1 (proj2 (teardown_recovers_api_id_from_endpoint
                         permissive "us-east-1" "a1b2c3d4e5" tt ∅ Hc Hd))).
Defined.

Lemma gateway_url_without_scheme_deletes_nothing_witness :
  calls (trace (interp permissive
                  (teardown.delete_api_gateway
                     (VStr "http://a1b2c3d4e5.execute-api.us-east-1.amazonaws.com"))
                  tt ∅))
  = [].
Proof.
  exact (proj1 (proj2 (gateway_url_without_scheme_deletes_nothing permissive
                  "http://a1b2c3d4e5.execute-api.us-east-1.amazonaws.com"
                  tt ∅ eq_refl))).
Defined.

Lemma delete_triggers_stops_at_first_refusal_witness :
  let r := interp triggers_refused
             (teardown.delete_triggers "NotifyLowStockFunction") tt ∅ in
  trigger_deletions (trace r)
  = [("0a1b2c3d-1111-4aaa-8bbb-000000000001", Some "AccessDeniedException")]
  ∧ ((outcome r = Returned tt
      ∧ trigger_deletions (trace r)
        = (λ m, (UUID m, None))
            <$> [ {| UUID := "0a1b2c3d-1111-4aaa-8bbb-000000000001" |};
                  {| UUID := "0a1b2c3d-2222-4aaa-8bbb-000000000002" |} ])
     ∨ ∃ removed m c rest,
         [ {| UUID := "0a1b2c3d-1111-4aaa-8bbb-000000000001" |};
           {| UUID := "0a1b2c3d-2222-4aaa-8bbb-000000000002" |} ]
         = (removed ++ m :: rest)%list
         ∧ trigger_deletions (trace r)
           = (((λ m, (UUID m, None)) <$> removed)
              ++ [(UUID m, Some c)])%list
         ∧ ∃ pre,
             trace r
             = (pre ++ [Called (lambda_delete_event_source_mapping (UUID m))
                          (Some c)])%list).
Proof.
  split; [reflexivity|].
  exact (delete_triggers_stops_at_first_refusal triggers_refused
           "NotifyLowStockFunction"
           [ {| UUID := "0a1b2c3d-1111-4aaa-8bbb-000000000001" |};
             {| UUID := "0a1b2c3d-2222-4aaa-8bbb-000000000002" |} ]
           tt tt ∅ eq_refl).
Defined.

Lemma delete_bucket_through_its_region_witness :
  let r := interp emptying_refused
             (teardown.delete_bucket (VStr "inventory-web-20240101-abcd1234"))
             tt ∅ in
  outcome r = Returned tt
  ∧ Exists (λ ev, op_of ev
                  = Some (s3_delete_bucket "eu-west-1"
                            "inventory-web-20240101-abcd1234"))
      (trace r).
Proof.
  assert (Hne : "inventory-web-20240101-abcd1234" ≠ "") by discriminate.
  assert (Hret : outcome (interp emptying_refused
                    (teardown.delete_bucket
                       (VStr "inventory-web-20240101-abcd1234")) tt ∅)
                 = Returned tt) by (vm_compute; reflexivity).
  split; [exact Hret|].
  exact (proj2 (delete_bucket_through_its_region emptying_refused
                  "inventory-web-20240101-abcd1234" (Some "eu-west-1")
                  tt tt ∅ Hne eq_refl) Hret).
Defined.

Lemma teardown_calls_in_deletion_order_witness :
  let phases :=
    teardown_phase <$> calls (trace (interp permissive teardown.main tt
                                       deployed_record)) in
  phases !! 1 = Some 1 ∧ phases !! 17 = Some 4 ∧ (1 ≤ 4)%nat.
Proof.
  assert (H1 : (teardown_phase <$> calls (trace (interp permissive
                  teardown.main tt deployed_record))) !! 1 = Some 1)
    by (vm_compute; reflexivity).
  assert (H17 : (teardown_phase <$> calls (trace (interp permissive
                   teardown.main tt deployed_record))) !! 17 = Some 4)
    by (vm_compute; reflexivity).
  split; [exact H1|]. split; [exact H17|].
  apply (teardown_calls_in_deletion_order permissive tt deployed_record
           1 17 1 4); [lia|exact H1|exact H17].
Defined.

Lemma teardown_that_returns_attempted_every_kind_witness :
  Exists (λ ev, op_of ev
                = Some (sns_delete_topic
                          "arn:aws:sns:us-east-1:123456789012:NoStock-20240101-abcd1234"))
    (trace (interp permissive teardown.main tt deployed_record)).
Proof.
  assert (Hret : outcome (interp permissive teardown.main tt deployed_record)
                 = Returned tt) by (vm_compute; reflexivity).
  apply (proj1 (teardown_that_returns_attempted_every_kind permissive tt
                  deployed_record Hret));
    [vm_compute; reflexivity|discriminate].
Defined.

Lemma teardown_deletes_what_apply_creates_by_name_witness :
  outcome (interp nothing_deployed teardown.main tt ∅) = Returned tt
  ∧ Exists (λ ev, deleted_name ev = Some "Inventory")
      (trace (interp nothing_deployed teardown.main tt ∅)).
Proof.
  assert (Hret : outcome (interp nothing_deployed teardown.main tt ∅)
                 = Returned tt) by (vm_compute; reflexivity).
  split; [exact Hret|].
  refine (proj2 (teardown_deletes_what_apply_creates_by_name permissive
                   nothing_deployed "us-east-1" "ops@example.org" tt ∅ tt ∅
                   (Called (ddb_create_table "Inventory"
                              [("store", "HASH"); ("item", "RANGE")]
                              [("store", "S"); ("item", "S")]
                              "PAY_PER_REQUEST"
                              {| StreamEnabled := true;
                                 StreamViewType := "NEW_AND_OLD_IMAGES" |})
                      None)
                   "Inventory" _ eq_refl) Hret).
  apply (list_elem_of_lookup_2 _ 11). vm_compute. reflexivity.
Defined.
